(** * forkpost: the scheduled multi-platform publication pipeline

    A shallow embedding of the scheduling endpoints of [main.py] and of the
    publish coordinator [SocialMediaPoster.post_to_platforms] of [post.py],
    with the properties of the post life cycle, the due-post sweep and the
    platform fan-out stated over it.

    Conventions.
    - The [posts] table is a finite map from the primary key to the row.
    - Python dictionaries with string keys are [gmap string pyval].
    - Code that raises runs in the monad [M]: a computation takes the world
      (database and the trace of collaborator calls) and gives back either a
      value or the raised exception, together with the world it left behind.
    - The collaborators (the four platform clients, the recipe bot, the clock
      and the time-zone library) are arguments of the operations.
    - The platform clients of [post.py] and the image search of [image.py]
      are modelled on their own, over a platform that answers requests as
      it likes. *)

From Stdlib Require Import ZArith Ascii String List Lia.
From stdpp Require Import base option list gmap strings pretty sorting.

Local Open Scope Z_scope.
Local Open Scope string_scope.
Local Open Scope list_scope.

(** ** Python values *)

#[warnings="-register-all"]
Inductive pyval :=
| PyNone
| PyBool (b : bool)
| PyInt (z : Z)
| PyStr (s : string)
| PyDict (items : list (string * pyval)).

(** [bool(v)] *)
Definition truthy (v : pyval) : bool :=
  match v with
  | PyNone => false
  | PyBool b => b
  | PyInt z => negb (z =? 0)%Z
  | PyStr s => negb (String.eqb s "")
  | PyDict items => match items with [] => false | _ => true end
  end.

(** [d.get(k, dflt)] on a dictionary with string keys *)
Definition dict_get (d : gmap string pyval) (k : string) (dflt : pyval) : pyval :=
  default dflt (d !! k).

(** ** Exceptions

    Every constructor is an instance of a subclass of Python's [Exception];
    [HTTPException] is FastAPI's, itself a subclass of [Exception]. The detail
    of an [HTTPException] is kept symbolic where the source builds it with
    [str(e)]. *)

Inductive exn :=
| HTTPException (status_code : Z) (detail : message)
| ValueError
| AttributeError
| TypeError
| InterfaceError
| Failure (what : string)
with message :=
| Text (s : string)
| StrOf (e : exn)
| FailedToPublishPost (e : exn).

Definition is_ValueError (e : exn) : bool :=
  match e with ValueError => true | _ => false end.

Inductive result (A : Type) :=
| Ok (a : A)
| Raise (e : exn).
Arguments Ok {A} a.
Arguments Raise {A} e.

(** [v.get(k)] on an arbitrary value: only a dict has the method. *)
Fixpoint assoc (k : string) (items : list (string * pyval)) : option pyval :=
  match items with
  | [] => None
  | (k', v) :: rest => if String.eqb k k' then Some v else assoc k rest
  end.

Definition py_get (v : pyval) (k : string) : result pyval :=
  match v with
  | PyDict items => Ok (default PyNone (assoc k items))
  | _ => Raise AttributeError
  end.

(** ** The posts table *)

Record Post := {
  content : option string;
  image_url : option string;
  scheduled_time : option string;
  is_published : bool;
  is_canceled : bool;
  is_draft : bool;
  created_at : string;
  updated_at : string;
  engagement_score : Z;
  publish_to_twitter : option bool;
  publish_to_instagram : option bool;
  publish_to_facebook : option bool;
  publish_to_pinterest : option bool;
  twitter_post_id : option string;
  instagram_post_id : option string;
  facebook_post_id : option string;
  pinterest_post_id : option string
}.

(** [last_rowid] is the largest key handed out so far ([AUTOINCREMENT]). *)
Record database := {
  posts : gmap Z Post;
  last_rowid : Z
}.

(** ** The world and the monad *)

Inductive platform := Twitter | Instagram | Facebook | Pinterest.

(** What the collaborators see: each entry of [post_to_platforms] and each
    call of a platform client, in order. *)
Inductive event :=
| EvFanOut (text image : option string) (platforms : gmap string pyval)
| EvClient (p : platform) (text image : option string).

Record world := {
  db : database;
  trace : list event
}.

Definition M (A : Type) : Type := world -> result A * world.

Definition ret {A} (a : A) : M A := fun w => (Ok a, w).
Definition raise {A} (e : exn) : M A := fun w => (Raise e, w).
Definition bind {A B} (m : M A) (k : A -> M B) : M B :=
  fun w => match m w with
           | (Ok a, w') => k a w'
           | (Raise e, w') => (Raise e, w')
           end.
Definition lift {A} (r : result A) : M A := fun w => (r, w).

#[global] Instance M_ret : MRet M := @ret.
#[global] Instance M_bind : MBind M := fun A B k m => bind m k.

(** [try: body except Exception as e: handler e] — every [exn] is caught. *)
Definition try_except {A} (body : M A) (handler : exn -> M A) : M A :=
  fun w => match body w with
           | (Ok a, w') => (Ok a, w')
           | (Raise e, w') => handler e w'
           end.

(** [try: body except ValueError: handler] *)
Definition try_except_ValueError {A} (body : M A) (handler : M A) : M A :=
  fun w => match body w with
           | (Raise e, w') => if is_ValueError e then handler w' else (Raise e, w')
           | r => r
           end.

Definition emit (ev : event) : M unit :=
  fun w => (Ok tt, {| db := db w; trace := trace w ++ [ev] |}).

Definition get_db : M database := fun w => (Ok (db w), w).
Definition put_db (d : database) : M unit :=
  fun w => (Ok tt, {| db := d; trace := trace w |}).

(** ** The publish coordinator (post.py) *)

(** The four [post_image_from_url] methods, as black boxes: what each
    returns or raises for its arguments. *)
Record SocialMediaPoster := {
  twitter_poster : option string -> option string -> result pyval;
  instagram_poster : option string -> option string -> result pyval;
  facebook_poster : option string -> option string -> result pyval;
  pinterest_poster : option string -> option string -> option string -> result pyval
}.

Definition call (p : platform) (text image : option string) (r : result pyval) : M pyval :=
  emit (EvClient p text image) ;; lift r.

(** The dictionary rebuilt on entry has the four literal keys; its entries
    are the four booleans bound below. *)
Definition post_to_platforms (self : SocialMediaPoster)
    (content image_url : option string) (platforms : gmap string pyval)
    : M (gmap string pyval) :=
  emit (EvFanOut content image_url platforms);;
  let results : gmap string pyval := ∅ in
  let twitter := truthy (dict_get platforms "publish_to_twitter" (PyBool false)) in
  let instagram := truthy (dict_get platforms "publish_to_instagram" (PyBool false)) in
  let facebook := truthy (dict_get platforms "publish_to_facebook" (PyBool false)) in
  let pinterest := truthy (dict_get platforms "publish_to_pinterest" (PyBool false)) in
  results ←
    (if twitter then
       try_except
         (r ← call Twitter content image_url (twitter_poster self content image_url);
          i ← lift (py_get r "id");
          ret (<["twitter_post_id" := i]> results))
         (fun _ => ret (<["twitter_post_id" := PyNone]> results))
     else ret results);
  results ←
    (if instagram then
       try_except
         (r ← call Instagram content image_url (instagram_poster self image_url content);
          ret (<["instagram_post_id" := r]> results))
         (fun _ => ret (<["instagram_post_id" := PyNone]> results))
     else ret results);
  results ←
    (if facebook then
       try_except
         (r ← call Facebook content image_url (facebook_poster self image_url content);
          ret (<["facebook_post_id" := r]> results))
         (fun _ => ret (<["facebook_post_id" := PyNone]> results))
     else ret results);
  results ←
    (if pinterest then
       try_except
         (r ← call Pinterest content image_url
                 (pinterest_poster self image_url content content);
          i ← lift (py_get r "id");
          ret (<["pinterest_post_id" := i]> results))
         (fun _ => ret (<["pinterest_post_id" := PyNone]> results))
     else ret results);
  ret results.

(** ** Dates and times (datetime, zoneinfo)

    A calendar reading is a number of microseconds on the zone-less
    calendar time line, counted from 1970-01-01T00:00:00; an instant is the
    same count in UTC. The tz database, the ISO-8601 printer and parser are
    the library's, not the repository's: they are the fields of [timelib]. *)

(** A zone of the tz database: [tzinfo.utcoffset] (by calendar reading and
    fold) and [tzinfo.fromutc] (calendar reading and fold at an instant). *)
Record zone := {
  utcoffset_at : Z -> bool -> Z;
  fromutc : Z -> Z * bool
}.

Record timelib := {
  chicago : zone;
  localzone : zone;
  format_iso : Z -> option Z -> string;
  parse_iso : string -> option (Z * option Z)
}.

(** [ZoneInfo("America/Chicago")] is one cached object; any other zone
    information met here is the fixed offset of a parsed time stamp. *)
Inductive tzinfo := FixedOffset (offset : Z) | Chicago.

Record datetime := {
  wall : Z;
  fold : bool;
  tz : option tzinfo
}.

Record clock := {
  instant : Z;
  current_timestamp : string
}.

Definition days (n : Z) : Z := n * 86400000000.

Section Datetime.
Context (lib : timelib).

Definition utcoffset (d : datetime) : option Z :=
  match tz d with
  | None => None
  | Some (FixedOffset o) => Some o
  | Some Chicago => Some (utcoffset_at (chicago lib) (wall d) (fold d))
  end.

(** The instant an aware time denotes; a naive one is read in the system
    zone, as [astimezone] does. *)
Definition to_utc (d : datetime) : Z :=
  match utcoffset d with
  | Some o => wall d - o
  | None => wall d - utcoffset_at (localzone lib) (wall d) (fold d)
  end.

(** [datetime.now(ZoneInfo("America/Chicago"))] *)
Definition now_chicago (clk : clock) : datetime :=
  let '(w, f) := fromutc (chicago lib) (instant clk) in
  {| wall := w; fold := f; tz := Some Chicago |}.

(** [d.replace(tzinfo=z)]: the calendar reading is kept. *)
Definition replace_tzinfo (d : datetime) (z : tzinfo) : datetime :=
  {| wall := wall d; fold := fold d; tz := Some z |}.

(** [d.astimezone(ZoneInfo("America/Chicago"))] *)
Definition astimezone_chicago (d : datetime) : datetime :=
  match tz d with
  | Some Chicago => d
  | _ => let '(w, f) := fromutc (chicago lib) (to_utc d) in
         {| wall := w; fold := f; tz := Some Chicago |}
  end.

(** [d + timedelta(...)] *)
Definition add_timedelta (d : datetime) (delta : Z) : datetime :=
  {| wall := wall d + delta; fold := false; tz := tz d |}.

Definition isoformat (d : datetime) : string :=
  format_iso lib (wall d) (utcoffset d).

Definition fromisoformat (s : string) : result datetime :=
  match parse_iso lib s with
  | Some (w, o) => Ok {| wall := w; fold := false; tz := FixedOffset <$> o |}
  | None => Raise ValueError
  end.

(** Order comparison of two datetimes: with the same tzinfo object the
    calendar readings are compared, with different ones the instants; a
    naive and an aware one do not compare. *)
Definition datetime_compare (a b : datetime) : result comparison :=
  match tz a, tz b with
  | None, None => Ok (wall a ?= wall b)%Z
  | Some Chicago, Some Chicago => Ok (wall a ?= wall b)%Z
  | Some _, Some _ => Ok (to_utc a ?= to_utc b)%Z
  | _, _ => Raise TypeError
  end.

Definition datetime_le (a b : datetime) : result bool :=
  match datetime_compare a b with
  | Ok c => Ok (match c with Gt => false | _ => true end)
  | Raise e => Raise e
  end.

Definition datetime_gt (a b : datetime) : result bool :=
  match datetime_compare a b with
  | Ok c => Ok (match c with Gt => true | _ => false end)
  | Raise e => Raise e
  end.

(** [to_cst] of main.py; the argument is a value read from the
    [scheduled_time] column. *)
Definition to_cst (clk : clock) (dt_str : option string) : result string :=
  match dt_str with
  | None => Ok (isoformat (add_timedelta (now_chicago clk) (days 1)))
  | Some s =>
      match fromisoformat s with
      | Raise e => Raise e
      | Ok dt =>
          let dt := match tz dt with
                    | None => replace_tzinfo dt Chicago
                    | Some _ => astimezone_chicago dt
                    end in
          Ok (isoformat dt)
      end
  end.
End Datetime.

(** ** SQL values and the comparisons of the queries *)

Inductive sqlval :=
| SqlNull
| SqlInt (z : Z)
| SqlText (s : string).

(** Comparison results are three-valued: [None] is SQL's NULL. Integers
    sort before texts; texts compare byte by byte. *)
Definition sql_le (a b : sqlval) : option bool :=
  match a, b with
  | SqlNull, _ | _, SqlNull => None
  | SqlInt x, SqlInt y => Some (x <=? y)%Z
  | SqlInt _, SqlText _ => Some true
  | SqlText _, SqlInt _ => Some false
  | SqlText s, SqlText t => Some (String.leb s t)
  end.

Definition sql_eq (a b : sqlval) : option bool :=
  match a, b with
  | SqlNull, _ | _, SqlNull => None
  | SqlInt x, SqlInt y => Some (x =? y)%Z
  | SqlText s, SqlText t => Some (String.eqb s t)
  | _, _ => Some false
  end.

Definition sql_and (a b : option bool) : option bool :=
  match a, b with
  | Some false, _ | _, Some false => Some false
  | Some true, Some true => Some true
  | _, _ => None
  end.

Definition sql_of_bool (b : bool) : sqlval := SqlInt (if b then 1 else 0).
Definition sql_of_text (s : option string) : sqlval :=
  match s with Some t => SqlText t | None => SqlNull end.

(** A row is returned when the WHERE clause is true (neither false nor NULL). *)
Definition selected (c : option bool) : bool :=
  match c with Some true => true | _ => false end.

(** The WHERE clause of the sweep's query; [now] is the bound parameter. *)
Definition where_due (now : string) (row : Post) : option bool :=
  sql_and (sql_and (sql_and
    (sql_le (sql_of_text (scheduled_time row)) (SqlText now))
    (sql_eq (sql_of_bool (is_published row)) (SqlInt 0)))
    (sql_eq (sql_of_bool (is_canceled row)) (SqlInt 0)))
    (sql_eq (sql_of_bool (is_draft row)) (SqlInt 0)).

(** A sort that keeps the order of the elements it does not tell apart:
    an element goes in front of the first one it is not behind. *)
Section StableSort.
Context {A : Type} (R : relation A) `{!RelDecision R}.

Fixpoint insert_stable (x : A) (l : list A) : list A :=
  match l with
  | [] => [x]
  | y :: rest => if decide (R x y) then x :: y :: rest else y :: insert_stable x rest
  end.

Definition sort_stable (l : list A) : list A := foldr insert_stable [] l.
End StableSort.

Definition by_id (a b : Z * Post) : Prop := (a.1 <=? b.1)%Z = true.

#[global] Instance by_id_dec : RelDecision by_id :=
  fun a b => decide ((a.1 <=? b.1)%Z = true).

(** The rows of the table as a scan of it meets them: by ascending id. *)
Definition table_rows (d : database) : list (Z * Post) :=
  sort_stable by_id (map_to_list (posts d)).

(** The SELECT of the sweep and its [fetchall()]: the rows for which the
    WHERE clause holds, each with its id, in the order of the scan. *)
Definition select_due (d : database) (now : string) : list (Z * Post) :=
  filter (fun kr => selected (where_due now kr.2) = true) (table_rows d).

(** What sqlite3 stores for a Python value bound to a TEXT column. *)
Definition bind_text (v : pyval) : result (option string) :=
  match v with
  | PyNone => Ok None
  | PyStr s => Ok (Some s)
  | PyInt z => Ok (Some (pretty z))
  | PyBool b => Ok (Some (if b then "1" else "0"))
  | PyDict _ => Raise InterfaceError
  end.

(** A BOOLEAN column as the Python value of the fetched row. *)
Definition py_of_flag (f : option bool) : pyval :=
  match f with
  | Some b => PyInt (if b then 1 else 0)
  | None => PyNone
  end.

(** ** Requests and row updates (main.py) *)

(** The request body [PostCreate], after validation: an absent field has
    its default, an explicit null is [None]. *)
Module PostCreate.
Record t := {
  content : option string;
  image_url : option string;
  scheduled_time : option datetime;
  publish_to_twitter : option bool;
  publish_to_instagram : option bool;
  publish_to_facebook : option bool;
  publish_to_pinterest : option bool
}.
End PostCreate.

(** What the recipe bot's pipeline hands to [generate_post_text]. *)
Record generated := {
  tweet_text : string;
  reasoning : string;
  optimal_hour : Z;
  timing_reasoning : string
}.

(** [s or ''] *)
Definition or_empty (s : option string) : option string := Some (default "" s).

(** Truth value of an optional text: [None] and the empty text are false. *)
Definition nonempty (s : option string) : bool :=
  match s with
  | Some t => negb (String.eqb t "")
  | None => false
  end.

(** [s.replace('Z', '+00:00')] *)
Fixpoint replace_Z (s : string) : string :=
  match s with
  | EmptyString => EmptyString
  | String c rest =>
      if Ascii.eqb c "Z"%char then "+00:00" +:+ replace_Z rest
      else String c (replace_Z rest)
  end.

(** The SET lists of the UPDATE statements, one function each. *)

(** update_post: SET content, image_url, scheduled_time, updated_at, publish_to_* *)
Definition set_update_post (c i s : option string) (ts : string)
    (tw ig fb pn : option bool) (r : Post) : Post :=
  {| content := c; image_url := i; scheduled_time := s;
     is_published := is_published r; is_canceled := is_canceled r;
     is_draft := is_draft r; created_at := created_at r; updated_at := ts;
     engagement_score := engagement_score r;
     publish_to_twitter := tw; publish_to_instagram := ig;
     publish_to_facebook := fb; publish_to_pinterest := pn;
     twitter_post_id := twitter_post_id r;
     instagram_post_id := instagram_post_id r;
     facebook_post_id := facebook_post_id r;
     pinterest_post_id := pinterest_post_id r |}.

(** publish_post on a draft: SET is_draft = 0 *)
Definition set_not_draft (r : Post) : Post :=
  {| content := content r; image_url := image_url r;
     scheduled_time := scheduled_time r;
     is_published := is_published r; is_canceled := is_canceled r;
     is_draft := false; created_at := created_at r; updated_at := updated_at r;
     engagement_score := engagement_score r;
     publish_to_twitter := publish_to_twitter r;
     publish_to_instagram := publish_to_instagram r;
     publish_to_facebook := publish_to_facebook r;
     publish_to_pinterest := publish_to_pinterest r;
     twitter_post_id := twitter_post_id r;
     instagram_post_id := instagram_post_id r;
     facebook_post_id := facebook_post_id r;
     pinterest_post_id := pinterest_post_id r |}.

(** publish_post, publish_due_tweets: SET is_published = 1, updated_at, *_post_id *)
Definition set_published (ts : string) (tw ig fb pn : option string) (r : Post) : Post :=
  {| content := content r; image_url := image_url r;
     scheduled_time := scheduled_time r;
     is_published := true; is_canceled := is_canceled r;
     is_draft := is_draft r; created_at := created_at r; updated_at := ts;
     engagement_score := engagement_score r;
     publish_to_twitter := publish_to_twitter r;
     publish_to_instagram := publish_to_instagram r;
     publish_to_facebook := publish_to_facebook r;
     publish_to_pinterest := publish_to_pinterest r;
     twitter_post_id := tw; instagram_post_id := ig;
     facebook_post_id := fb; pinterest_post_id := pn |}.

(** cancel_post, uncancel_post: SET is_canceled, updated_at *)
Definition set_canceled (b : bool) (ts : string) (r : Post) : Post :=
  {| content := content r; image_url := image_url r;
     scheduled_time := scheduled_time r;
     is_published := is_published r; is_canceled := b;
     is_draft := is_draft r; created_at := created_at r; updated_at := ts;
     engagement_score := engagement_score r;
     publish_to_twitter := publish_to_twitter r;
     publish_to_instagram := publish_to_instagram r;
     publish_to_facebook := publish_to_facebook r;
     publish_to_pinterest := publish_to_pinterest r;
     twitter_post_id := twitter_post_id r;
     instagram_post_id := instagram_post_id r;
     facebook_post_id := facebook_post_id r;
     pinterest_post_id := pinterest_post_id r |}.

(** update_draft: SET content, image_url, scheduled_time, updated_at *)
Definition set_update_draft (c i s : option string) (ts : string) (r : Post) : Post :=
  {| content := c; image_url := i; scheduled_time := s;
     is_published := is_published r; is_canceled := is_canceled r;
     is_draft := is_draft r; created_at := created_at r; updated_at := ts;
     engagement_score := engagement_score r;
     publish_to_twitter := publish_to_twitter r;
     publish_to_instagram := publish_to_instagram r;
     publish_to_facebook := publish_to_facebook r;
     publish_to_pinterest := publish_to_pinterest r;
     twitter_post_id := twitter_post_id r;
     instagram_post_id := instagram_post_id r;
     facebook_post_id := facebook_post_id r;
     pinterest_post_id := pinterest_post_id r |}.

(** schedule_post: SET scheduled_time, is_draft = 0, updated_at *)
Definition set_scheduled (s : option string) (ts : string) (r : Post) : Post :=
  {| content := content r; image_url := image_url r; scheduled_time := s;
     is_published := is_published r; is_canceled := is_canceled r;
     is_draft := false; created_at := created_at r; updated_at := ts;
     engagement_score := engagement_score r;
     publish_to_twitter := publish_to_twitter r;
     publish_to_instagram := publish_to_instagram r;
     publish_to_facebook := publish_to_facebook r;
     publish_to_pinterest := publish_to_pinterest r;
     twitter_post_id := twitter_post_id r;
     instagram_post_id := instagram_post_id r;
     facebook_post_id := facebook_post_id r;
     pinterest_post_id := pinterest_post_id r |}.

(** The row of a response: the fetched row with [scheduled_time] replaced. *)
Definition with_scheduled_time (s : option string) (r : Post) : Post :=
  set_update_draft (content r) (image_url r) s (updated_at r) r.

(** [SELECT * FROM Posts WHERE id = ?] then [fetchone()] *)
Definition select_post (post_id : Z) : M (option Post) :=
  d ← get_db; ret (posts d !! post_id).

(** [UPDATE posts SET ... WHERE id = ?] then [commit()] *)
Definition update_posts (f : Post -> Post) (post_id : Z) : M unit :=
  d ← get_db;
  put_db {| posts := alter f post_id (posts d); last_rowid := last_rowid d |}.

(** [INSERT INTO posts ...], [lastrowid], [commit()] *)
Definition insert_post (r : Post) : M Z :=
  d ← get_db;
  let post_id := last_rowid d + 1 in
  put_db {| posts := <[post_id := r]> (posts d); last_rowid := post_id |};;
  ret post_id.

(** [for x in xs: body x] *)
Fixpoint for_each {A} (xs : list A) (body : A -> M unit) : M unit :=
  match xs with
  | [] => ret tt
  | x :: rest => body x;; for_each rest body
  end.

(** ** The endpoints and the sweep (main.py) *)

Section Endpoints.
Context (lib : timelib).
Context (social_media_poster : SocialMediaPoster).
Context (recipe_bot : result generated).

(** The five bot calls of [generate_post_text] are one black box. *)
Definition generate_post_text : M generated :=
  try_except (lift recipe_bot)
    (fun e => raise (HTTPException 500 (StrOf e))).

(** The placeholder shown for a row without a scheduled time. *)
Definition default_time (clk : clock) : string :=
  isoformat lib (add_timedelta (now_chicago lib clk) (days 1)).

Definition render_scheduled_time (clk : clock) (r : Post) : M Post :=
  match scheduled_time r with
  | Some s =>
      s' ← lift (to_cst lib clk (Some s));
      ret (with_scheduled_time (Some s') r)
  | None => ret (with_scheduled_time (Some (default_time clk)) r)
  end.

(** [dict(cursor.fetchone())] *)
Definition fetch_row (post_id : Z) : M Post :=
  r ← select_post post_id;
  match r with
  | Some row => ret row
  | None => raise TypeError
  end.

Definition scheduled_iso (st : option datetime) : option string :=
  match st with
  | Some t => Some (isoformat lib (replace_tzinfo t Chicago))
  | None => None
  end.

(** POST /posts/ *)
Definition create_scheduled_post (clk : clock) (post : PostCreate.t) : M (Z * Post) :=
  match PostCreate.scheduled_time post with
  | None => raise (HTTPException 400 (Text "Scheduled time is required"))
  | Some st =>
      let scheduled_cst := replace_tzinfo st Chicago in
      let now_cst := now_chicago lib clk in
      past ← lift (datetime_le lib scheduled_cst now_cst);
      if past : bool then
        raise (HTTPException 400 (Text "Scheduled time must be in the future (CST)"))
      else
        content ←
          (if nonempty (PostCreate.content post) then ret (PostCreate.content post)
           else g ← generate_post_text; ret (Some (tweet_text g)));
        post_id ← insert_post
          {| content := content;
             image_url := PostCreate.image_url post;
             scheduled_time := Some (isoformat lib scheduled_cst);
             is_published := false; is_canceled := false; is_draft := false;
             created_at := current_timestamp clk;
             updated_at := current_timestamp clk;
             engagement_score := 0;
             publish_to_twitter := PostCreate.publish_to_twitter post;
             publish_to_instagram := PostCreate.publish_to_instagram post;
             publish_to_facebook := PostCreate.publish_to_facebook post;
             publish_to_pinterest := PostCreate.publish_to_pinterest post;
             twitter_post_id := None; instagram_post_id := None;
             facebook_post_id := None; pinterest_post_id := None |};
        db_post ← fetch_row post_id;
        s ← lift (to_cst lib clk (scheduled_time db_post));
        ret (post_id, with_scheduled_time (Some s) db_post)
  end.

(** PUT /posts/{post_id} *)
Definition update_post (clk : clock) (post_id : Z) (post : PostCreate.t) : M Post :=
  existing_post ← select_post post_id;
  match existing_post with
  | None => raise (HTTPException 404 (Text "Post not found"))
  | Some _ =>
      update_posts
        (set_update_post
           (or_empty (PostCreate.content post))
           (or_empty (PostCreate.image_url post))
           (scheduled_iso (PostCreate.scheduled_time post))
           (current_timestamp clk)
           (PostCreate.publish_to_twitter post)
           (PostCreate.publish_to_instagram post)
           (PostCreate.publish_to_facebook post)
           (PostCreate.publish_to_pinterest post))
        post_id;;
      updated_post ← fetch_row post_id;
      render_scheduled_time clk updated_post
  end.

(** The dictionary both callers hand to the coordinator. *)
Definition platforms_of (r : Post) : gmap string pyval :=
  {[ "twitter" := py_of_flag (publish_to_twitter r);
     "instagram" := py_of_flag (publish_to_instagram r);
     "facebook" := py_of_flag (publish_to_facebook r);
     "pinterest" := py_of_flag (publish_to_pinterest r) ]}.

(** The UPDATE that closes a publication: the four ids are the
    [post_results.get(...)] values, bound as statement parameters. *)
Definition store_results (clk : clock) (post_id : Z)
    (post_results : gmap string pyval) : M unit :=
  tw ← lift (bind_text (dict_get post_results "twitter_post_id" PyNone));
  ig ← lift (bind_text (dict_get post_results "instagram_post_id" PyNone));
  fb ← lift (bind_text (dict_get post_results "facebook_post_id" PyNone));
  pn ← lift (bind_text (dict_get post_results "pinterest_post_id" PyNone));
  update_posts (set_published (current_timestamp clk) tw ig fb pn) post_id.

(** The time check publish_post makes for a post that is not a draft:
    a post without a scheduled time passes, one scheduled later than now
    is refused. *)
Definition verify_time (clk : clock) (post : Post) : M unit :=
  if nonempty (scheduled_time post) then
    let now_cst := now_chicago lib clk in
    dt ← lift (fromisoformat lib (default "" (scheduled_time post)));
    let scheduled_cst := replace_tzinfo dt Chicago in
    future ← lift (datetime_gt lib scheduled_cst now_cst);
    if future : bool then
      raise (HTTPException 400 (Text "Post is scheduled for future publication"))
    else ret tt
  else ret tt.

(** POST /posts/{post_id}/publish *)
Definition publish_post (clk : clock) (post_id : Z) : M (Post * gmap string pyval) :=
  try_except
    (r ← select_post post_id;
     match r with
     | None => raise (HTTPException 404 (Text "Post not found"))
     | Some post =>
         if is_published post then
           raise (HTTPException 400 (Text "Post is already published"))
         else
           (if is_draft post then update_posts set_not_draft post_id
            else verify_time clk post);;
           post_results ← post_to_platforms social_media_poster
                            (content post) (image_url post) (platforms_of post);
           store_results clk post_id post_results;;
           ret (post, post_results)
     end)
    (fun e => raise (HTTPException 500 (FailedToPublishPost e))).

(** POST /posts/{post_id}/cancel *)
Definition cancel_post (clk : clock) (post_id : Z) : M unit :=
  r ← select_post post_id;
  match r with
  | None => raise (HTTPException 404 (Text "Post not found"))
  | Some _ => update_posts (set_canceled true (current_timestamp clk)) post_id
  end.

(** DELETE /posts/{post_id}/cancel *)
Definition uncancel_post (clk : clock) (post_id : Z) : M unit :=
  r ← select_post post_id;
  match r with
  | None => raise (HTTPException 404 (Text "Post not found"))
  | Some _ => update_posts (set_canceled false (current_timestamp clk)) post_id
  end.

(** PUT /drafts/{post_id} *)
Definition update_draft (clk : clock) (post_id : Z) (post : PostCreate.t) : M Post :=
  existing_post ← select_post post_id;
  match existing_post with
  | None => raise (HTTPException 404 (Text "Draft not found"))
  | Some _ =>
      update_posts
        (set_update_draft
           (or_empty (PostCreate.content post))
           (or_empty (PostCreate.image_url post))
           (scheduled_iso (PostCreate.scheduled_time post))
           (current_timestamp clk))
        post_id;;
      updated_post ← fetch_row post_id;
      render_scheduled_time clk updated_post
  end.

(** POST /posts/{post_id}/schedule *)
Definition schedule_post (clk : clock) (post_id : Z)
    (scheduled_data : gmap string pyval) : M Post :=
  r ← select_post post_id;
  match r with
  | None => raise (HTTPException 404 (Text "Post not found"))
  | Some _ =>
      let scheduled_time' := dict_get scheduled_data "scheduled_time" PyNone in
      if negb (truthy scheduled_time') then
        raise (HTTPException 400 (Text "Scheduled time is required"))
      else
        scheduled_cst ←
          try_except_ValueError
            (s ← match scheduled_time' with
                 | PyStr s => ret s
                 | _ => raise AttributeError
                 end;
             scheduled_dt ← lift (fromisoformat lib (replace_Z s));
             let scheduled_cst := astimezone_chicago lib scheduled_dt in
             let now_cst := now_chicago lib clk in
             past ← lift (datetime_le lib scheduled_cst now_cst);
             if past : bool then
               raise (HTTPException 400
                        (Text "Scheduled time must be in the future (CST)"))
             else ret scheduled_cst)
            (raise (HTTPException 400 (Text "Invalid datetime format")));
        update_posts
          (set_scheduled (Some (isoformat lib scheduled_cst)) (current_timestamp clk))
          post_id;;
        updated_post ← fetch_row post_id;
        if nonempty (scheduled_time updated_post) then
          s ← lift (to_cst lib clk (scheduled_time updated_post));
          ret (with_scheduled_time (Some s) updated_post)
        else ret updated_post
  end.

(** The body of the sweep's loop, inside its own try/except. *)
Definition publish_due (clk : clock) (due : Z * Post) : M unit :=
  let '(post_id, post) := due in
  try_except
    (post_results ← post_to_platforms social_media_poster
                      (content post) (image_url post) (platforms_of post);
     store_results clk post_id post_results)
    (fun _ => ret tt).

(** The scheduled job, run every minute. *)
Definition publish_due_tweets (clk : clock) : M unit :=
  let now_cst := now_chicago lib clk in
  d ← get_db;
  let due_posts := select_due d (isoformat lib now_cst) in
  for_each due_posts (publish_due clk).
End Endpoints.

(** ** Observations used in the statements *)

(** What ends up under a platform's key when its client was called: the
    [id] entry of the returned dictionary (twitter, pinterest) or the
    returned value (instagram, facebook); [None] whenever the attempt raised. *)
Definition id_or_none (r : result pyval) : pyval :=
  match r with
  | Ok v => match py_get v "id" with Ok i => i | Raise _ => PyNone end
  | Raise _ => PyNone
  end.

Definition value_or_none (r : result pyval) : pyval :=
  match r with Ok v => v | Raise _ => PyNone end.

Definition insert_if (b : bool) (k : string) (v : pyval)
    (m : gmap string pyval) : gmap string pyval :=
  if b then <[k := v]> m else m.

Definition called_if (b : bool) (p : platform) (c i : option string) : list event :=
  if b then [EvClient p c i] else [].

(** The flag [post_to_platforms] reads for a platform. *)
Definition targeted (platforms : gmap string pyval) (key : string) : bool :=
  truthy (dict_get platforms key (PyBool false)).

Definition is_client_call (ev : event) : bool :=
  match ev with EvClient _ _ _ => true | EvFanOut _ _ _ => false end.

Definition post_ids (r : Post) : list (option string) :=
  [twitter_post_id r; instagram_post_id r; facebook_post_id r; pinterest_post_id r].

(** The text order of the store: byte-wise lexicographic. *)
Definition text_le (s t : string) : Prop := String.compare s t <> Gt.

(** The instant a stored time stamp denotes, when it carries an offset. *)
Definition instant_of (lib : timelib) (s : string) : option Z :=
  match parse_iso lib s with
  | Some (w, Some o) => Some (w - o)
  | _ => None
  end.

(** The table after the closing UPDATE of a publication that got no id. *)
Definition published_by (clk : clock) (post_id : Z) (m : gmap Z Post) : gmap Z Post :=
  alter (set_published (current_timestamp clk) None None None None) post_id m.

(** The table and the fan-outs of a sweep over the rows [due]. *)
Definition sweep_posts (clk : clock) (due : list (Z * Post))
    (m : gmap Z Post) : gmap Z Post :=
  foldl (fun m kr => published_by clk kr.1 m) m due.

Definition sweep_events (due : list (Z * Post)) : list event :=
  map (fun kr => EvFanOut (content kr.2) (image_url kr.2) (platforms_of kr.2)) due.


(** The row [create_scheduled_post] inserts for a request whose
    scheduled time is [st], with the text [c]. *)
Definition new_row (lib : timelib) (clk : clock) (req : PostCreate.t)
    (st : datetime) (c : option string) : Post :=
  {| content := c;
     image_url := PostCreate.image_url req;
     scheduled_time := Some (isoformat lib (replace_tzinfo st Chicago));
     is_published := false; is_canceled := false; is_draft := false;
     created_at := current_timestamp clk;
     updated_at := current_timestamp clk;
     engagement_score := 0;
     publish_to_twitter := PostCreate.publish_to_twitter req;
     publish_to_instagram := PostCreate.publish_to_instagram req;
     publish_to_facebook := PostCreate.publish_to_facebook req;
     publish_to_pinterest := PostCreate.publish_to_pinterest req;
     twitter_post_id := None; instagram_post_id := None;
     facebook_post_id := None; pinterest_post_id := None |}.

(** The library parses back the time stamp it prints for [d]. *)
Definition stamp_round_trips (lib : timelib) (d : datetime) : Prop :=
  parse_iso lib (isoformat lib d) = Some (wall d, utcoffset lib d).

(** The calendar reading a zone gives for the instant [u] has, in that
    zone, the offset that leads back to [u]. *)
Definition zone_consistent_at (z : zone) (u : Z) : Prop :=
  let '(w, f) := fromutc z u in w - utcoffset_at z w f = u.


(** ** Sample data for the examples

    The dates are in January 2030, when America/Chicago is at UTC-6; the
    printer and the parser are given by their values on the time stamps
    that occur. *)
Module Sample.
Definition hours (n : Z) : Z := n * 3600000000.

(** 2030-01-01T00:00:00 plus [h] hours, as a calendar reading *)
Definition jan_1_2030 (h : Z) : Z := 1893456000000000 + hours h.

Definition central : zone :=
  {| utcoffset_at := fun _ _ => hours (-6);
     fromutc := fun u => (u + hours (-6), false) |}.

Definition stamps : list (Z * option Z * string) :=
  [ (jan_1_2030 6, Some (hours (-6)), "2030-01-01T06:00:00-06:00");
    (jan_1_2030 12, Some (hours (-6)), "2030-01-01T12:00:00-06:00");
    (jan_1_2030 13, Some (hours (-6)), "2030-01-01T13:00:00-06:00");
    (jan_1_2030 36, Some (hours (-6)), "2030-01-02T12:00:00-06:00");
    (jan_1_2030 12, Some 0, "2030-01-01T12:00:00+00:00") ].

Definition print (w : Z) (o : option Z) : string :=
  match List.find (fun e => bool_decide (e.1 = (w, o))) stamps with
  | Some e => e.2
  | None => ""
  end.

Definition parse (s : string) : option (Z * option Z) :=
  match List.find (fun e => String.eqb e.2 s) stamps with
  | Some e => Some e.1
  | None => None
  end.

Definition lib : timelib :=
  {| chicago := central; localzone := central;
     format_iso := print; parse_iso := parse |}.

(** 2029-12-31, noon in Chicago *)
Definition eve : clock :=
  {| instant := jan_1_2030 (-6); current_timestamp := "2029-12-31 18:00:00" |}.

(** 2030-01-01, noon and one o'clock in Chicago *)
Definition noon : clock :=
  {| instant := jan_1_2030 18; current_timestamp := "2030-01-01 18:00:00" |}.
Definition one_pm : clock :=
  {| instant := jan_1_2030 19; current_timestamp := "2030-01-01 19:00:00" |}.

(** Twitter answers with id 123, Facebook is down. *)
Definition poster : SocialMediaPoster :=
  {| twitter_poster := fun _ _ => Ok (PyDict [("id", PyStr "123")]);
     instagram_poster := fun _ _ => Ok (PyStr "ig-7");
     facebook_poster := fun _ _ => Raise (Failure "503 Service Unavailable");
     pinterest_poster := fun _ _ _ => Ok (PyDict [("id", PyStr "pin-9")]) |}.


Definition bot : result generated := Raise (Failure "model unavailable").

Definition row (text : string) (when : option string)
    (published canceled draft : bool) : Post :=
  {| content := Some text; image_url := Some "https://example.com/dish.png";
     scheduled_time := when;
     is_published := published; is_canceled := canceled; is_draft := draft;
     created_at := "2029-12-30 09:00:00"; updated_at := "2029-12-30 09:00:00";
     engagement_score := 0;
     publish_to_twitter := Some true; publish_to_instagram := Some false;
     publish_to_facebook := Some true; publish_to_pinterest := Some false;
     twitter_post_id := None; instagram_post_id := None;
     facebook_post_id := None; pinterest_post_id := None |}.

(** 1: due at six; 2: already published; 3: scheduled for tomorrow;
    4: a draft. *)
Definition due_row : Post :=
  row "Fresh pasta" (Some "2030-01-01T06:00:00-06:00") false false false.
Definition published_row : Post :=
  row "Old news" (Some "2030-01-01T06:00:00-06:00") true false false.
Definition future_row : Post :=
  row "Tomorrow's soup" (Some "2030-01-02T12:00:00-06:00") false false false.
Definition draft_row : Post :=
  row "Idea" None false false true.

Definition store : world :=
  {| db := {| posts := {[ 1 := due_row; 2 := published_row;
                          3 := future_row; 4 := draft_row ]};
              last_rowid := 4 |};
     trace := [] |}.

(** The targets of the spec's example, as the callers build them. *)
Definition flags : gmap string pyval :=
  {[ "twitter" := PyBool true; "instagram" := PyBool false;
     "facebook" := PyBool true; "pinterest" := PyBool false ]}.

(** A request for 2030-01-01T12:00:00 with the given zone information. *)
Definition request (zone : option tzinfo) : PostCreate.t :=
  {| PostCreate.content := Some "Winter stew";
     PostCreate.image_url := None;
     PostCreate.scheduled_time :=
       Some {| wall := jan_1_2030 12; fold := false; tz := zone |};
     PostCreate.publish_to_twitter := Some true;
     PostCreate.publish_to_instagram := Some false;
     PostCreate.publish_to_facebook := Some false;
     PostCreate.publish_to_pinterest := Some false |}.
End Sample.

(** ** The night of 3 November 2030

    At 02:00 daylight saving time ends in America/Chicago: the hour from
    01:00 to 02:00 is gone through twice, first at UTC-5 and then at
    UTC-6. The zone is given for the days around that night. *)
Module FallBack.
Definition minutes (n : Z) : Z := n * 60000000.

(** 2030-11-03T00:00:00 plus [m] minutes, as a calendar reading *)
Definition nov_3_2030 (m : Z) : Z := Sample.jan_1_2030 (24 * 306) + minutes m.

Definition central : zone :=
  {| utcoffset_at := fun w second =>
       if (w <? nov_3_2030 60)%Z then Sample.hours (-5)
       else if (w <? nov_3_2030 120)%Z then
         (if second : bool then Sample.hours (-6) else Sample.hours (-5))
       else Sample.hours (-6);
     fromutc := fun u =>
       if (u <? nov_3_2030 420)%Z then (u + Sample.hours (-5), false)
       else if (u <? nov_3_2030 480)%Z then (u + Sample.hours (-6), true)
       else (u + Sample.hours (-6), false) |}.

Definition stamps : list (Z * option Z * string) :=
  [ (nov_3_2030 90, Some (Sample.hours (-5)), "2030-11-03T01:30:00-05:00");
    (nov_3_2030 70, Some (Sample.hours (-6)), "2030-11-03T01:10:00-06:00") ].

Definition print (w : Z) (o : option Z) : string :=
  match List.find (fun e => bool_decide (e.1 = (w, o))) stamps with
  | Some e => e.2
  | None => ""
  end.

Definition parse (s : string) : option (Z * option Z) :=
  match List.find (fun e => String.eqb e.2 s) stamps with
  | Some e => Some e.1
  | None => None
  end.

Definition lib : timelib :=
  {| chicago := central; localzone := central;
     format_iso := print; parse_iso := parse |}.



(** A request for 2030-11-03T01:30:00, sent without UTC offset. *)
Definition request : PostCreate.t :=
  {| PostCreate.content := Some "Sunday roast";
     PostCreate.image_url := None;
     PostCreate.scheduled_time :=
       Some {| wall := nov_3_2030 90; fold := false; tz := None |};
     PostCreate.publish_to_twitter := Some true;
     PostCreate.publish_to_instagram := Some false;
     PostCreate.publish_to_facebook := Some false;
     PostCreate.publish_to_pinterest := Some false |}.

End FallBack.

(** ** The other endpoints of main.py *)

(** ORDER BY on one column, ascending: NULL first, then integers, then
    texts byte by byte. *)
Definition order_le (a b : sqlval) : bool :=
  match a, b with
  | SqlNull, _ => true
  | _, SqlNull => false
  | SqlInt x, SqlInt y => (x <=? y)%Z
  | SqlInt _, SqlText _ => true
  | SqlText _, SqlInt _ => false
  | SqlText s, SqlText t => String.leb s t
  end.

(** [LIMIT limit OFFSET skip]: a negative limit is no limit, a negative
    offset is none. *)
Definition limit_offset {A} (limit skip : Z) (rows : list A) : list A :=
  let rest := drop (Z.to_nat skip) rows in
  if (limit <? 0)%Z then rest else take (Z.to_nat limit) rest.

(** The WHERE clauses of the two listings. *)
Definition where_scheduled (include_published : bool) (row : Post) : option bool :=
  if include_published then
    sql_eq (sql_of_bool (is_draft row)) (SqlInt 0)
  else
    sql_and (sql_and
      (sql_eq (sql_of_bool (is_published row)) (SqlInt 0))
      (sql_eq (sql_of_bool (is_canceled row)) (SqlInt 0)))
      (sql_eq (sql_of_bool (is_draft row)) (SqlInt 0)).

Definition where_draft (row : Post) : option bool :=
  sql_eq (sql_of_bool (is_draft row)) (SqlInt 1).

Definition by_scheduled_time (a b : Z * Post) : Prop :=
  order_le (sql_of_text (scheduled_time a.2)) (sql_of_text (scheduled_time b.2)) = true.

(** ORDER BY updated_at DESC *)
Definition by_updated_at_desc (a b : Z * Post) : Prop :=
  order_le (SqlText (updated_at b.2)) (SqlText (updated_at a.2)) = true.

#[global] Instance by_scheduled_time_dec : RelDecision by_scheduled_time :=
  fun a b => decide (order_le (sql_of_text (scheduled_time a.2))
                              (sql_of_text (scheduled_time b.2)) = true).

#[global] Instance by_updated_at_desc_dec : RelDecision by_updated_at_desc :=
  fun a b => decide (order_le (SqlText (updated_at b.2))
                              (SqlText (updated_at a.2)) = true).

(** [SELECT * FROM posts WHERE ... ORDER BY scheduled_time LIMIT ? OFFSET ?].
    Rows with equal keys stay in the order of the scan, by ascending id,
    as SQLite returns them. *)
Definition select_scheduled (d : database) (include_published : bool)
    (limit skip : Z) : list (Z * Post) :=
  limit_offset limit skip
    (sort_stable by_scheduled_time
       (filter (fun kr => selected (where_scheduled include_published kr.2) = true)
          (table_rows d))).

(** [SELECT * FROM posts WHERE is_draft = 1 ORDER BY updated_at DESC LIMIT ? OFFSET ?];
    rows with equal [updated_at] stay in the order of the scan. *)
Definition select_drafts (d : database) (limit skip : Z) : list (Z * Post) :=
  limit_offset limit skip
    (sort_stable by_updated_at_desc
       (filter (fun kr => selected (where_draft kr.2) = true)
          (table_rows d))).

(** [for x in xs: ...] that rewrites each element and may raise. *)
Fixpoint map_M {A B} (f : A -> M B) (xs : list A) : M (list B) :=
  match xs with
  | [] => ret []
  | x :: rest => y ← f x; ys ← map_M f rest; ret (y :: ys)
  end.

Section Listings.
Context (lib : timelib).

Definition render_row (clk : clock) (kr : Z * Post) : M (Z * Post) :=
  r ← render_scheduled_time lib clk kr.2; ret (kr.1, r).

(** GET /posts/ *)
Definition get_scheduled_posts (clk : clock) (skip limit : Z)
    (include_published : bool) : M (list (Z * Post)) :=
  d ← get_db;
  map_M (render_row clk) (select_scheduled d include_published limit skip).

(** GET /posts/{post_id} *)
Definition get_post (clk : clock) (post_id : Z) : M Post :=
  r ← select_post post_id;
  match r with
  | None => raise (HTTPException 404 (Text "Post not found"))
  | Some post => render_scheduled_time lib clk post
  end.

(** DELETE /posts/{post_id} *)
Definition delete_post (post_id : Z) : M unit :=
  r ← select_post post_id;
  match r with
  | None => raise (HTTPException 404 (Text "Post not found"))
  | Some _ =>
      d ← get_db;
      put_db {| posts := delete post_id (posts d); last_rowid := last_rowid d |}
  end.

(** GET /drafts/ *)
Definition get_drafts (clk : clock) (skip limit : Z) : M (list (Z * Post)) :=
  d ← get_db;
  map_M (render_row clk) (select_drafts d limit skip).

(** POST /drafts/: the INSERT names content, image_url, scheduled_time,
    is_draft and updated_at; every other column takes its default. *)
Definition create_draft (clk : clock) (post : PostCreate.t) : M (Z * Post) :=
  let scheduled_time := scheduled_iso lib (PostCreate.scheduled_time post) in
  post_id ← insert_post
    {| content := or_empty (PostCreate.content post);
       image_url := or_empty (PostCreate.image_url post);
       scheduled_time := scheduled_time;
       is_published := false; is_canceled := false; is_draft := true;
       created_at := current_timestamp clk;
       updated_at := current_timestamp clk;
       engagement_score := 0;
       publish_to_twitter := Some true; publish_to_instagram := Some false;
       publish_to_facebook := Some false; publish_to_pinterest := Some false;
       twitter_post_id := None; instagram_post_id := None;
       facebook_post_id := None; pinterest_post_id := None |};
  db_post ← fetch_row post_id;
  r ← render_scheduled_time lib clk db_post;
  ret (post_id, r).
End Listings.

(** The row [create_draft] inserts. *)
Definition new_draft (lib : timelib) (clk : clock) (req : PostCreate.t) : Post :=
  {| content := or_empty (PostCreate.content req);
     image_url := or_empty (PostCreate.image_url req);
     scheduled_time := scheduled_iso lib (PostCreate.scheduled_time req);
     is_published := false; is_canceled := false; is_draft := true;
     created_at := current_timestamp clk;
     updated_at := current_timestamp clk;
     engagement_score := 0;
     publish_to_twitter := Some true; publish_to_instagram := Some false;
     publish_to_facebook := Some false; publish_to_pinterest := Some false;
     twitter_post_id := None; instagram_post_id := None;
     facebook_post_id := None; pinterest_post_id := None |}.

(** Every key of the table has been handed out by the AUTOINCREMENT
    counter. *)
Definition keys_issued (d : database) : Prop :=
  ∀ k, is_Some (posts d !! k) → (k ≤ last_rowid d)%Z.



(** ** Choosing an image (main.py, generate_post_image) *)

(** One evaluated image: what [evaluate_images_in_parallel] returns for it. *)
Record rating := {
  url : string;
  score : Z;
  explanation : string
}.

(** The three methods of [TweetImageEvaluator] the route calls, as black
    boxes. *)
Module Evaluator.
Record t := {
  generate_search_queries : string -> result (list string);
  get_top_4_image_urls : string -> result (list string);
  evaluate_images_in_parallel : string -> list string -> result (list rating)
}.
End Evaluator.

(** [len(s)]: the number of code points of a text. The strings of this
    file are the UTF-8 forms of the texts, in which every code point has
    exactly one byte that is not a continuation byte (10xxxxxx). *)
Definition is_continuation (c : ascii) : bool :=
  match c with Ascii _ _ _ _ _ _ b6 b7 => b7 && negb b6 end.

Fixpoint len (s : string) : nat :=
  match s with
  | EmptyString => 0
  | String c rest => (if is_continuation c then 0 else 1) + len rest
  end.

(** The sort key [(-x['score'], len(x['explanation']))] and the order of
    such pairs. *)
Definition match_key (x : rating) : Z * Z :=
  (- score x, Z.of_nat (len (explanation x)))%Z.

Definition key_lt (a b : Z * Z) : bool :=
  (a.1 <? b.1)%Z || ((a.1 =? b.1)%Z && (a.2 <? b.2)%Z).

(** [sorted(xs, key=...)]: the sort is stable, so an element goes in
    front of the first one whose key is not smaller than its own. *)
Fixpoint insert_by_key (x : rating) (sorted : list rating) : list rating :=
  match sorted with
  | [] => [x]
  | y :: rest =>
      if key_lt (match_key y) (match_key x) then y :: insert_by_key x rest
      else x :: y :: rest
  end.

Definition sorted_by_key (xs : list rating) : list rating :=
  foldr insert_by_key [] xs.

(** The loop over the queries, with [all_results] so far. *)
Fixpoint evaluate_queries (image_evaluator : Evaluator.t) (tweet_text : string)
    (queries : list string) (all_results : list rating) : M (list rating) :=
  match queries with
  | [] => ret all_results
  | query :: rest =>
      image_urls ← lift (Evaluator.get_top_4_image_urls image_evaluator query);
      results ← lift (Evaluator.evaluate_images_in_parallel image_evaluator
                        tweet_text image_urls);
      evaluate_queries image_evaluator tweet_text rest (all_results ++ results)
  end.

(** POST /generate/image *)
Definition generate_post_image (image_evaluator : Evaluator.t)
    (tweet_text : string) : M rating :=
  try_except
    (queries ← lift (Evaluator.generate_search_queries image_evaluator tweet_text);
     all_results ← evaluate_queries image_evaluator tweet_text queries [];
     match all_results with
     | [] => raise (HTTPException 404 (Text "No suitable images found"))
     | _ :: _ =>
         let best_matches := sorted_by_key all_results in
         match best_matches with
         | [] => raise (Failure "IndexError")
         | best_match :: _ =>
             if (score best_match <? 7)%Z then
               raise (HTTPException 400 (Text "No images met quality threshold"))
             else ret best_match
         end
     end)
    (fun e => raise (HTTPException 500 (StrOf e))).

(** Everything the evaluator rates for a list of queries, when none of
    its calls raises. *)
Fixpoint rated (image_evaluator : Evaluator.t) (tweet_text : string)
    (queries : list string) : option (list rating) :=
  match queries with
  | [] => Some []
  | query :: rest =>
      match Evaluator.get_top_4_image_urls image_evaluator query with
      | Ok image_urls =>
          match Evaluator.evaluate_images_in_parallel image_evaluator
                  tweet_text image_urls with
          | Ok results => (results ++.) <$> rated image_evaluator tweet_text rest
          | Raise _ => None
          end
      | Raise _ => None
      end
  end.

(** [x] is at least as good a match as [y]: a higher score, or the same
    score and an explanation that is not longer. *)
Definition at_least_as_good (x y : rating) : Prop :=
  (score y < score x)%Z
  ∨ (score y = score x
     ∧ (len (explanation x) ≤ len (explanation y))%nat).

(** A sample evaluator: two queries, three rated images. The two best
    have explanations of seven bytes each; the second one has six code
    points. *)
Module SampleImages.
Definition soup : rating :=
  {| url := "https://img.example/soup.jpg"; score := 8;
     explanation := "A bowl of soup, as in the tweet" |}.
Definition loaf : rating :=
  {| url := "https://img.example/loaf.jpg"; score := 9;
     explanation := "A loaf." |}.
Definition bread : rating :=
  {| url := "https://img.example/bread.jpg"; score := 9;
     explanation := "Doré!!" |}.

Definition evaluator : Evaluator.t :=
  {| Evaluator.generate_search_queries := fun _ => Ok ["soup"; "bread"];
     Evaluator.get_top_4_image_urls := fun query =>
       Ok (if String.eqb query "soup" then [url soup] else [url loaf; url bread]);
     Evaluator.evaluate_images_in_parallel := fun _ image_urls =>
       Ok (if bool_decide (image_urls = [url soup]) then [soup] else [loaf; bread]) |}.
End SampleImages.

(** ** Searching for images (image.py, get_top_4_image_urls)

    The search service is a black box: for a query it raises, or answers
    a dictionary without ['images_results'] ([None]), or one with the list
    of results, each with its ['original'] URL when it has one. [lower] is
    [str.lower]. The posts table is the one of main.py. *)

(** [needle in s] *)
Fixpoint contains (needle s : string) : bool :=
  String.prefix needle s
  || match s with
     | EmptyString => false
     | String _ rest => contains needle rest
     end.

(** The count of the rows [WHERE image_url = ?], and [count > 0] *)
Definition is_image_url_used (d : database) (url : string) : bool :=
  let count :=
    length (filter (fun kr => selected (sql_eq (sql_of_text (image_url kr.2))
                                          (SqlText url)) = true)
              (map_to_list (posts d))) in
  bool_decide (0 < count)%nat.

Section ImageSearch.
Context (search : string -> result (option (list (option string))))
  (lower : string -> string).

(** The loop over [results['images_results']], with [image_urls] so far;
    leaving the match early is the [break]. *)
Fixpoint collect_image_urls (d : database) (images : list (option string))
    (image_urls : list string) : list string :=
  match images with
  | [] => image_urls
  | image :: rest =>
      match image with
      | Some url =>
          let image_urls :=
            if negb (is_image_url_used d url) && negb (contains "stockcake" (lower url))
            then image_urls ++ [url] else image_urls in
          if (4 <=? length image_urls)%nat then image_urls
          else collect_image_urls d rest image_urls
      | None => collect_image_urls d rest image_urls
      end
  end.

Definition get_top_4_image_urls (d : database) (query : string) : list string :=
  match search query with
  | Ok (Some images) => collect_image_urls d images []
  | Ok None => []
  | Raise _ => []
  end.

(** A URL the loop keeps. *)
Definition fresh_image (d : database) (url : string) : bool :=
  negb (is_image_url_used d url) && negb (contains "stockcake" (lower url)).

End ImageSearch.

(** ** The platform clients (post.py)

    A client talks to its platform over HTTP. The platform is a state
    machine the client knows nothing about: a request changes its state
    and is answered with a response, or [requests] raises. Client code runs
    in [IO St]: it takes the state of its session and gives back a value
    or the raised exception, and the state it left. *)

Module Response.
Record t := {
  status_code : Z;
  text : string;
  content : string;
  json : result pyval
}.
End Response.

Definition IO (St A : Type) : Type := St -> result A * St.

Definition io_ret {St} : MRet (IO St) := fun A a s => (Ok a, s).
Definition io_bind {St} : MBind (IO St) :=
  fun A B k m s => match m s with
                   | (Ok a, s') => k a s'
                   | (Raise e, s') => (Raise e, s')
                   end.
Definition io_raise {St A} (e : exn) : IO St A := fun s => (Raise e, s).
Definition io_lift {St A} (r : result A) : IO St A := fun s => (r, s).

(** [try: body finally: cleanup], for a cleanup that does not raise. *)
Definition try_finally {St A} (body : IO St A) (cleanup : St -> St) : IO St A :=
  fun s => let (r, s') := body s in (r, cleanup s').

(** [try: body except Exception as e: handler e] *)
Definition io_try_except {St A} (body : IO St A) (handler : exn -> IO St A) : IO St A :=
  fun s => match body s with
           | (Ok a, s') => (Ok a, s')
           | (Raise e, s') => handler e s'
           end.

(** [response.raise_for_status()]: an [HTTPError] for a 4xx or 5xx. *)
Definition raise_for_status {St} (response : Response.t) : IO St unit :=
  if (400 <=? Response.status_code response)%Z && (Response.status_code response <? 600)%Z
  then io_raise (Failure "HTTPError") else io_ret _ tt.

(** [v[k]] *)
Definition py_item (v : pyval) (k : string) : result pyval :=
  match v with
  | PyDict items =>
      match assoc k items with
      | Some x => Ok x
      | None => Raise (Failure "KeyError")
      end
  | _ => Raise TypeError
  end.

(** [v == s] for a text [s] *)
Definition is_str (v : pyval) (s : string) : bool :=
  match v with PyStr t => String.eqb t s | _ => false end.

Module InstagramClient.
#[local] Existing Instances io_ret io_bind.

(** The three requests of the client, without the account id and the
    access token, which never change. *)
Inductive request :=
| CreateMedia (image_url caption : option string)
| ContainerStatus (container_id : pyval)
| MediaPublish (creation_id : pyval).

(** What the client did, in order: a request with its answer, or a
    [time.sleep]. *)
Inductive step :=
| Sent (q : request) (answer : result Response.t)
| Slept (seconds : Z).

Record graph_api (St : Type) := {
  send : request -> St -> result Response.t * St;
  sleep : Z -> St -> St
}.
Arguments send {St} _ _ _.
Arguments sleep {St} _ _ _.

Record session (St : Type) := {
  remote : St;
  log : list step
}.
Arguments remote {St} _.
Arguments log {St} _.

Section Poster.
Context {St : Type} (api : graph_api St).

Definition requests (q : request) : IO (session St) Response.t :=
  fun e => let (answer, s) := send api q (remote e) in
           (answer, {| remote := s; log := log e ++ [Sent q answer] |}).

Definition time_sleep (seconds : Z) : IO (session St) unit :=
  fun e => (Ok tt, {| remote := sleep api seconds (remote e);
                      log := log e ++ [Slept seconds] |}).

(** The [except RequestException: ...; raise] of the three methods
    re-raises and is left out. *)
Definition create_container (image_url caption : option string)
    : IO (session St) pyval :=
  response ← requests (CreateMedia image_url (if nonempty caption then caption else None));
  raise_for_status response;;
  body ← io_lift (Response.json response);
  container_id ← io_lift (py_get body "id");
  if truthy container_id then mret container_id
  else io_raise (Failure "No container ID returned").

Definition check_container_status (container_id : pyval) : IO (session St) pyval :=
  response ← requests (ContainerStatus container_id);
  raise_for_status response;;
  body ← io_lift (Response.json response);
  io_lift (py_get body "status_code").

Definition publish_container (container_id : pyval) : IO (session St) pyval :=
  response ← requests (MediaPublish container_id);
  raise_for_status response;;
  body ← io_lift (Response.json response);
  media_id ← io_lift (py_get body "id");
  if truthy media_id then mret media_id
  else io_raise (Failure "No media ID returned").

Definition max_attempts : nat := 5.

(** [Exception(f"Container failed with status: {status}")]; the status is
    one of the two texts when this is raised. *)
Definition container_failed (status : pyval) : exn :=
  Failure ("Container failed with status: "
           +:+ match status with PyStr s => s | _ => "" end).

(** The [while attempt < max_attempts] loop, on the attempts that are
    left ([max_attempts - attempt]); its value is [status] when the loop
    is left. *)
Fixpoint wait_for_container (attempts_left : nat) (container_id status : pyval)
    : IO (session St) pyval :=
  match attempts_left with
  | O => mret status
  | S attempts_left =>
      status ← check_container_status container_id;
      if is_str status "FINISHED" then mret status
      else if is_str status "ERROR" || is_str status "EXPIRED" then
        io_raise (container_failed status)
      else
        time_sleep 5;;
        wait_for_container attempts_left container_id status
  end.

(** [InstagramImagePoster.post_image_from_url]; its [except Exception]
    re-raises. [status] is unbound before the first check, which always
    takes place. *)
Definition post_image_from_url (image_url caption : option string)
    : IO (session St) pyval :=
  container_id ← create_container image_url caption;
  status ← wait_for_container max_attempts container_id PyNone;
  if negb (is_str status "FINISHED") then
    io_raise (Failure "Container not ready after maximum attempts")
  else
    publish_container container_id.

End Poster.

(** Observations on a log. *)
Definition is_check (e : step) : bool :=
  match e with Sent (ContainerStatus _) _ => true | _ => false end.

Definition is_publish (e : step) : bool :=
  match e with Sent (MediaPublish _) _ => true | _ => false end.

Definition checks (l : list step) : nat := length (filter (fun e => is_check e = true) l).

Fixpoint seconds_slept (l : list step) : Z :=
  match l with
  | [] => 0
  | Slept n :: rest => n + seconds_slept rest
  | Sent _ _ :: rest => seconds_slept rest
  end.

(** What a method reads under [key] in the answer to its request. *)
Definition reading (key : string) (answer : result Response.t) : result pyval :=
  match answer with
  | Ok response =>
      if (400 <=? Response.status_code response)%Z
         && (Response.status_code response <? 600)%Z
      then Raise (Failure "HTTPError")
      else match Response.json response with
           | Ok body => py_get body key
           | Raise e => Raise e
           end
  | Raise e => Raise e
  end.

(** The response is no error and carries [value] under [key]. *)
Definition carries (response : Response.t) (key : string) (value : pyval) : Prop :=
  (400 <=? Response.status_code response)%Z && (Response.status_code response <? 600)%Z = false
  ∧ ∃ body, Response.json response = Ok body ∧ py_get body key = Ok value.

Definition pending (status : pyval) : Prop :=
  is_str status "FINISHED" = false ∧ is_str status "ERROR" = false
  ∧ is_str status "EXPIRED" = false.

(** A platform that accepts every container and never finishes one. *)
Definition answer (body : list (string * pyval)) : Response.t :=
  {| Response.status_code := 200; Response.text := ""; Response.content := "";
     Response.json := Ok (PyDict body) |}.

Definition stuck : graph_api unit :=
  {| send := fun q s =>
       match q with
       | CreateMedia _ _ => (Ok (answer [("id", PyStr "17900")]), s)
       | ContainerStatus _ => (Ok (answer [("status_code", PyStr "IN_PROGRESS")]), s)
       | MediaPublish _ => (Ok (answer [("id", PyStr "18000")]), s)
       end;
     sleep := fun _ s => s |}.

End InstagramClient.

Module TwitterClient.
#[local] Existing Instances io_ret io_bind.

Inductive request :=
| GetImage (url : option string)
| MediaUpload (media : string)
| CreateTweet (text : option string) (media_id : pyval).

Inductive step :=
| Sent (q : request) (answer : result Response.t).

Record twitter_api (St : Type) := {
  send : request -> St -> result Response.t * St
}.
Arguments send {St} _ _ _.

(** The session: the platform, the file [temp_image.png] of the working
    directory (its content, when it exists) and the requests so far. *)
Record session (St : Type) := {
  remote : St;
  temp_image : option string;
  log : list step
}.
Arguments remote {St} _.
Arguments temp_image {St} _.
Arguments log {St} _.

Section Poster.
Context {St : Type} (api : twitter_api St).

Definition requests (q : request) : IO (session St) Response.t :=
  fun e => let (answer, s) := send api q (remote e) in
           (answer, {| remote := s; temp_image := temp_image e;
                       log := log e ++ [Sent q answer] |}).

(** [with open(local_filename, 'wb') as f: f.write(data)] *)
Definition write_file (data : string) : IO (session St) unit :=
  fun e => (Ok tt, {| remote := remote e; temp_image := Some data; log := log e |}).

(** [open(image_path, 'rb')] and the read of the upload *)
Definition read_file : IO (session St) string :=
  fun e => match temp_image e with
           | Some data => (Ok data, e)
           | None => (Raise (Failure "FileNotFoundError"), e)
           end.

(** [if os.path.exists(local_filename): os.remove(local_filename)] *)
Definition remove_file (e : session St) : session St :=
  {| remote := remote e; temp_image := None; log := log e |}.

Definition download_image (url : option string) : IO (session St) unit :=
  response ← requests (GetImage url);
  raise_for_status response;;
  write_file (Response.content response).

Definition tweet_with_image (text : option string) : IO (session St) pyval :=
  image_file ← read_file;
  upload_response ← requests (MediaUpload image_file);
  (if negb (Response.status_code upload_response =? 200)%Z then
     io_raise (Failure ("Failed to upload image: " +:+ Response.text upload_response))
   else mret tt);;
  body ← io_lift (Response.json upload_response);
  media_id ← io_lift (py_item body "media_id_string");
  tweet_response ← requests (CreateTweet text media_id);
  (if negb (Response.status_code tweet_response =? 201)%Z then
     io_raise (Failure ("Failed to post tweet: " +:+ Response.text tweet_response))
   else mret tt);;
  io_lift (Response.json tweet_response).

(** [TwitterImagePoster.post_image_from_url]; the two [except] clauses
    re-raise. *)
Definition post_image_from_url (tweet_text image_url : option string)
    : IO (session St) pyval :=
  try_finally
    (download_image image_url;;
     tweet_with_image tweet_text)
    remove_file.

End Poster.

(** A platform that takes everything. *)
Definition accepting : twitter_api unit :=
  {| send := fun q s =>
       match q with
       | GetImage _ =>
           (Ok {| Response.status_code := 200; Response.text := "";
                  Response.content := "PNG"; Response.json := Raise ValueError |}, s)
       | MediaUpload _ =>
           (Ok {| Response.status_code := 200; Response.text := "";
                  Response.content := "";
                  Response.json := Ok (PyDict [("media_id_string", PyStr "710")]) |}, s)
       | CreateTweet _ _ =>
           (Ok {| Response.status_code := 201; Response.text := "";
                  Response.content := "";
                  Response.json := Ok (PyDict [("id", PyStr "1")]) |}, s)
       end |}.

End TwitterClient.

Module PinterestClient.
#[local] Existing Instances io_ret io_bind.

Inductive request :=
| GetImage (url : option string)
| UploadMedia (image : string)
| CreatePin (title description : option string) (media_id : pyval).

Inductive step :=
| Sent (q : request) (answer : result Response.t).

Record pinterest_api (St : Type) := {
  send : request -> St -> result Response.t * St
}.
Arguments send {St} _ _ _.

(** The session: the platform, the file [temp_pinterest_image.jpg] and
    the requests so far. *)
Record session (St : Type) := {
  remote : St;
  temp_image : option string;
  log : list step
}.
Arguments remote {St} _.
Arguments temp_image {St} _.
Arguments log {St} _.

Section Poster.
Context {St : Type} (api : pinterest_api St).

Definition requests (q : request) : IO (session St) Response.t :=
  fun e => let (answer, s) := send api q (remote e) in
           (answer, {| remote := s; temp_image := temp_image e;
                       log := log e ++ [Sent q answer] |}).

Definition write_file (data : string) : IO (session St) unit :=
  fun e => (Ok tt, {| remote := remote e; temp_image := Some data; log := log e |}).

Definition read_file : IO (session St) string :=
  fun e => match temp_image e with
           | Some data => (Ok data, e)
           | None => (Raise (Failure "FileNotFoundError"), e)
           end.

Definition remove_file (e : session St) : session St :=
  {| remote := remote e; temp_image := None; log := log e |}.

Definition download_image (url : option string) : IO (session St) unit :=
  response ← requests (GetImage url);
  raise_for_status response;;
  write_file (Response.content response).

Definition upload_media : IO (session St) pyval :=
  image_file ← read_file;
  upload_response ← requests (UploadMedia image_file);
  (if negb (Response.status_code upload_response =? 201)%Z then
     io_raise (Failure ("Failed to upload image: " +:+ Response.text upload_response))
   else mret tt);;
  body ← io_lift (Response.json upload_response);
  io_lift (py_item body "id").

(** [create_pin] without a link, as [post_image_from_url] calls it. *)
Definition create_pin (title description : option string) (media_id : pyval)
    : IO (session St) pyval :=
  pin_response ← requests (CreatePin title description media_id);
  (if negb (Response.status_code pin_response =? 201)%Z then
     io_raise (Failure ("Failed to create pin: " +:+ Response.text pin_response))
   else mret tt);;
  body ← io_lift (Response.json pin_response);
  _ ← io_lift (py_item body "id");
  io_lift (Response.json pin_response).

(** [PinterestImagePoster.post_image_from_url] with [link=None]; the two
    [except] clauses re-raise. *)
Definition post_image_from_url (image_url title description : option string)
    : IO (session St) pyval :=
  try_finally
    (download_image image_url;;
     media_id ← upload_media;
     create_pin title (if nonempty description then description else title) media_id)
    remove_file.

End Poster.
End PinterestClient.

Module FacebookClient.
#[local] Existing Instances io_ret io_bind.

(** The requests, with the access token they carry: it changes. *)
Inductive request :=
| PageInfo (access_token : pyval)
| GetImage (url : option string)
| UploadPhoto (message : option string) (access_token : pyval) (source : string).

Inductive step :=
| Sent (q : request) (answer : result Response.t).

Record graph_api (St : Type) := {
  send : request -> St -> result Response.t * St
}.
Arguments send {St} _ _ _.

(** The session: the platform, [self.access_token], the file
    [temp_facebook_image.jpg] and the requests so far. *)
Record session (St : Type) := {
  remote : St;
  access_token : pyval;
  temp_image : option string;
  log : list step
}.
Arguments remote {St} _.
Arguments access_token {St} _.
Arguments temp_image {St} _.
Arguments log {St} _.

Section Poster.
Context {St : Type} (api : graph_api St).

Definition requests (q : request) : IO (session St) Response.t :=
  fun e => let (answer, s) := send api q (remote e) in
           (answer, {| remote := s; access_token := access_token e;
                       temp_image := temp_image e;
                       log := log e ++ [Sent q answer] |}).

Definition get_access_token : IO (session St) pyval :=
  fun e => (Ok (access_token e), e).

Definition set_access_token (token : pyval) : IO (session St) unit :=
  fun e => (Ok tt, {| remote := remote e; access_token := token;
                      temp_image := temp_image e; log := log e |}).

Definition write_file (data : string) : IO (session St) unit :=
  fun e => (Ok tt, {| remote := remote e; access_token := access_token e;
                      temp_image := Some data; log := log e |}).

Definition read_file : IO (session St) string :=
  fun e => match temp_image e with
           | Some data => (Ok data, e)
           | None => (Raise (Failure "FileNotFoundError"), e)
           end.

Definition remove_file (e : session St) : session St :=
  {| remote := remote e; access_token := access_token e;
     temp_image := None; log := log e |}.

(** [get_page_info]: the [page_data.get('name', 'Unknown')] of the
    message it prints comes before the token is replaced. *)
Definition get_page_info : IO (session St) (option pyval) :=
  io_try_except
    (token ← get_access_token;
     response ← requests (PageInfo token);
     if (Response.status_code response =? 200)%Z then
       page_data ← io_lift (Response.json response);
       _ ← io_lift (py_get page_data "name");
       match page_data with
       | PyDict items =>
           match assoc "access_token" items with
           | Some page_token => set_access_token page_token;; mret (Some page_data)
           | None => mret (Some page_data)
           end
       | _ => mret (Some page_data)
       end
     else mret None)
    (fun _ => mret None).

Definition post_image_to_page (image_url caption : option string)
    : IO (session St) pyval :=
  get_page_info;;
  try_finally
    (response ← requests (GetImage image_url);
     raise_for_status response;;
     write_file (Response.content response);;
     image_file ← read_file;
     token ← get_access_token;
     response ← requests (UploadPhoto caption token image_file);
     raise_for_status response;;
     body ← io_lift (Response.json response);
     id ← io_lift (py_get body "id");
     photo_id ← (if truthy id then mret id else io_lift (py_get body "post_id"));
     if truthy photo_id then mret photo_id
     else io_raise (Failure "No photo ID returned"))
    remove_file.

(** [FacebookImagePoster.post_image_from_url]; its [except] re-raises. *)
Definition post_image_from_url (image_url caption : option string)
    : IO (session St) pyval :=
  post_image_to_page image_url caption.

End Poster.

(** The token the upload goes out with, given the token of the session
    and the answer to the page-info request. *)
Definition token_after (token : pyval) (answer : result Response.t) : pyval :=
  match answer with
  | Ok response =>
      if (Response.status_code response =? 200)%Z then
        match Response.json response with
        | Ok (PyDict items) => default token (assoc "access_token" items)
        | _ => token
        end
      else token
  | Raise _ => token
  end.

End FacebookClient.

(** ** The application as a whole

    The routes of main.py and the scheduler's job, one constructor each;
    [serve] is the world a call leaves behind. Calls are taken one at a
    time. *)
Inductive request :=
| CreateScheduledPost (post : PostCreate.t)
| GetScheduledPosts (skip limit : Z) (include_published : bool)
| GetPost (post_id : Z)
| UpdatePost (post_id : Z) (post : PostCreate.t)
| PublishPost (post_id : Z)
| DeletePost (post_id : Z)
| CancelPost (post_id : Z)
| UncancelPost (post_id : Z)
| GetDrafts (skip limit : Z)
| CreateDraft (post : PostCreate.t)
| UpdateDraft (post_id : Z) (post : PostCreate.t)
| SchedulePost (post_id : Z) (scheduled_data : gmap string pyval)
| PublishDueTweets.

(** A call: the request, the clock reading and what the collaborators do
    while it is served. *)
Record api_call := {
  call_clock : clock;
  call_poster : SocialMediaPoster;
  call_bot : result generated;
  call_request : request
}.

Definition serve (lib : timelib) (c : api_call) (w : world) : world :=
  let clk := call_clock c in
  match call_request c with
  | CreateScheduledPost post => (create_scheduled_post lib (call_bot c) clk post w).2
  | GetScheduledPosts skip limit include_published =>
      (get_scheduled_posts lib clk skip limit include_published w).2
  | GetPost post_id => (get_post lib clk post_id w).2
  | UpdatePost post_id post => (update_post lib clk post_id post w).2
  | PublishPost post_id => (publish_post lib (call_poster c) clk post_id w).2
  | DeletePost post_id => (delete_post post_id w).2
  | CancelPost post_id => (cancel_post clk post_id w).2
  | UncancelPost post_id => (uncancel_post clk post_id w).2
  | GetDrafts skip limit => (get_drafts lib clk skip limit w).2
  | CreateDraft post => (create_draft lib clk post w).2
  | UpdateDraft post_id post => (update_draft lib clk post_id post w).2
  | SchedulePost post_id scheduled_data =>
      (schedule_post lib clk post_id scheduled_data w).2
  | PublishDueTweets => (publish_due_tweets lib (call_poster c) clk w).2
  end.

Definition serve_all (lib : timelib) (calls : list api_call) (w : world) : world :=
  foldl (fun w c => serve lib c w) w calls.

(** No row is a draft and published at once, and every key has been
    issued. *)
Definition consistent (d : database) : Prop :=
  keys_issued d
  ∧ ∀ k r, posts d !! k = Some r → is_draft r = true → is_published r = false.

(** What may become of a row: a published row stays published with the
    ids it has, a row that is not a draft does not become one, and
    created_at and engagement_score stay. *)
Definition row_evolves (r r' : Post) : Prop :=
  (is_published r = true → is_published r' = true ∧ post_ids r' = post_ids r)
  ∧ (is_draft r = false → is_draft r' = false)
  ∧ created_at r' = created_at r
  ∧ engagement_score r' = engagement_score r.

(** What may become of a table: the counter does not go back, and a row
    found later under a key the counter had already passed is the
    evolution of the row that was there. *)
Definition evolves (d d' : database) : Prop :=
  (last_rowid d ≤ last_rowid d')%Z
  ∧ ∀ k r', (k ≤ last_rowid d)%Z → posts d' !! k = Some r' →
      ∃ r, posts d !! k = Some r ∧ row_evolves r r'.

(** An edit in place that leaves the publication alone. *)
Definition row_edit (r r' : Post) : Prop :=
  is_published r' = is_published r
  ∧ post_ids r' = post_ids r
  ∧ (is_draft r' = true → is_draft r = true)
  ∧ created_at r' = created_at r
  ∧ engagement_score r' = engagement_score r.

(** The changes a single route makes to the table. *)
Inductive change (d : database) : database → Prop :=
| change_none : change d d
| change_edit k f :
    (∀ r, row_edit r (f r)) →
    change d {| posts := alter f k (posts d); last_rowid := last_rowid d |}
| change_publish k r ts tw ig fb pn :
    posts d !! k = Some r → is_published r = false → is_draft r = false →
    change d {| posts := alter (set_published ts tw ig fb pn) k (posts d);
                last_rowid := last_rowid d |}
| change_insert r :
    is_published r = false →
    change d {| posts := <[(last_rowid d + 1)%Z := r]> (posts d);
                last_rowid := (last_rowid d + 1)%Z |}
| change_delete k :
    change d {| posts := delete k (posts d); last_rowid := last_rowid d |}.

(** A morning of calls against the sample store: publish the due post,
    cancel tomorrow's, turn the draft into a scheduled post, delete the old
    one, add a draft, and let the scheduler run. *)
Definition sample_calls : list api_call :=
  map (fun qr => {| call_clock := qr.1; call_poster := Sample.poster;
                    call_bot := Sample.bot; call_request := qr.2 |})
    [ (Sample.eve, SchedulePost 4 {[ "scheduled_time" := PyStr "2030-01-01T12:00:00Z" ]});
      (Sample.noon, PublishPost 1);
      (Sample.noon, CancelPost 3);
      (Sample.noon, DeletePost 2);
      (Sample.noon, CreateDraft (Sample.request None));
      (Sample.one_pm, PublishDueTweets) ].

(** * Properties *)

Ltac run :=
  repeat progress
    unfold mbind, M_bind, mret, M_ret, bind, try_except, try_except_ValueError,
      call, emit, lift, ret, raise, get_db, put_db in *.

Ltac run_db :=
  repeat progress (unfold select_post, update_posts, insert_post, fetch_row in *; run).

(** ** The coordinator *)

Lemma post_to_platforms_run self c i platforms w :
  let tw := targeted platforms "publish_to_twitter" in
  let ig := targeted platforms "publish_to_instagram" in
  let fb := targeted platforms "publish_to_facebook" in
  let pn := targeted platforms "publish_to_pinterest" in
  post_to_platforms self c i platforms w =
  (Ok (insert_if pn "pinterest_post_id" (id_or_none (pinterest_poster self i c c))
       (insert_if fb "facebook_post_id" (value_or_none (facebook_poster self i c))
       (insert_if ig "instagram_post_id" (value_or_none (instagram_poster self i c))
       (insert_if tw "twitter_post_id" (id_or_none (twitter_poster self c i)) ∅)))),
   {| db := db w;
      trace := trace w ++ EvFanOut c i platforms ::
                 called_if tw Twitter c i ++ called_if ig Instagram c i ++
                 called_if fb Facebook c i ++ called_if pn Pinterest c i |}).
Proof.
  intros tw ig fb pn. unfold post_to_platforms.
  change (truthy (dict_get platforms "publish_to_twitter" (PyBool false))) with tw.
  change (truthy (dict_get platforms "publish_to_instagram" (PyBool false))) with ig.
  change (truthy (dict_get platforms "publish_to_facebook" (PyBool false))) with fb.
  change (truthy (dict_get platforms "publish_to_pinterest" (PyBool false))) with pn.
  unfold id_or_none, value_or_none. run.
  destruct (twitter_poster self c i) as [v1|e1]; [destruct (py_get v1 "id")|];
  destruct (instagram_poster self i c) as [v2|e2];
  destruct (facebook_poster self i c) as [v3|e3];
  (destruct (pinterest_poster self i c c) as [v4|e4]; [destruct (py_get v4 "id")|]);
  destruct tw, ig, fb, pn; cbn; rewrite <- ?app_assoc; reflexivity.
Qed.

Lemma caller_keys_not_read (tw ig fb pn : pyval) (key : string) :
  key ∈ ["publish_to_twitter"; "publish_to_instagram";
         "publish_to_facebook"; "publish_to_pinterest"] →
  targeted {[ "twitter" := tw; "instagram" := ig;
              "facebook" := fb; "pinterest" := pn ]} key = false.
Proof.
  intros Hkey. unfold targeted, dict_get.
  repeat (apply elem_of_cons in Hkey as [->|Hkey]; [reflexivity|]).
  by apply elem_of_nil in Hkey.
Qed.

Lemma post_to_platforms_caller_keys self c i (tw ig fb pn : pyval) w :
  let platforms : gmap string pyval :=
    {[ "twitter" := tw; "instagram" := ig; "facebook" := fb; "pinterest" := pn ]} in
  post_to_platforms self c i platforms w =
  (Ok ∅, {| db := db w; trace := trace w ++ [EvFanOut c i platforms] |}).
Proof.
  intros platforms. rewrite post_to_platforms_run. unfold platforms.
  rewrite !caller_keys_not_read by set_solver. reflexivity.
Qed.

(** C4. Whatever the four clients do, [post_to_platforms] returns normally;
    every platform whose flag it reads as true has its client called, in
    order, whether or not an earlier client raised; and the entry it leaves
    under a platform's key is determined by that platform's own client alone:
    the id on success, [None] when the attempt raised. Platforms that are not
    targeted get no entry. *)
Theorem fan_out_isolates_failures
    (self : SocialMediaPoster) (c i : option string)
    (platforms : gmap string pyval) (w : world) :
  let tw := targeted platforms "publish_to_twitter" in
  let ig := targeted platforms "publish_to_instagram" in
  let fb := targeted platforms "publish_to_facebook" in
  let pn := targeted platforms "publish_to_pinterest" in
  ∃ results : gmap string pyval,
    post_to_platforms self c i platforms w =
      (Ok results,
       {| db := db w;
          trace := trace w ++ EvFanOut c i platforms ::
                     called_if tw Twitter c i ++ called_if ig Instagram c i ++
                     called_if fb Facebook c i ++ called_if pn Pinterest c i |})
    ∧ results !! "twitter_post_id" =
        (if tw then Some (id_or_none (twitter_poster self c i)) else None)
    ∧ results !! "instagram_post_id" =
        (if ig then Some (value_or_none (instagram_poster self i c)) else None)
    ∧ results !! "facebook_post_id" =
        (if fb then Some (value_or_none (facebook_poster self i c)) else None)
    ∧ results !! "pinterest_post_id" =
        (if pn then Some (id_or_none (pinterest_poster self i c c)) else None).
Proof.
  intros tw ig fb pn. eexists. split; [apply post_to_platforms_run|].
  fold tw ig fb pn. unfold insert_if.
  destruct tw, ig, fb, pn; repeat split; by simplify_map_eq.
Qed.

(** The example of the isolation invariant: Facebook raises, Twitter
    returns id 123, both targeted under the keys the coordinator reads. *)
Example fan_out_facebook_down :
  post_to_platforms Sample.poster (Some "Fresh pasta") None
    {[ "publish_to_twitter" := PyBool true; "publish_to_facebook" := PyBool true ]}
    Sample.store =
  (Ok {[ "twitter_post_id" := PyStr "123"; "facebook_post_id" := PyNone ]},
   {| db := db Sample.store;
      trace := [ EvFanOut (Some "Fresh pasta") None
                   {[ "publish_to_twitter" := PyBool true;
                      "publish_to_facebook" := PyBool true ]};
                 EvClient Twitter (Some "Fresh pasta") None;
                 EvClient Facebook (Some "Fresh pasta") None ] |}).
Proof. vm_compute. reflexivity. Qed.

(** C1. With the targets of the example, built the way both callers build
    them, the coordinator calls neither the twitter nor the facebook client
    (nor any other) and returns no entry at all: the flags set to true have
    no effect. *)
Theorem fan_out_ignores_caller_flags :
  ∀ (self : SocialMediaPoster) (c i : option string) (w : world),
    post_to_platforms self c i Sample.flags w =
    (Ok ∅, {| db := db w; trace := trace w ++ [EvFanOut c i Sample.flags] |}).
Proof. intros. apply post_to_platforms_caller_keys. Qed.

(** ** Publishing: the endpoint and the sweep *)

Lemma verify_time_world lib clk p w : (verify_time lib clk p w).2 = w.
Proof.
  unfold verify_time. destruct (nonempty (scheduled_time p)); [|reflexivity].
  run. destruct (fromisoformat lib _); [|reflexivity].
  destruct (datetime_gt lib _ _) as [[]|]; reflexivity.
Qed.

Lemma publish_post_run lib self clk post_id p w :
  posts (db w) !! post_id = Some p →
  is_published p = false →
  is_draft p = true ∨ (verify_time lib clk p w).1 = Ok tt →
  publish_post lib self clk post_id w =
  (Ok (p, ∅),
   {| db := {| posts := published_by clk post_id
                          (if is_draft p then alter set_not_draft post_id (posts (db w))
                           else posts (db w));
               last_rowid := last_rowid (db w) |};
      trace := trace w ++ [EvFanOut (content p) (image_url p) (platforms_of p)] |}).
Proof.
  intros Hp Hpub Hgate. unfold publish_post, select_post, update_posts.
  unfold try_except at 1. unfold mbind at 1, M_bind at 1, bind at 1.
  unfold mbind at 1, M_bind at 1, bind at 1. unfold get_db at 1, ret at 1.
  rewrite Hp, Hpub.
  destruct (is_draft p) eqn:Hdraft.
  - unfold mbind at 1, M_bind at 1, bind at 1.
    unfold mbind at 1, M_bind at 1, bind at 1. unfold get_db at 1.
    unfold put_db at 1.
    unfold mbind at 1, M_bind at 1, bind at 1.
    unfold platforms_of. rewrite post_to_platforms_caller_keys.
    reflexivity.
  - destruct Hgate as [?|Hgate]; [discriminate|].
    unfold mbind at 1, M_bind at 1, bind at 1.
    pose proof (verify_time_world lib clk p w) as Hw.
    destruct (verify_time lib clk p w) as [r w']. simpl in *. subst.
    unfold mbind at 1, M_bind at 1, bind at 1.
    unfold platforms_of. rewrite post_to_platforms_caller_keys.
    reflexivity.
Qed.

Lemma publish_due_run self clk post_id p w :
  publish_due self clk (post_id, p) w =
  (Ok tt,
   {| db := {| posts := published_by clk post_id (posts (db w));
               last_rowid := last_rowid (db w) |};
      trace := trace w ++ [EvFanOut (content p) (image_url p) (platforms_of p)] |}).
Proof.
  unfold publish_due, try_except.
  unfold mbind at 1, M_bind at 1, bind at 1.
  unfold platforms_of. rewrite post_to_platforms_caller_keys. reflexivity.
Qed.

Lemma for_each_publish_due self clk due w :
  for_each due (publish_due self clk) w =
  (Ok tt,
   {| db := {| posts := sweep_posts clk due (posts (db w));
               last_rowid := last_rowid (db w) |};
      trace := trace w ++ sweep_events due |}).
Proof.
  revert w. induction due as [|[post_id p] due IH]; intros w.
  - destruct w as [[m n] t]. cbn. by rewrite app_nil_r.
  - cbn [for_each]. unfold mbind at 1, M_bind at 1, bind at 1.
    rewrite publish_due_run, IH. cbn. by rewrite <- app_assoc.
Qed.

Lemma set_published_twice ts a b c d r :
  set_published ts a b c d (set_published ts a b c d r) = set_published ts a b c d r.
Proof. reflexivity. Qed.

Lemma sweep_posts_lookup clk due m k :
  sweep_posts clk due m !! k =
  if bool_decide (k ∈ due.*1)
  then set_published (current_timestamp clk) None None None None <$> m !! k
  else m !! k.
Proof.
  revert m. induction due as [|[post_id p] due IH]; intros m; [done|].
  change (sweep_posts clk ((post_id, p) :: due) m)
    with (sweep_posts clk due (published_by clk post_id m)).
  rewrite IH.
  unfold published_by. rewrite lookup_alter. cbn [fmap list_fmap fst].
  destruct (decide (post_id = k)) as [->|Hne].
  - rewrite (bool_decide_eq_true_2 (k ∈ k :: due.*1)) by set_solver.
    case_bool_decide; [|done].
    destruct (m !! k); [|done]. cbn. by rewrite set_published_twice.
  - assert (bool_decide (k ∈ post_id :: due.*1) = bool_decide (k ∈ due.*1)) as ->; [|done].
    apply bool_decide_ext. rewrite elem_of_cons.
    split; [intros [->|?]; [congruence|done] | by right].
Qed.

Lemma publish_due_tweets_run lib self clk w :
  publish_due_tweets lib self clk w =
  (Ok tt,
   {| db := {| posts := sweep_posts clk
                          (select_due (db w) (isoformat lib (now_chicago lib clk)))
                          (posts (db w));
               last_rowid := last_rowid (db w) |};
      trace := trace w ++
               sweep_events (select_due (db w) (isoformat lib (now_chicago lib clk))) |}).
Proof.
  unfold publish_due_tweets. unfold mbind at 1, M_bind at 1, bind at 1, get_db.
  apply for_each_publish_due.
Qed.

Section StableSortFacts.
Context {A : Type} (R : relation A) `{!RelDecision R}.

Lemma insert_stable_Permutation x l : insert_stable R x l ≡ₚ x :: l.
Proof.
  induction l as [|y l IH]; [done|]. cbn. case_decide; [done|].
  rewrite IH. apply Permutation_swap.
Qed.

Lemma sort_stable_Permutation l : sort_stable R l ≡ₚ l.
Proof.
  induction l as [|x l IH]; [done|]. cbn. by rewrite insert_stable_Permutation, IH.
Qed.


End StableSortFacts.

Lemma elem_of_table_rows d k p : (k, p) ∈ table_rows d ↔ posts d !! k = Some p.
Proof. unfold table_rows. by rewrite sort_stable_Permutation, elem_of_map_to_list. Qed.

Lemma by_id_total : Total by_id.
Proof. intros a b. unfold by_id. rewrite !Z.leb_le. lia. Qed.

Lemma by_id_trans : Transitive by_id.
Proof. intros a b c. unfold by_id. rewrite !Z.leb_le. lia. Qed.

#[local] Existing Instances by_id_total by_id_trans.




Example table_rows_by_id : (table_rows (db Sample.store)).*1 = [1; 2; 3; 4]%Z.
Proof. by vm_compute. Qed.

Lemma elem_of_select_due d now post_id p :
  (post_id, p) ∈ select_due d now ↔
  posts d !! post_id = Some p ∧ selected (where_due now p) = true.
Proof.
  unfold select_due. rewrite list_elem_of_filter, elem_of_table_rows. cbn. tauto.
Qed.

Lemma leb_text_le s t : String.leb s t = true ↔ text_le s t.
Proof.
  unfold String.leb, text_le. destruct (String.compare s t); split; congruence.
Qed.

Lemma selected_and a b :
  selected (sql_and a b) = true ↔ selected a = true ∧ selected b = true.
Proof. destruct a as [[]|], b as [[]|]; cbn; intuition congruence. Qed.

Lemma selected_flag_zero b :
  selected (sql_eq (sql_of_bool b) (SqlInt 0)) = true ↔ b = false.
Proof. destruct b; cbn; intuition congruence. Qed.

Lemma selected_text_le s now :
  selected (sql_le (sql_of_text s) (SqlText now)) = true ↔
  ∃ t, s = Some t ∧ text_le t now.
Proof.
  setoid_rewrite <- leb_text_le. destruct s as [t|]; cbn.
  - destruct (String.leb t now) eqn:Hle; split.
    + eauto.
    + done.
    + discriminate.
    + intros (t' & [= <-] & ?). congruence.
  - split; [discriminate|]. intros (t & ? & _). discriminate.
Qed.

Lemma selected_where_due now p :
  selected (where_due now p) = true ↔
  is_draft p = false ∧ is_published p = false ∧ is_canceled p = false ∧
  ∃ t, scheduled_time p = Some t ∧ text_le t now.
Proof.
  unfold where_due.
  rewrite !selected_and, !selected_flag_zero, selected_text_le. tauto.
Qed.


Lemma sweep_events_no_client due :
  Forall (fun ev => is_client_call ev = false) (sweep_events due).
Proof. unfold sweep_events. by apply Forall_fmap, Forall_true. Qed.

Lemma sweep_posts_published clk due m post_id p :
  (post_id, p) ∈ due → m !! post_id = Some p →
  sweep_posts clk due m !! post_id =
  Some (set_published (current_timestamp clk) None None None None p).
Proof.
  intros Hin Hm. rewrite sweep_posts_lookup, Hm.
  rewrite bool_decide_eq_true_2; [done|].
  apply list_elem_of_fmap. by exists (post_id, p).
Qed.




(** C2. Both callers key the targets by 'twitter', 'instagram', 'facebook',
    'pinterest', while the coordinator reads 'publish_to_twitter' and so on
    with default False. So for any flag values no client is called and the
    returned map is empty; [publish_post], once past its checks, and
    [publish_due_tweets], for every due row, then mark the post
    [is_published = 1] with the four platform ids null. *)
Theorem caller_flags_never_reach_clients
    (lib : timelib) (self : SocialMediaPoster) (clk : clock)
    (w : world) (post_id : Z) (p : Post)
    (Hrow : posts (db w) !! post_id = Some p)
    (Hnew : is_published p = false)
    (Hgate : is_draft p = true ∨ (verify_time lib clk p w).1 = Ok tt) :
  (∀ (c i : option string) (tw ig fb pn : pyval) (w0 : world),
     let platforms : gmap string pyval :=
       {[ "twitter" := tw; "instagram" := ig; "facebook" := fb; "pinterest" := pn ]} in
     post_to_platforms self c i platforms w0 =
     (Ok ∅, {| db := db w0; trace := trace w0 ++ [EvFanOut c i platforms] |}))
  ∧ (∃ w' p',
       publish_post lib self clk post_id w = (Ok (p, ∅), w')
       ∧ trace w' = trace w ++ [EvFanOut (content p) (image_url p) (platforms_of p)]
       ∧ posts (db w') !! post_id = Some p'
       ∧ is_published p' = true
       ∧ post_ids p' = [None; None; None; None])
  ∧ (∀ w0 : world, ∃ w' fan_outs,
       publish_due_tweets lib self clk w0 = (Ok tt, w')
       ∧ trace w' = trace w0 ++ fan_outs
       ∧ Forall (fun ev => is_client_call ev = false) fan_outs
       ∧ ∀ k r, (k, r) ∈ select_due (db w0) (isoformat lib (now_chicago lib clk)) →
           ∃ r', posts (db w') !! k = Some r'
                 ∧ is_published r' = true
                 ∧ post_ids r' = [None; None; None; None]).
Proof.
  split; [|split].
  - intros. apply post_to_platforms_caller_keys.
  - eexists _, (set_published (current_timestamp clk) None None None None
                  (if is_draft p then set_not_draft p else p)).
    split; [by apply publish_post_run|]. cbn.
    split; [done|]. split; [|done]. unfold published_by.
    destruct (is_draft p); by rewrite ?lookup_alter_eq, Hrow.
  - intros w0. eexists _, _. split; [apply publish_due_tweets_run|]. cbn.
    split; [done|]. split; [apply sweep_events_no_client|].
    intros k r Hin. eexists. split.
    + apply sweep_posts_published; [done|]. by apply elem_of_select_due in Hin as [? _].
    + done.
Qed.

Lemma caller_flags_never_reach_clients_witness :
  posts (db Sample.store) !! 1 = Some Sample.due_row
  ∧ is_published Sample.due_row = false
  ∧ (verify_time Sample.lib Sample.noon Sample.due_row Sample.store).1 = Ok tt
  ∧ ∃ w' p',
      publish_post Sample.lib Sample.poster Sample.noon 1 Sample.store =
        (Ok (Sample.due_row, ∅), w')
      ∧ trace w' = trace Sample.store ++
                   [EvFanOut (content Sample.due_row) (image_url Sample.due_row)
                      (platforms_of Sample.due_row)]
      ∧ posts (db w') !! 1 = Some p'
      ∧ is_published p' = true
      ∧ post_ids p' = [None; None; None; None].
Proof.
  assert (H1 : posts (db Sample.store) !! 1 = Some Sample.due_row) by reflexivity.
  assert (H2 : is_published Sample.due_row = false) by reflexivity.
  assert (H3 : (verify_time Sample.lib Sample.noon Sample.due_row Sample.store).1 = Ok tt)
    by reflexivity.
  repeat split; try assumption.
  exact (proj1 (proj2 (caller_flags_never_reach_clients
                         Sample.lib Sample.poster Sample.noon Sample.store 1
                         Sample.due_row H1 H2 (or_intror H3)))).
Defined.



(** C6. If no row of the store is due at the second run that was not
    already due at the first, then after the first sweep every row it
    processed has [is_published = 1], the due query of the second sweep is
    empty, and the second sweep leaves the world as it found it: no
    fan-out, no client call, no update. *)
Theorem second_sweep_publishes_nothing
    (lib : timelib) (self : SocialMediaPoster) (clk1 clk2 : clock) (w : world)
    (Hnone_new : ∀ (k : Z) (r : Post),
       posts (db w) !! k = Some r →
       selected (where_due (isoformat lib (now_chicago lib clk2)) r) = true →
       selected (where_due (isoformat lib (now_chicago lib clk1)) r) = true) :
  ∃ w1 : world,
    publish_due_tweets lib self clk1 w = (Ok tt, w1)
    ∧ (∀ k r, (k, r) ∈ select_due (db w) (isoformat lib (now_chicago lib clk1)) →
         ∃ r', posts (db w1) !! k = Some r' ∧ is_published r' = true)
    ∧ select_due (db w1) (isoformat lib (now_chicago lib clk2)) = []
    ∧ publish_due_tweets lib self clk2 w1 = (Ok tt, w1).
Proof.
  set (now1 := isoformat lib (now_chicago lib clk1)) in *.
  set (now2 := isoformat lib (now_chicago lib clk2)) in *.
  eexists. split; [apply publish_due_tweets_run|]. fold now1. cbn.
  assert (Hempty : select_due
            {| posts := sweep_posts clk1 (select_due (db w) now1) (posts (db w));
               last_rowid := last_rowid (db w) |} now2 = []).
  { apply elem_of_nil_inv. intros [k r'] Hin.
    apply elem_of_select_due in Hin as [Hk Hsel]. cbn in Hk.
    rewrite sweep_posts_lookup in Hk. case_bool_decide as Hdue.
    - destruct (posts (db w) !! k) as [r|]; [|done].
      injection Hk as <-. apply selected_where_due in Hsel as (_ & ? & _). done.
    - apply Hdue, list_elem_of_fmap. exists (k, r'). split; [done|].
      apply elem_of_select_due. split; [done|]. by eapply Hnone_new. }
  split; [|split; [done|]].
  - intros k r Hin.
    exists (set_published (current_timestamp clk1) None None None None r).
    split; [|done].
    apply sweep_posts_published; [done|]. by apply elem_of_select_due in Hin as [? _].
  - rewrite publish_due_tweets_run. fold now2. cbn. rewrite Hempty. cbn.
    by rewrite app_nil_r.
Qed.

Lemma sample_no_new_due (k : Z) (r : Post) :
  posts (db Sample.store) !! k = Some r →
  selected (where_due (isoformat Sample.lib (now_chicago Sample.lib Sample.one_pm)) r) = true →
  selected (where_due (isoformat Sample.lib (now_chicago Sample.lib Sample.noon)) r) = true.
Proof.
  intros Hk. apply elem_of_map_to_list in Hk.
  let rows := eval vm_compute in (map_to_list (posts (db Sample.store))) in
  change (map_to_list (posts (db Sample.store))) with rows in Hk.
  repeat (apply elem_of_cons in Hk as [Heq|Hk];
          [injection Heq as -> ->; vm_compute; done|]).
  by apply elem_of_nil in Hk.
Defined.

Lemma second_sweep_publishes_nothing_witness :
  ∃ w1 : world,
    publish_due_tweets Sample.lib Sample.poster Sample.noon Sample.store = (Ok tt, w1)
    ∧ (∀ k r, (k, r) ∈ select_due (db Sample.store)
                        (isoformat Sample.lib (now_chicago Sample.lib Sample.noon)) →
         ∃ r', posts (db w1) !! k = Some r' ∧ is_published r' = true)
    ∧ select_due (db w1) (isoformat Sample.lib (now_chicago Sample.lib Sample.one_pm)) = []
    ∧ publish_due_tweets Sample.lib Sample.poster Sample.one_pm w1 = (Ok tt, w1).
Proof.
  exact (second_sweep_publishes_nothing Sample.lib Sample.poster Sample.noon
           Sample.one_pm Sample.store sample_no_new_due).
Defined.

Example sample_due_at_noon :
  select_due (db Sample.store) (isoformat Sample.lib (now_chicago Sample.lib Sample.noon))
  = [(1, Sample.due_row)].
Proof. vm_compute. reflexivity. Qed.

(** ** Refusals of publish-now *)


Lemma publish_post_already_published lib self clk post_id p w :
  posts (db w) !! post_id = Some p → is_published p = true →
  publish_post lib self clk post_id w =
  (Raise (HTTPException 500
            (FailedToPublishPost
               (HTTPException 400 (Text "Post is already published")))), w).
Proof.
  intros Hp Hpub. unfold publish_post, select_post. run. by rewrite Hp, Hpub.
Qed.

Lemma publish_post_refused_by_time lib self clk post_id p w e :
  posts (db w) !! post_id = Some p → is_published p = false → is_draft p = false →
  (verify_time lib clk p w).1 = Raise e →
  publish_post lib self clk post_id w =
  (Raise (HTTPException 500 (FailedToPublishPost e)), w).
Proof.
  intros Hp Hpub Hdraft Hv. pose proof (verify_time_world lib clk p w) as Hw.
  unfold publish_post, select_post.
  unfold try_except at 1. unfold mbind at 1, M_bind at 1, bind at 1.
  unfold mbind at 1, M_bind at 1, bind at 1. unfold get_db at 1, ret at 1.
  rewrite Hp, Hpub, Hdraft.
  unfold mbind at 1, M_bind at 1, bind at 1.
  destruct (verify_time lib clk p w) as [r w']. cbn in *. by subst.
Qed.

(** C7. At a published post, and at a post that is not a draft and is
    scheduled for tomorrow, publish-now raises inside its own try block an
    HTTPException with status 400, which the enclosing [except Exception]
    catches and replaces by one with status 500; the store is unchanged and
    no fan-out is made. *)
Theorem publish_now_refusals_answer_500 :
  publish_post Sample.lib Sample.poster Sample.noon 2 Sample.store =
    (Raise (HTTPException 500
              (FailedToPublishPost
                 (HTTPException 400 (Text "Post is already published")))),
     Sample.store)
  ∧ publish_post Sample.lib Sample.poster Sample.noon 3 Sample.store =
    (Raise (HTTPException 500
              (FailedToPublishPost
                 (HTTPException 400 (Text "Post is scheduled for future publication")))),
     Sample.store).
Proof.
  split.
  - by apply publish_post_already_published with Sample.published_row.
  - by apply publish_post_refused_by_time with Sample.future_row.
Qed.

(** ** Cancel and uncancel *)

Lemma cancel_post_run clk post_id p w :
  posts (db w) !! post_id = Some p →
  cancel_post clk post_id w =
  (Ok tt, {| db := {| posts := alter (set_canceled true (current_timestamp clk))
                                 post_id (posts (db w));
                      last_rowid := last_rowid (db w) |};
             trace := trace w |}).
Proof. intros Hp. unfold cancel_post, select_post, update_posts. run. by rewrite Hp. Qed.

Lemma uncancel_post_run clk post_id p w :
  posts (db w) !! post_id = Some p →
  uncancel_post clk post_id w =
  (Ok tt, {| db := {| posts := alter (set_canceled false (current_timestamp clk))
                                 post_id (posts (db w));
                      last_rowid := last_rowid (db w) |};
             trace := trace w |}).
Proof. intros Hp. unfold uncancel_post, select_post, update_posts. run. by rewrite Hp. Qed.

(** C10. For an existing post, cancel followed by uncancel both succeed;
    afterwards the post has [is_canceled = 0] and the same content,
    image_url, scheduled_time, target flags, is_draft, is_published and
    platform ids as before the cancel; no other row and no collaborator is
    touched. *)
Theorem cancel_then_uncancel_restores
    (clk1 clk2 : clock) (w : world) (post_id : Z) (p : Post)
    (Hrow : posts (db w) !! post_id = Some p) :
  ∃ (w1 w2 : world) (p2 : Post),
    cancel_post clk1 post_id w = (Ok tt, w1)
    ∧ uncancel_post clk2 post_id w1 = (Ok tt, w2)
    ∧ posts (db w2) !! post_id = Some p2
    ∧ is_canceled p2 = false
    ∧ content p2 = content p
    ∧ image_url p2 = image_url p
    ∧ scheduled_time p2 = scheduled_time p
    ∧ publish_to_twitter p2 = publish_to_twitter p
    ∧ publish_to_instagram p2 = publish_to_instagram p
    ∧ publish_to_facebook p2 = publish_to_facebook p
    ∧ publish_to_pinterest p2 = publish_to_pinterest p
    ∧ is_draft p2 = is_draft p
    ∧ is_published p2 = is_published p
    ∧ post_ids p2 = post_ids p
    ∧ (∀ k, k ≠ post_id → posts (db w2) !! k = posts (db w) !! k)
    ∧ trace w2 = trace w.
Proof.
  eexists _, _, (set_canceled false (current_timestamp clk2)
                   (set_canceled true (current_timestamp clk1) p)).
  split; [by eapply cancel_post_run|].
  split.
  { eapply uncancel_post_run. cbn. by rewrite lookup_alter_eq, Hrow. }
  cbn. split; [by rewrite !lookup_alter_eq, Hrow|].
  repeat (split; [reflexivity|]). split; [|done].
  intros k Hk. by rewrite !lookup_alter_ne.
Qed.

Lemma cancel_then_uncancel_restores_witness :
  posts (db Sample.store) !! 3 = Some Sample.future_row
  ∧ ∃ (w1 w2 : world) (p2 : Post),
    cancel_post Sample.noon 3 Sample.store = (Ok tt, w1)
    ∧ uncancel_post Sample.one_pm 3 w1 = (Ok tt, w2)
    ∧ posts (db w2) !! 3 = Some p2
    ∧ is_canceled p2 = false
    ∧ content p2 = content Sample.future_row
    ∧ image_url p2 = image_url Sample.future_row
    ∧ scheduled_time p2 = scheduled_time Sample.future_row
    ∧ publish_to_twitter p2 = publish_to_twitter Sample.future_row
    ∧ publish_to_instagram p2 = publish_to_instagram Sample.future_row
    ∧ publish_to_facebook p2 = publish_to_facebook Sample.future_row
    ∧ publish_to_pinterest p2 = publish_to_pinterest Sample.future_row
    ∧ is_draft p2 = is_draft Sample.future_row
    ∧ is_published p2 = is_published Sample.future_row
    ∧ post_ids p2 = post_ids Sample.future_row
    ∧ (∀ k, k ≠ 3 → posts (db w2) !! k = posts (db Sample.store) !! k)
    ∧ trace w2 = trace Sample.store.
Proof.
  assert (H : posts (db Sample.store) !! 3 = Some Sample.future_row) by reflexivity.
  split; [exact H|].
  exact (cancel_then_uncancel_restores Sample.noon Sample.one_pm Sample.store 3
           Sample.future_row H).
Defined.



Lemma update_post_world lib clk post_id req p w :
  posts (db w) !! post_id = Some p →
  (update_post lib clk post_id req w).2 =
  {| db := {| posts := alter (set_update_post
                                (or_empty (PostCreate.content req))
                                (or_empty (PostCreate.image_url req))
                                (scheduled_iso lib (PostCreate.scheduled_time req))
                                (current_timestamp clk)
                                (PostCreate.publish_to_twitter req)
                                (PostCreate.publish_to_instagram req)
                                (PostCreate.publish_to_facebook req)
                                (PostCreate.publish_to_pinterest req))
                         post_id (posts (db w));
              last_rowid := last_rowid (db w) |};
     trace := trace w |}.
Proof.
  intros Hp. unfold update_post, render_scheduled_time. run_db.
  rewrite Hp. cbn. rewrite lookup_alter_eq, Hp. cbn.
  destruct (scheduled_iso lib _) as [s|]; [|done].
  unfold lift. by destruct (fromisoformat lib s).
Qed.

Lemma update_draft_world lib clk post_id req p w :
  posts (db w) !! post_id = Some p →
  (update_draft lib clk post_id req w).2 =
  {| db := {| posts := alter (set_update_draft
                                (or_empty (PostCreate.content req))
                                (or_empty (PostCreate.image_url req))
                                (scheduled_iso lib (PostCreate.scheduled_time req))
                                (current_timestamp clk))
                         post_id (posts (db w));
              last_rowid := last_rowid (db w) |};
     trace := trace w |}.
Proof.
  intros Hp. unfold update_draft, render_scheduled_time. run_db.
  rewrite Hp. cbn. rewrite lookup_alter_eq, Hp. cbn.
  destruct (scheduled_iso lib _) as [s|]; [|done].
  unfold lift. by destruct (fromisoformat lib s).
Qed.

Lemma schedule_post_world lib clk post_id data p w :
  posts (db w) !! post_id = Some p →
  (schedule_post lib clk post_id data w).2 = w
  ∨ ∃ s, (schedule_post lib clk post_id data w).2 =
         {| db := {| posts := alter (set_scheduled (Some s) (current_timestamp clk))
                                post_id (posts (db w));
                     last_rowid := last_rowid (db w) |};
            trace := trace w |}.
Proof.
  intros Hp. unfold schedule_post. run_db. rewrite Hp. cbn.
  destruct (truthy (dict_get data "scheduled_time" PyNone)); cbn; [|by left].
  destruct (dict_get data "scheduled_time" PyNone) as [| | |s|]; cbn; try by left.
  destruct (fromisoformat lib (replace_Z s)) as [dt|e]; cbn.
  2: { destruct (is_ValueError e); by left. }
  destruct (datetime_le lib _ _) as [[]|e]; cbn; try by left.
  2: { destruct (is_ValueError e); by left. }
  right. eexists. rewrite lookup_alter_eq, Hp. cbn.
  destruct (negb _); [|done].
  by destruct (fromisoformat lib (isoformat lib _)).
Qed.




(** ** Creating a scheduled post *)

Lemma datetime_le_chicago lib a b :
  datetime_le lib (replace_tzinfo a Chicago) (now_chicago lib b) =
  Ok (bool_decide (wall a ≤ wall (now_chicago lib b))%Z).
Proof.
  unfold datetime_le, datetime_compare, now_chicago.
  destruct (fromutc (chicago lib) (instant b)) as [w f]. cbn.
  destruct (Z.compare_spec (wall a) w); f_equal; symmetry;
    (apply bool_decide_eq_true_2 || apply bool_decide_eq_false_2); lia.
Qed.

Lemma create_scheduled_post_absent lib bot clk req w :
  PostCreate.scheduled_time req = None →
  create_scheduled_post lib bot clk req w =
  (Raise (HTTPException 400 (Text "Scheduled time is required")), w).
Proof. intros H. unfold create_scheduled_post. by rewrite H. Qed.

Lemma create_scheduled_post_not_future lib bot clk req st w :
  PostCreate.scheduled_time req = Some st →
  (wall st ≤ wall (now_chicago lib clk))%Z →
  create_scheduled_post lib bot clk req w =
  (Raise (HTTPException 400 (Text "Scheduled time must be in the future (CST)")), w).
Proof.
  intros H Hle. unfold create_scheduled_post. rewrite H.
  unfold mbind at 1, M_bind at 1, bind at 1, lift at 1.
  rewrite datetime_le_chicago. by rewrite bool_decide_eq_true_2.
Qed.

Lemma create_scheduled_post_no_text lib clk req st w e :
  PostCreate.scheduled_time req = Some st →
  (wall (now_chicago lib clk) < wall st)%Z →
  nonempty (PostCreate.content req) = false →
  create_scheduled_post lib (Raise e) clk req w =
  (Raise (HTTPException 500 (StrOf e)), w).
Proof.
  intros H Hlt Hc. unfold create_scheduled_post. rewrite H.
  unfold mbind at 1, M_bind at 1, bind at 1, lift at 1.
  rewrite datetime_le_chicago. rewrite bool_decide_eq_false_2 by lia.
  by rewrite Hc.
Qed.

Lemma to_cst_of_printed lib clk d :
  tz d = Some Chicago →
  stamp_round_trips lib d →
  to_cst lib clk (Some (isoformat lib d)) =
  Ok (isoformat lib
        (let '(w, f) := fromutc (chicago lib) (to_utc lib d) in
         {| wall := w; fold := f; tz := Some Chicago |})).
Proof.
  intros Htz Hrt. unfold to_cst, fromisoformat. rewrite Hrt.
  unfold utcoffset at 1. rewrite Htz. cbn.
  unfold astimezone_chicago. cbn. unfold to_utc, utcoffset. cbn. by rewrite Htz.
Qed.

Local Opaque to_cst.

Lemma create_scheduled_post_future lib bot clk req st w c :
  PostCreate.scheduled_time req = Some st →
  (wall (now_chicago lib clk) < wall st)%Z →
  (nonempty (PostCreate.content req) = true ∧ c = PostCreate.content req)
  ∨ (nonempty (PostCreate.content req) = false
     ∧ ∃ g, bot = Ok g ∧ c = Some (tweet_text g)) →
  stamp_round_trips lib (replace_tzinfo st Chicago) →
  create_scheduled_post lib bot clk req w =
  (Ok (last_rowid (db w) + 1,
       with_scheduled_time
         (Some (isoformat lib
                  (let '(w2, f2) := fromutc (chicago lib)
                                      (to_utc lib (replace_tzinfo st Chicago)) in
                   {| wall := w2; fold := f2; tz := Some Chicago |})))
         (new_row lib clk req st c)),
   {| db := {| posts := <[last_rowid (db w) + 1 := new_row lib clk req st c]>
                          (posts (db w));
               last_rowid := last_rowid (db w) + 1 |};
      trace := trace w |}).
Proof.
  intros H Hlt Hc Hrt. unfold create_scheduled_post. rewrite H.
  unfold mbind at 1, M_bind at 1, bind at 1, lift at 1.
  rewrite datetime_le_chicago. rewrite bool_decide_eq_false_2 by lia.
  destruct Hc as [[Hc ->]|(Hc & g & -> & ->)]; rewrite Hc;
    unfold generate_post_text; run_db; cbn; rewrite lookup_insert_eq; cbn;
    by rewrite to_cst_of_printed.
Qed.

Local Transparent to_cst.

(** C9, as the code has it. A request without scheduled_time is refused
    with status 400 and nothing is stored. A scheduled_time submitted
    without UTC offset is read as a Chicago calendar time: when it is not
    later than the current Chicago time the request is refused with status
    400 and nothing is stored; when it is later, the request succeeds
    provided it has content or the generator returns a text, one non-draft
    row is inserted whose scheduled_time is the submitted reading stamped
    with the Chicago zone, and (where the library parses back the stamp it
    printed and the zone data are consistent at that instant) the time read
    back in the response is a Chicago time denoting that same instant. *)
Theorem create_scheduled_post_by_calendar_reading
    (lib : timelib) (bot : result generated) (clk : clock)
    (req : PostCreate.t) (w : world) :
  (PostCreate.scheduled_time req = None →
   create_scheduled_post lib bot clk req w =
   (Raise (HTTPException 400 (Text "Scheduled time is required")), w))
  ∧ (∀ st, PostCreate.scheduled_time req = Some st → tz st = None →
       (wall st ≤ wall (now_chicago lib clk))%Z →
       create_scheduled_post lib bot clk req w =
       (Raise (HTTPException 400 (Text "Scheduled time must be in the future (CST)")), w))
  ∧ (∀ st c, PostCreate.scheduled_time req = Some st → tz st = None →
       (wall (now_chicago lib clk) < wall st)%Z →
       (nonempty (PostCreate.content req) = true ∧ c = PostCreate.content req)
       ∨ (nonempty (PostCreate.content req) = false
          ∧ ∃ g, bot = Ok g ∧ c = Some (tweet_text g)) →
       stamp_round_trips lib (replace_tzinfo st Chicago) →
       zone_consistent_at (chicago lib) (to_utc lib (replace_tzinfo st Chicago)) →
       ∃ (row : Post) (back : datetime),
         create_scheduled_post lib bot clk req w =
         (Ok (last_rowid (db w) + 1,
              with_scheduled_time (Some (isoformat lib back)) row),
          {| db := {| posts := <[last_rowid (db w) + 1 := row]> (posts (db w));
                      last_rowid := last_rowid (db w) + 1 |};
             trace := trace w |})
         ∧ scheduled_time row = Some (isoformat lib (replace_tzinfo st Chicago))
         ∧ content row = c
         ∧ is_draft row = false ∧ is_published row = false ∧ is_canceled row = false
         ∧ tz back = Some Chicago
         ∧ to_utc lib back = to_utc lib (replace_tzinfo st Chicago)).
Proof.
  split; [|split].
  - apply create_scheduled_post_absent.
  - intros st Hst _. by apply create_scheduled_post_not_future.
  - intros st c Hst _ Hlt Hc Hrt Hz.
    exists (new_row lib clk req st c).
    unfold zone_consistent_at in Hz.
    pose proof (create_scheduled_post_future lib bot clk req st w c Hst Hlt Hc Hrt)
      as Hrun.
    destruct (fromutc (chicago lib) (to_utc lib (replace_tzinfo st Chicago)))
      as [w2 f2] eqn:Hfrom.
    exists {| wall := w2; fold := f2; tz := Some Chicago |}.
    split; [exact Hrun|]. repeat (split; [reflexivity|]). exact Hz.
Qed.

Lemma create_scheduled_post_by_calendar_reading_witness :
  ∃ (row : Post) (back : datetime),
    create_scheduled_post Sample.lib Sample.bot Sample.eve (Sample.request None)
      Sample.store =
    (Ok (5, with_scheduled_time (Some (isoformat Sample.lib back)) row),
     {| db := {| posts := <[5 := row]> (posts (db Sample.store)); last_rowid := 5 |};
        trace := [] |})
    ∧ scheduled_time row = Some "2030-01-01T12:00:00-06:00"
    ∧ content row = Some "Winter stew"
    ∧ is_draft row = false ∧ is_published row = false ∧ is_canceled row = false
    ∧ tz back = Some Chicago
    ∧ to_utc Sample.lib back = Sample.jan_1_2030 18.
Proof.
  exact (proj2 (proj2 (create_scheduled_post_by_calendar_reading
                         Sample.lib Sample.bot Sample.eve (Sample.request None)
                         Sample.store))
           {| wall := Sample.jan_1_2030 12; fold := false; tz := None |}
           (Some "Winter stew")
           eq_refl eq_refl eq_refl (or_introl (conj eq_refl eq_refl)) eq_refl eq_refl).
Defined.

(** C9 as stated fails: a request for a future time that leaves the text
    to the generator is answered with status 500 when the generator fails,
    and nothing is stored. *)
Lemma created_post_needs_text :
  let req :=
    {| PostCreate.content := None; PostCreate.image_url := None;
       PostCreate.scheduled_time :=
         Some {| wall := Sample.jan_1_2030 12; fold := false; tz := None |};
       PostCreate.publish_to_twitter := Some true;
       PostCreate.publish_to_instagram := Some false;
       PostCreate.publish_to_facebook := Some false;
       PostCreate.publish_to_pinterest := Some false |} in
  (wall (now_chicago Sample.lib Sample.eve) < Sample.jan_1_2030 12)%Z
  ∧ create_scheduled_post Sample.lib Sample.bot Sample.eve req Sample.store =
    (Raise (HTTPException 500 (StrOf (Failure "model unavailable"))), Sample.store).
Proof.
  cbv zeta. split; [reflexivity|].
  by eapply (create_scheduled_post_no_text Sample.lib Sample.eve).
Qed.

(** A time submitted with offset +00:00, strictly in the future, is
    accepted; what is stored and read back keeps its calendar reading and
    denotes an instant six hours later than the one submitted. *)
Example created_post_moves_aware_time :
  let submitted :=
    {| wall := Sample.jan_1_2030 12; fold := false; tz := Some (FixedOffset 0) |} in
  let out := create_scheduled_post Sample.lib Sample.bot Sample.eve
               (Sample.request (Some (FixedOffset 0))) Sample.store in
  PostCreate.scheduled_time (Sample.request (Some (FixedOffset 0))) = Some submitted
  ∧ (instant Sample.eve < to_utc Sample.lib submitted)%Z
  ∧ (∃ row, out.1 = Ok (5, row)
            ∧ scheduled_time row = Some "2030-01-01T12:00:00-06:00")
  ∧ scheduled_time <$> posts (db out.2) !! 5 = Some (Some "2030-01-01T12:00:00-06:00")
  ∧ instant_of Sample.lib "2030-01-01T12:00:00-06:00" = Some (Sample.jan_1_2030 18)
  ∧ to_utc Sample.lib submitted = Sample.jan_1_2030 12
  ∧ Sample.jan_1_2030 18 ≠ Sample.jan_1_2030 12.
Proof.
  cbv zeta. split; [reflexivity|]. split; [reflexivity|].
  split; [eexists; split; [vm_compute; reflexivity|reflexivity]|].
  split; [vm_compute; reflexivity|]. split; [reflexivity|]. split; [reflexivity|].
  discriminate.
Qed.

(** ** Deleting and reading a post *)

Lemma render_scheduled_time_world lib clk r w :
  (render_scheduled_time lib clk r w).2 = w.
Proof.
  unfold render_scheduled_time. destruct (scheduled_time r) as [s|]; [|done].
  run. by destruct (to_cst lib clk (Some s)).
Qed.



Lemma delete_post_run post_id w :
  delete_post post_id w =
  match posts (db w) !! post_id with
  | None => (Raise (HTTPException 404 (Text "Post not found")), w)
  | Some _ => (Ok tt, {| db := {| posts := delete post_id (posts (db w));
                                  last_rowid := last_rowid (db w) |};
                         trace := trace w |})
  end.
Proof. unfold delete_post. run_db. by destruct (posts (db w) !! post_id). Qed.



(** ** Drafts *)

Lemma create_draft_run lib clk req w :
  let post_id := (last_rowid (db w) + 1)%Z in
  let row := new_draft lib clk req in
  let w' := {| db := {| posts := <[post_id := row]> (posts (db w));
                        last_rowid := post_id |};
               trace := trace w |} in
  create_draft lib clk req w =
  (match (render_scheduled_time lib clk row w').1 with
   | Ok r' => Ok (post_id, r')
   | Raise e => Raise e
   end, w').
Proof.
  intros post_id row w'. unfold create_draft. run_db. cbn. rewrite lookup_insert_eq. cbn.
  fold post_id. fold (new_draft lib clk req). fold row. fold w'.
  pose proof (render_scheduled_time_world lib clk row w') as Hw.
  destruct (render_scheduled_time lib clk row w') as [[r'|e] w'']; cbn in Hw; by subst.
Qed.

(** X2. POST /drafts/ stores a row whatever the request holds: there is no
    check of the scheduled time, absent content and image become the empty
    text, the row is a draft, and the four target flags are the table's
    defaults (twitter on, the others off) whatever the request asked for.
    Existing rows are untouched, no collaborator is called, and the sweep's
    query never returns the new row. A request without scheduled time is
    answered with the stored row and the placeholder time. *)
Theorem create_draft_stores_defaults
    (lib : timelib) (clk : clock) (req : PostCreate.t) (w : world) :
  let post_id := (last_rowid (db w) + 1)%Z in
  let row := new_draft lib clk req in
  (create_draft lib clk req w).2 =
    {| db := {| posts := <[post_id := row]> (posts (db w)); last_rowid := post_id |};
       trace := trace w |}
  ∧ is_draft row = true ∧ is_published row = false ∧ is_canceled row = false
  ∧ content row = Some (default "" (PostCreate.content req))
  ∧ image_url row = Some (default "" (PostCreate.image_url req))
  ∧ scheduled_time row = scheduled_iso lib (PostCreate.scheduled_time req)
  ∧ (publish_to_twitter row, publish_to_instagram row,
     publish_to_facebook row, publish_to_pinterest row)
    = (Some true, Some false, Some false, Some false)
  ∧ (∀ now, selected (where_due now row) = false)
  ∧ (PostCreate.scheduled_time req = None →
     (create_draft lib clk req w).1 =
       Ok (post_id, with_scheduled_time (Some (default_time lib clk)) row)).
Proof.
  intros post_id row.
  pose proof (create_draft_run lib clk req w) as Hrun. cbn zeta in Hrun.
  fold post_id row in Hrun.
  rewrite Hrun. split; [done|]. repeat (split; [reflexivity|]).
  split.
  - intros now. unfold where_due. cbn.
    by destruct (sql_le _ _) as [[]|].
  - intros Hnone. cbn. unfold render_scheduled_time.
    assert (scheduled_time row = None) as ->; [|done].
    subst row. cbn. by rewrite Hnone.
Qed.

(** ** What the sweep leaves alone *)

Lemma due_ids d now k r :
  posts d !! k = Some r →
  k ∈ (select_due d now).*1 ↔ selected (where_due now r) = true.
Proof.
  intros Hk. rewrite list_elem_of_fmap. split.
  - intros ([k' r'] & -> & Hin). apply elem_of_select_due in Hin as [Hk' ?].
    cbn in *. congruence.
  - intros Hsel. exists (k, r). split; [done|]. by apply elem_of_select_due.
Qed.

Lemma publish_due_tweets_lookup lib self clk w k :
  posts (db (publish_due_tweets lib self clk w).2) !! k =
  (λ r, if selected (where_due (isoformat lib (now_chicago lib clk)) r)
        then set_published (current_timestamp clk) None None None None r
        else r) <$> posts (db w) !! k.
Proof.
  rewrite publish_due_tweets_run. cbn. rewrite sweep_posts_lookup.
  destruct (posts (db w) !! k) as [r|] eqn:Hk; [|by case_bool_decide].
  cbn. destruct (selected (where_due _ r)) eqn:Hsel.
  - rewrite bool_decide_eq_true_2; [done|]. by eapply due_ids.
  - rewrite bool_decide_eq_false_2; [done|].
    rewrite (due_ids _ _ _ r Hk). congruence.
Qed.

Lemma publish_due_tweets_rowid lib self clk w :
  last_rowid (db (publish_due_tweets lib self clk w).2) = last_rowid (db w).
Proof. by rewrite publish_due_tweets_run. Qed.



(** ** Cancelling and the sweep *)

(** X4. Once POST /posts/{id}/cancel has succeeded, the sweep's query does
    not return the post for any [now], and a sweep leaves it as the cancel
    left it. After DELETE /posts/{id}/cancel the query returns the post
    exactly when it is neither a draft nor published and has a scheduled
    time whose stored text is at most the text of [now], in the byte-wise
    text order of the store, whether or not it was canceled before. *)
Theorem canceled_post_is_skipped
    (clk1 clk2 : clock) (w : world) (post_id : Z) (p : Post)
    (Hrow : posts (db w) !! post_id = Some p) :
  let w1 := (cancel_post clk1 post_id w).2 in
  let w2 := (uncancel_post clk2 post_id w1).2 in
  (∀ now r, (post_id, r) ∉ select_due (db w1) now)
  ∧ (∀ lib self clk,
       posts (db (publish_due_tweets lib self clk w1).2) !! post_id =
       Some (set_canceled true (current_timestamp clk1) p))
  ∧ (∀ now,
       (∃ r, (post_id, r) ∈ select_due (db w2) now) ↔
       is_draft p = false ∧ is_published p = false
       ∧ ∃ t, scheduled_time p = Some t ∧ text_le t now).
Proof.
  intros w1 w2. subst w2 w1.
  rewrite (cancel_post_run _ _ p) by done. cbn.
  assert (H1 : alter (set_canceled true (current_timestamp clk1)) post_id (posts (db w))
               !! post_id = Some (set_canceled true (current_timestamp clk1) p)).
  { by rewrite lookup_alter_eq, Hrow. }
  split; [|split].
  - intros now r Hin. apply elem_of_select_due in Hin as [Hk Hsel]. cbn in Hk.
    rewrite H1 in Hk. injection Hk as <-.
    apply selected_where_due in Hsel as (_ & _ & ? & _). done.
  - intros lib self clk. rewrite publish_due_tweets_lookup. cbn. rewrite H1. cbn.
    destruct (selected _) eqn:Hsel; [|done].
    apply selected_where_due in Hsel as (_ & _ & ? & _). done.
  - intros now.
    rewrite (uncancel_post_run _ _ (set_canceled true (current_timestamp clk1) p))
      by exact H1.
    cbn. split.
    + intros [r Hin]. apply elem_of_select_due in Hin as [Hk Hsel]. cbn in Hk.
      rewrite lookup_alter_eq, H1 in Hk. injection Hk as <-.
      apply selected_where_due in Hsel as (? & ? & _ & ?). done.
    + intros (Hd & Hp & Ht). eexists. apply elem_of_select_due. split.
      * cbn. rewrite lookup_alter_eq, H1. reflexivity.
      * apply selected_where_due. done.
Qed.

Lemma canceled_post_is_skipped_witness :
  posts (db Sample.store) !! 1 = Some Sample.due_row
  ∧ posts (db (publish_due_tweets Sample.lib Sample.poster Sample.one_pm
                 (cancel_post Sample.noon 1 Sample.store).2).2) !! 1
    = Some (set_canceled true (current_timestamp Sample.noon) Sample.due_row).
Proof.
  split; [reflexivity|].
  exact (proj1 (proj2 (canceled_post_is_skipped Sample.noon Sample.one_pm Sample.store 1
                         Sample.due_row eq_refl))
           Sample.lib Sample.poster Sample.one_pm).
Defined.

(** ** Updating a post *)

Lemma update_post_missing lib clk post_id req w :
  posts (db w) !! post_id = None →
  update_post lib clk post_id req w =
  (Raise (HTTPException 404 (Text "Post not found")), w).
Proof. intros H. unfold update_post. run_db. by rewrite H. Qed.



(** ** Failures of publish-now *)

Lemma publish_post_missing lib self clk post_id w :
  posts (db w) !! post_id = None →
  publish_post lib self clk post_id w =
  (Raise (HTTPException 500
            (FailedToPublishPost (HTTPException 404 (Text "Post not found")))), w).
Proof. intros H. unfold publish_post. run_db. by rewrite H. Qed.

Lemma publish_post_raise_world lib self clk post_id w e :
  (publish_post lib self clk post_id w).1 = Raise e →
  (publish_post lib self clk post_id w).2 = w.
Proof.
  intros Hfail.
  destruct (posts (db w) !! post_id) as [p|] eqn:Hp.
  2: { by rewrite publish_post_missing. }
  destruct (is_published p) eqn:Hpub.
  { by rewrite (publish_post_already_published _ _ _ _ p). }
  destruct (is_draft p) eqn:Hdraft.
  { rewrite (publish_post_run _ _ _ _ p) in Hfail by auto. discriminate. }
  destruct (verify_time lib clk p w) as [[[]|e'] w1] eqn:Hv.
  - rewrite (publish_post_run _ _ _ _ p) in Hfail; [discriminate|done|done|].
    right. by rewrite Hv.
  - rewrite (publish_post_refused_by_time _ _ _ _ p _ e'); [done..|].
    by rewrite Hv.
Qed.



(** ** Rendering a stored time *)

Lemma fromutc_consistent lib u w2 f2 :
  fromutc (chicago lib) u = (w2, f2) →
  zone_consistent_at (chicago lib) u →
  to_utc lib {| wall := w2; fold := f2; tz := Some Chicago |} = u.
Proof. unfold zone_consistent_at. intros ->. done. Qed.

(** X7. [to_cst] on a stored time stamp. A text the library cannot parse
    raises ValueError. A stamp without offset keeps its calendar reading
    and gets the Chicago offset. A stamp with an offset is converted: the
    result is a Chicago time for the same instant (where the zone data are
    consistent at that instant), and rendering the result once more gives
    the same text (where the library parses back what it printed). *)
Theorem to_cst_normalises
    (lib : timelib) (clk : clock) (s : string) :
  (parse_iso lib s = None → to_cst lib clk (Some s) = Raise ValueError)
  ∧ (∀ w0, parse_iso lib s = Some (w0, None) →
       to_cst lib clk (Some s) =
       Ok (format_iso lib w0 (Some (utcoffset_at (chicago lib) w0 false))))
  ∧ (∀ w0 o w2 f2,
       parse_iso lib s = Some (w0, Some o) →
       fromutc (chicago lib) (w0 - o) = (w2, f2) →
       let back := {| wall := w2; fold := f2; tz := Some Chicago |} in
       to_cst lib clk (Some s) = Ok (isoformat lib back)
       ∧ (zone_consistent_at (chicago lib) (w0 - o) →
          to_utc lib back = (w0 - o)%Z
          ∧ (stamp_round_trips lib back →
             to_cst lib clk (Some (isoformat lib back)) = Ok (isoformat lib back)))).
Proof.
  split; [|split].
  - intros H. unfold to_cst, fromisoformat. by rewrite H.
  - intros w0 H. unfold to_cst, fromisoformat. rewrite H. reflexivity.
  - intros w0 o w2 f2 H Hfrom back. subst back.
    split.
    { unfold to_cst, fromisoformat. rewrite H. cbn.
      unfold astimezone_chicago. cbn. unfold to_utc, utcoffset. cbn.
      by rewrite Hfrom. }
    intros Hz. pose proof (fromutc_consistent lib _ _ _ Hfrom Hz) as Hback.
    split; [exact Hback|]. intros Hrt.
    rewrite to_cst_of_printed by done. by rewrite Hback, Hfrom.
Qed.

Lemma to_cst_normalises_witness :
  let back := {| wall := Sample.jan_1_2030 6; fold := false; tz := Some Chicago |} in
  to_cst Sample.lib Sample.noon (Some "2030-01-01T12:00:00+00:00")
  = Ok "2030-01-01T06:00:00-06:00"
  ∧ to_utc Sample.lib back = Sample.jan_1_2030 12
  ∧ to_cst Sample.lib Sample.noon (Some "2030-01-01T06:00:00-06:00")
    = Ok "2030-01-01T06:00:00-06:00".
Proof.
  cbv zeta.
  destruct (proj2 (proj2 (to_cst_normalises Sample.lib Sample.noon
                            "2030-01-01T12:00:00+00:00"))
              (Sample.jan_1_2030 12) 0 (Sample.jan_1_2030 6) false eq_refl eq_refl)
    as [H1 H2].
  destruct (H2 eq_refl) as [H3 H4].
  exact (conj H1 (conj H3 (H4 eq_refl))).
Defined.

(** ** Promoting a draft to the schedule *)




Local Opaque to_cst.


Lemma schedule_post_missing lib clk post_id data w :
  posts (db w) !! post_id = None →
  schedule_post lib clk post_id data w =
  (Raise (HTTPException 404 (Text "Post not found")), w).
Proof. intros H. unfold schedule_post. run_db. by rewrite H. Qed.




Local Transparent to_cst.


(** ** Invariants of the application *)

Lemma database_eta d : {| posts := posts d; last_rowid := last_rowid d |} = d.
Proof. by destruct d. Qed.

Lemma row_edit_update_post c i s ts tw ig fb pn r :
  row_edit r (set_update_post c i s ts tw ig fb pn r).
Proof. by repeat split. Qed.

Lemma row_edit_update_draft c i s ts r : row_edit r (set_update_draft c i s ts r).
Proof. by repeat split. Qed.

Lemma row_edit_canceled b ts r : row_edit r (set_canceled b ts r).
Proof. by repeat split. Qed.

Lemma row_edit_scheduled s ts r : row_edit r (set_scheduled s ts r).
Proof. by repeat split. Qed.

Lemma row_edit_not_draft r : row_edit r (set_not_draft r).
Proof. by repeat split. Qed.

Lemma map_M_world {A B} (f : A → M B) xs w :
  (∀ x w0, (f x w0).2 = w0) → (map_M f xs w).2 = w.
Proof.
  intros Hf. revert w. induction xs as [|x xs IH]; intros w; [done|].
  cbn [map_M]. run. specialize (Hf x w).
  destruct (f x w) as [[y|e] w1]; cbn in Hf; subst; [|done].
  specialize (IH w). by destruct (map_M f xs w) as [[ys|e] w2].
Qed.

Lemma render_row_world lib clk kr w : (render_row lib clk kr w).2 = w.
Proof.
  unfold render_row. run.
  pose proof (render_scheduled_time_world lib clk kr.2 w) as H.
  by destruct (render_scheduled_time lib clk kr.2 w) as [[r|e] w1].
Qed.

Lemma get_scheduled_posts_world lib clk skip limit inc w :
  (get_scheduled_posts lib clk skip limit inc w).2 = w.
Proof.
  unfold get_scheduled_posts. run.
  pose proof (map_M_world (render_row lib clk)
                (select_scheduled (db w) inc limit skip) w (render_row_world lib clk)) as H.
  by destruct (map_M _ _ w) as [[ys|e] w1].
Qed.

Lemma get_drafts_world lib clk skip limit w :
  (get_drafts lib clk skip limit w).2 = w.
Proof.
  unfold get_drafts. run.
  pose proof (map_M_world (render_row lib clk)
                (select_drafts (db w) limit skip) w (render_row_world lib clk)) as H.
  by destruct (map_M _ _ w) as [[ys|e] w1].
Qed.

Lemma get_post_world lib clk post_id w : (get_post lib clk post_id w).2 = w.
Proof.
  unfold get_post. run_db. destruct (posts (db w) !! post_id) as [p|]; [|done].
  apply render_scheduled_time_world.
Qed.

Lemma create_scheduled_post_world lib bot clk req w :
  (create_scheduled_post lib bot clk req w).2 = w
  ∨ ∃ r, is_published r = false
         ∧ (create_scheduled_post lib bot clk req w).2 =
           {| db := {| posts := <[(last_rowid (db w) + 1)%Z := r]> (posts (db w));
                       last_rowid := (last_rowid (db w) + 1)%Z |};
              trace := trace w |}.
Proof.
  unfold create_scheduled_post.
  destruct (PostCreate.scheduled_time req) as [st|]; [|by left].
  unfold mbind at 1, M_bind at 1, bind at 1, lift at 1.
  rewrite datetime_le_chicago. case_bool_decide; [by left|].
  destruct (nonempty (PostCreate.content req)).
  - right. eexists (new_row lib clk req st (PostCreate.content req)).
    split; [done|]. unfold generate_post_text. run_db. cbn.
    rewrite lookup_insert_eq. cbn. by destruct (fromisoformat lib _).
  - destruct bot as [g|e]; [|by left].
    right. eexists (new_row lib clk req st (Some (tweet_text g))).
    split; [done|]. unfold generate_post_text. run_db. cbn.
    rewrite lookup_insert_eq. cbn. by destruct (fromisoformat lib _).
Qed.

Lemma update_draft_missing lib clk post_id req w :
  posts (db w) !! post_id = None → (update_draft lib clk post_id req w).2 = w.
Proof. intros H. unfold update_draft. run_db. by rewrite H. Qed.

Lemma publish_post_world lib self clk post_id w :
  (publish_post lib self clk post_id w).2 = w
  ∨ ∃ p, posts (db w) !! post_id = Some p ∧ is_published p = false
         ∧ (publish_post lib self clk post_id w).2 =
           {| db := {| posts := published_by clk post_id
                                  (if is_draft p
                                   then alter set_not_draft post_id (posts (db w))
                                   else posts (db w));
                       last_rowid := last_rowid (db w) |};
              trace := trace w ++ [EvFanOut (content p) (image_url p) (platforms_of p)] |}.
Proof.
  destruct (publish_post lib self clk post_id w) as [[res|e] w1] eqn:Hrun.
  2: { left. pose proof (publish_post_raise_world lib self clk post_id w e) as H.
       rewrite Hrun in H. by apply H. }
  destruct (posts (db w) !! post_id) as [p|] eqn:Hp.
  2: { by rewrite publish_post_missing in Hrun. }
  destruct (is_published p) eqn:Hpub.
  { by rewrite (publish_post_already_published _ _ _ _ p) in Hrun. }
  right. exists p. split; [done|]. split; [done|].
  destruct (is_draft p) eqn:Hdraft.
  { rewrite (publish_post_run _ _ _ _ p) in Hrun by auto.
    injection Hrun as _ <-. by rewrite Hdraft. }
  destruct (verify_time lib clk p w) as [[[]|e'] w2] eqn:Hv.
  - rewrite (publish_post_run _ _ _ _ p) in Hrun; [|done|done|right; by rewrite Hv].
    injection Hrun as _ <-. by rewrite Hdraft.
  - rewrite (publish_post_refused_by_time _ _ _ _ p _ e') in Hrun; [done..|].
    by rewrite Hv.
Qed.

(** The table after any one route, the scheduler's job apart. *)
Lemma route_changes lib c w :
  call_request c ≠ PublishDueTweets →
  rtc change (db w) (db (serve lib c w)).
Proof.
  intros Hreq. unfold serve. destruct (call_request c) as
    [req|skip limit inc|k|k req|k|k|k|k|skip limit|req|k req|k data|]; [..|done].
  - destruct (create_scheduled_post_world lib (call_bot c) (call_clock c) req w)
      as [->|(r & Hr & ->)]; [done|]. apply rtc_once. by constructor.
  - by rewrite get_scheduled_posts_world.
  - by rewrite get_post_world.
  - destruct (posts (db w) !! k) as [p|] eqn:Hp.
    + rewrite (update_post_world _ _ _ _ p) by done. apply rtc_once. cbn.
      constructor. intros r. apply row_edit_update_post.
    + by rewrite update_post_missing.
  - destruct (publish_post_world lib (call_poster c) (call_clock c) k w)
      as [->|(p & Hp & Hpub & ->)]; [done|]. cbn. unfold published_by.
    destruct (is_draft p) eqn:Hdraft.
    + set (d1 := {| posts := alter set_not_draft k (posts (db w));
                    last_rowid := last_rowid (db w) |}).
      apply (rtc_l _ _ d1); [apply (change_edit _ k set_not_draft), row_edit_not_draft|].
      apply rtc_once.
      assert (Hd1 : posts d1 !! k = Some (set_not_draft p)).
      { cbn. by rewrite lookup_alter_eq, Hp. }
      exact (change_publish d1 k (set_not_draft p) _ None None None None
               Hd1 Hpub eq_refl).
    + apply rtc_once. by apply (change_publish _ k p).
  - rewrite delete_post_run. destruct (posts (db w) !! k) as [p|] eqn:Hp; [|done].
    cbn. apply rtc_once. constructor.
  - destruct (posts (db w) !! k) as [p|] eqn:Hp.
    + rewrite (cancel_post_run _ _ p) by done. apply rtc_once. cbn.
      constructor. intros r. apply row_edit_canceled.
    + unfold cancel_post. run_db. by rewrite Hp.
  - destruct (posts (db w) !! k) as [p|] eqn:Hp.
    + rewrite (uncancel_post_run _ _ p) by done. apply rtc_once. cbn.
      constructor. intros r. apply row_edit_canceled.
    + unfold uncancel_post. run_db. by rewrite Hp.
  - by rewrite get_drafts_world.
  - rewrite create_draft_run.
    apply rtc_once. cbn. by constructor.
  - destruct (posts (db w) !! k) as [p|] eqn:Hp.
    + rewrite (update_draft_world _ _ _ _ p) by done. apply rtc_once. cbn.
      constructor. intros r. apply row_edit_update_draft.
    + by rewrite update_draft_missing.
  - destruct (posts (db w) !! k) as [p|] eqn:Hp.
    + destruct (schedule_post_world lib (call_clock c) k data p w Hp) as [->|[s ->]];
        [done|]. apply rtc_once. cbn. constructor. intros r. apply row_edit_scheduled.
    + by rewrite schedule_post_missing.
Qed.

Lemma change_consistent d d' : consistent d → change d d' → consistent d'.
Proof.
  intros [Hkeys Hrows] Hch. unfold consistent, keys_issued in *. destruct Hch as
    [|k f Hf|k r ts tw ig fb pn Hk Hpub Hdraft|r Hr|k]; [done|..]; split; cbn.
  - intros j. rewrite lookup_alter_is_Some. apply Hkeys.
  - intros j r'. rewrite lookup_alter. case_decide as Hjk.
    + subst j. destruct (posts d !! k) as [r|] eqn:Hk; [|done].
      intros [= <-] Hd. destruct (Hf r) as (Hp & _ & Hdr & _).
      rewrite Hp. eapply Hrows; eauto.
    + apply Hrows.
  - intros j. rewrite lookup_alter_is_Some. apply Hkeys.
  - intros j r'. rewrite lookup_alter. case_decide as Hjk.
    + subst j. rewrite Hk. intros [= <-]. cbn. congruence.
    + apply Hrows.
  - intros j. rewrite lookup_insert_is_Some. intros [<-|[_ Hj]]; [lia|].
    apply Hkeys in Hj. lia.
  - intros j r'. rewrite lookup_insert. case_decide as Hjk.
    + intros [= <-] _. done.
    + apply Hrows.
  - intros j. rewrite lookup_delete_is_Some. intros [_ Hj]. by apply Hkeys.
  - intros j r'. rewrite lookup_delete. case_decide; [done|]. apply Hrows.
Qed.

Lemma row_evolves_refl r : row_evolves r r.
Proof. by repeat split. Qed.

Lemma row_evolves_trans r1 r2 r3 :
  row_evolves r1 r2 → row_evolves r2 r3 → row_evolves r1 r3.
Proof.
  intros (Hp1 & Hd1 & Hc1 & He1) (Hp2 & Hd2 & Hc2 & He2).
  split; [|split; [|split]]; [| |congruence..].
  - intros Hpub. destruct (Hp1 Hpub) as [Hpub2 Hids2].
    destruct (Hp2 Hpub2) as [Hpub3 Hids3]. split; congruence.
  - intros Hnd. by apply Hd2, Hd1.
Qed.

Lemma evolves_refl d : evolves d d.
Proof. split; [lia|]. intros k r _ Hk. exists r. split; [done|apply row_evolves_refl]. Qed.

Lemma evolves_trans d1 d2 d3 : evolves d1 d2 → evolves d2 d3 → evolves d1 d3.
Proof.
  intros [Hl1 H1] [Hl2 H2]. split; [lia|].
  intros k r3 Hk Hk3. destruct (H2 k r3 ltac:(lia) Hk3) as (r2 & Hk2 & He2).
  destruct (H1 k r2 Hk Hk2) as (r1 & Hk1 & He1).
  exists r1. split; [done|]. by eapply row_evolves_trans.
Qed.

Lemma change_evolves d d' : change d d' → evolves d d'.
Proof.
  intros Hch. destruct Hch as
    [|k f Hf|k r ts tw ig fb pn Hk Hpub Hdraft|r Hr|k]; [apply evolves_refl|..];
    (split; cbn; [lia|]); intros j r' Hj.
  - rewrite lookup_alter. case_decide as Hjk.
    + subst j. destruct (posts d !! k) as [r|]; [|done]. intros [= <-].
      exists r. split; [done|]. destruct (Hf r) as (Hp & Hi & Hd & Hc & He).
      repeat split; try congruence.
      destruct (is_draft (f r)) eqn:Hfr; [|done]. intros. rewrite Hd in *; done.
    + intros ?. exists r'. split; [done|apply row_evolves_refl].
  - rewrite lookup_alter. case_decide as Hjk.
    + subst j. rewrite Hk. intros [= <-]. exists r. split; [done|].
      repeat split; cbn; congruence.
    + intros ?. exists r'. split; [done|apply row_evolves_refl].
  - rewrite lookup_insert_ne by lia.
    intros ?. exists r'. split; [done|apply row_evolves_refl].
  - rewrite lookup_delete. case_decide; [done|].
    intros ?. exists r'. split; [done|apply row_evolves_refl].
Qed.

Lemma sweep_consistent lib self clk w :
  consistent (db w) → consistent (db (publish_due_tweets lib self clk w).2).
Proof.
  intros [Hkeys Hrows].
  split.
  - intros k [r' Hk]. rewrite publish_due_tweets_rowid. apply Hkeys.
    rewrite publish_due_tweets_lookup in Hk.
    destruct (posts (db w) !! k) eqn:Hk0; [done|]. done.
  - intros k r' Hk Hd. rewrite publish_due_tweets_lookup in Hk.
    destruct (posts (db w) !! k) as [r|] eqn:Hk0; [|done].
    cbn in Hk. injection Hk as <-.
    destruct (selected _) eqn:Hsel; [|by eapply Hrows].
    apply selected_where_due in Hsel as (? & _). cbn in Hd. congruence.
Qed.

Lemma sweep_evolves lib self clk w :
  evolves (db w) (db (publish_due_tweets lib self clk w).2).
Proof.
  split; [rewrite publish_due_tweets_rowid; lia|]. intros k r' _ Hk.
  rewrite publish_due_tweets_lookup in Hk.
  destruct (posts (db w) !! k) as [r|] eqn:Hk0; [|done].
  cbn in Hk. injection Hk as <-. exists r. split; [done|].
  destruct (selected _) eqn:Hsel; [|apply row_evolves_refl].
  apply selected_where_due in Hsel as (? & ? & _).
  repeat split; cbn; congruence.
Qed.

Lemma sweep_or_route (q : request) : q = PublishDueTweets ∨ q ≠ PublishDueTweets.
Proof. destruct q; (by left) || (by right). Qed.

Lemma serve_consistent lib c w : consistent (db w) → consistent (db (serve lib c w)).
Proof.
  intros Hc. destruct (sweep_or_route (call_request c)) as [Hreq|Hreq].
  - unfold serve. rewrite Hreq. by apply sweep_consistent.
  - pose proof (route_changes lib c w Hreq) as Hch.
    induction Hch as [|d1 d2 d3 H12 _ IH]; [done|].
    apply IH. by eapply change_consistent.
Qed.

Lemma serve_evolves lib c w : evolves (db w) (db (serve lib c w)).
Proof.
  destruct (sweep_or_route (call_request c)) as [Hreq|Hreq].
  - unfold serve. rewrite Hreq. apply sweep_evolves.
  - pose proof (route_changes lib c w Hreq) as Hch.
    induction Hch as [|d1 d2 d3 H12 _ IH]; [apply evolves_refl|].
    eapply evolves_trans; [by apply change_evolves|done].
Qed.

(** X10. Served one call at a time, the application keeps its table
    consistent: if no row is a draft and published at once and every key is
    at most the AUTOINCREMENT counter, the same holds after any sequence of
    requests and scheduler runs, whatever the collaborators do. *)
Theorem serve_all_keeps_consistent
    (lib : timelib) (calls : list api_call) (w : world)
    (Hstart : consistent (db w)) :
  consistent (db (serve_all lib calls w)).
Proof.
  revert w Hstart. induction calls as [|c calls IH]; intros w Hstart; [done|].
  cbn. apply IH. by apply serve_consistent.
Qed.

(** X11. Across any sequence of requests and scheduler runs: the
    AUTOINCREMENT counter never goes back; a key that has been issued and
    whose row is gone is never given to another row; and a row that is still
    there has the created_at and engagement_score it had, is still
    published with the same four platform ids if it was published, and has
    not become a draft if it was not one. *)
Theorem serve_all_history
    (lib : timelib) (calls : list api_call) (w : world) :
  let w' := serve_all lib calls w in
  (last_rowid (db w) ≤ last_rowid (db w'))%Z
  ∧ (∀ k, (k ≤ last_rowid (db w))%Z → posts (db w) !! k = None →
       posts (db w') !! k = None)
  ∧ (∀ k r', (k ≤ last_rowid (db w))%Z → posts (db w') !! k = Some r' →
       ∃ r, posts (db w) !! k = Some r
            ∧ created_at r' = created_at r
            ∧ engagement_score r' = engagement_score r
            ∧ (is_published r = true →
               is_published r' = true ∧ post_ids r' = post_ids r)
            ∧ (is_draft r = false → is_draft r' = false)).
Proof.
  assert (Hev : evolves (db w) (db (serve_all lib calls w))).
  { revert w. induction calls as [|c calls IH]; intros w; [apply evolves_refl|].
    cbn. eapply evolves_trans; [apply serve_evolves|apply IH]. }
  destruct Hev as [Hl Hrows]. cbn. split; [done|]. split.
  - intros k Hk Hnone. destruct (posts (db (serve_all lib calls w)) !! k) as [r'|] eqn:Hk';
      [|done].
    destruct (Hrows k r' Hk Hk') as (r & Hr & _). congruence.
  - intros k r' Hk Hk'. destruct (Hrows k r' Hk Hk') as (r & Hr & Hp & Hd & Hc & He).
    exists r. done.
Qed.

Lemma sample_store_consistent : consistent (db Sample.store).
Proof.
  split.
  - intros k [r Hk]. apply elem_of_map_to_list in Hk.
    let rows := eval vm_compute in (map_to_list (posts (db Sample.store))) in
    change (map_to_list (posts (db Sample.store))) with rows in Hk.
    repeat (apply elem_of_cons in Hk as [Heq|Hk];
            [injection Heq as -> ->; vm_compute; discriminate|]).
    by apply elem_of_nil in Hk.
  - intros k r Hk. apply elem_of_map_to_list in Hk.
    let rows := eval vm_compute in (map_to_list (posts (db Sample.store))) in
    change (map_to_list (posts (db Sample.store))) with rows in Hk.
    repeat (apply elem_of_cons in Hk as [Heq|Hk];
            [injection Heq as -> ->; vm_compute; done|]).
    by apply elem_of_nil in Hk.
Defined.

Lemma serve_all_keeps_consistent_witness :
  consistent (db Sample.store)
  ∧ consistent (db (serve_all Sample.lib sample_calls Sample.store)).
Proof.
  split; [exact sample_store_consistent|].
  exact (serve_all_keeps_consistent Sample.lib sample_calls Sample.store
           sample_store_consistent).
Defined.

(** ** The listings *)

Lemma order_le_total a b : order_le a b = true ∨ order_le b a = true.
Proof.
  destruct a as [|x|s], b as [|y|t]; cbn; auto.
  - destruct (Z.leb_spec x y); [by left|right]. apply Z.leb_le. lia.
  - apply String.leb_total.
Qed.

Lemma by_scheduled_time_total : Total by_scheduled_time.
Proof. intros a b. apply order_le_total. Qed.

Lemma by_updated_at_desc_total : Total by_updated_at_desc.
Proof. intros a b. apply order_le_total. Qed.

#[local] Existing Instances by_scheduled_time_total by_updated_at_desc_total.









Example select_scheduled_keeps_scan_order :
  (select_scheduled
     {| posts := {[ 1 := Sample.due_row; 2 := Sample.due_row;
                    3 := Sample.due_row; 4 := Sample.due_row ]};
        last_rowid := 4 |} false 2 0).*1 = [1; 2]%Z
  ∧ (select_drafts
       {| posts := {[ 1 := Sample.draft_row; 2 := Sample.draft_row;
                      3 := Sample.draft_row; 4 := Sample.draft_row ]};
          last_rowid := 4 |} 2 0).*1 = [1; 2]%Z.
Proof. by vm_compute. Qed.



(** ** Choosing an image *)

Lemma key_lt_spec a b :
  key_lt a b = true ↔ (a.1 < b.1 ∨ (a.1 = b.1 ∧ a.2 < b.2))%Z.
Proof.
  unfold key_lt. rewrite orb_true_iff, andb_true_iff, !Z.ltb_lt, Z.eqb_eq. tauto.
Qed.

Lemma at_least_as_good_spec x y :
  at_least_as_good x y ↔ key_lt (match_key y) (match_key x) = false.
Proof.
  rewrite <- not_true_iff_false, key_lt_spec. unfold at_least_as_good, match_key. cbn.
  split; [lia|]. intros H.
  destruct (Z.lt_trichotomy (score y) (score x)) as [?|[?|?]]; [by left| |lia].
  right. split; [done|]. lia.
Qed.

Lemma at_least_as_good_trans x y z :
  at_least_as_good x y → at_least_as_good y z → at_least_as_good x z.
Proof. unfold at_least_as_good. lia. Qed.

(** [sorted(xs, key=...)[0]]: the first of the best. *)
Lemma sorted_by_key_head xs :
  xs ≠ [] →
  ∃ best rest pre post,
    sorted_by_key xs = best :: rest
    ∧ xs = pre ++ best :: post
    ∧ (∀ y, y ∈ pre → ¬ at_least_as_good y best)
    ∧ (∀ y, y ∈ post → at_least_as_good best y).
Proof.
  induction xs as [|x xs IH]; [done|]. intros _.
  destruct xs as [|x' xs'].
  { exists x, [], [], []. repeat split; intros y Hy; by apply elem_of_nil in Hy. }
  destruct IH as (b & rest & pre & post & Hsort & Hxs & Hpre & Hpost); [done|].
  change (sorted_by_key (x :: x' :: xs'))
    with (insert_by_key x (sorted_by_key (x' :: xs'))).
  rewrite Hsort, Hxs. cbn [insert_by_key].
  destruct (key_lt (match_key b) (match_key x)) eqn:Hlt.
  - exists b, (insert_by_key x rest), (x :: pre), post.
    split; [done|]. split; [done|]. split; [|done].
    intros y [->|Hy]%elem_of_cons; [|by apply Hpre].
    rewrite at_least_as_good_spec. congruence.
  - exists x, (b :: rest), [], (pre ++ b :: post).
    apply at_least_as_good_spec in Hlt.
    split; [done|]. split; [done|].
    split; [intros y Hy; by apply elem_of_nil in Hy|].
    intros y [Hy|[->|Hy]%elem_of_cons]%elem_of_app.
    + specialize (Hpre y Hy). unfold at_least_as_good in *. lia.
    + done.
    + eapply at_least_as_good_trans; [done|]. by apply Hpost.
Qed.

Lemma evaluate_queries_world ev t qs acc w :
  (evaluate_queries ev t qs acc w).2 = w.
Proof.
  revert acc. induction qs as [|q qs IH]; intros acc; [done|].
  cbn [evaluate_queries]. run.
  destruct (Evaluator.get_top_4_image_urls ev q) as [urls|e]; [|done].
  destruct (Evaluator.evaluate_images_in_parallel ev t urls) as [rs|e]; [|done].
  apply IH.
Qed.

Lemma evaluate_queries_rated ev t qs acc all w :
  rated ev t qs = Some all →
  evaluate_queries ev t qs acc w = (Ok (acc ++ all), w).
Proof.
  revert acc all. induction qs as [|q qs IH]; intros acc all.
  { intros [= <-]. cbn. unfold ret. by rewrite app_nil_r. }
  cbn [evaluate_queries rated]. run.
  destruct (Evaluator.get_top_4_image_urls ev q) as [urls|e]; [|done].
  destruct (Evaluator.evaluate_images_in_parallel ev t urls) as [rs|e]; [|done].
  destruct (rated ev t qs) as [l|] eqn:Hl; [|done]. intros [= <-].
  rewrite (IH (acc ++ rs) l) by done. by rewrite <- app_assoc.
Qed.

(** X13. POST /generate/image changes nothing in the store, and whenever
    it fails it fails with status 500: its own 404 'No suitable images
    found' and 400 'No images met quality threshold' are raised inside the
    try block and come out wrapped, like every exception of the
    evaluator. *)
Theorem generate_post_image_fails_with_500
    (image_evaluator : Evaluator.t) (tweet_text : string) (w : world) :
  (generate_post_image image_evaluator tweet_text w).2 = w
  ∧ (∀ e, (generate_post_image image_evaluator tweet_text w).1 = Raise e →
       ∃ cause, e = HTTPException 500 (StrOf cause))
  ∧ (∀ queries,
       Evaluator.generate_search_queries image_evaluator tweet_text = Ok queries →
       rated image_evaluator tweet_text queries = Some [] →
       (generate_post_image image_evaluator tweet_text w).1 =
       Raise (HTTPException 500
                (StrOf (HTTPException 404 (Text "No suitable images found")))))
  ∧ (∀ queries all,
       Evaluator.generate_search_queries image_evaluator tweet_text = Ok queries →
       rated image_evaluator tweet_text queries = Some all → all ≠ [] →
       (∀ x, x ∈ all → (score x < 7)%Z) →
       (generate_post_image image_evaluator tweet_text w).1 =
       Raise (HTTPException 500
                (StrOf (HTTPException 400 (Text "No images met quality threshold"))))).
Proof.
  split; [|split; [|split]].
  - unfold generate_post_image. run.
    destruct (Evaluator.generate_search_queries _ _) as [qs|e]; [|done].
    pose proof (evaluate_queries_world image_evaluator tweet_text qs [] w) as Hw.
    destruct (evaluate_queries _ _ qs [] w) as [[all|e] w1]; cbn in Hw; subst; [|done].
    destruct all as [|x all]; [done|].
    destruct (sorted_by_key (x :: all)) as [|b rest]; [done|].
    by destruct (score b <? 7)%Z.
  - intros e. unfold generate_post_image, try_except.
    match goal with |- context [match ?b with _ => _ end] =>
      destruct b as [[r|e'] w'] end; [discriminate|].
    cbn. intros [= <-]. eauto.
  - intros qs Hq Hr. unfold generate_post_image. run. rewrite Hq.
    by rewrite (evaluate_queries_rated _ _ _ [] []).
  - intros qs all Hq Hr Hne Hlow. unfold generate_post_image. run. rewrite Hq.
    rewrite (evaluate_queries_rated _ _ _ [] all) by done. cbn -[sorted_by_key].
    destruct (sorted_by_key_head all Hne) as (b & rest & pre & post & Hs & Hall & _).
    destruct all as [|x all']; [done|]. rewrite Hs.
    assert (score b < 7)%Z as Hb.
    { apply Hlow. rewrite Hall. apply elem_of_app. right. by left. }
    apply Z.ltb_lt in Hb. by rewrite Hb.
Qed.

(** X14. When the evaluator answers every call and some rated image
    scores 7 or more, POST /generate/image succeeds and returns the first,
    in the order the ratings came in, of the best ones: its score is at
    least 7, no rating before it is as good (as high a score and, at equal
    score, an explanation of as few characters), and it is at least as
    good as every rating after it. The length of an explanation is its
    number of code points, as [len] counts it. *)
Theorem generate_post_image_picks_first_best
    (image_evaluator : Evaluator.t) (tweet_text : string) (w : world)
    (queries : list string) (all : list rating) (x : rating)
    (Hqueries : Evaluator.generate_search_queries image_evaluator tweet_text = Ok queries)
    (Hrated : rated image_evaluator tweet_text queries = Some all)
    (Hx : x ∈ all) (Hgood : (7 ≤ score x)%Z) :
  ∃ best pre post,
    generate_post_image image_evaluator tweet_text w = (Ok best, w)
    ∧ all = pre ++ best :: post
    ∧ (7 ≤ score best)%Z
    ∧ (∀ y, y ∈ all → (score y ≤ score best)%Z)
    ∧ (∀ y, y ∈ pre → ¬ at_least_as_good y best)
    ∧ (∀ y, y ∈ post → at_least_as_good best y).
Proof.
  assert (Hne : all ≠ []) by (intros ->; by apply elem_of_nil in Hx).
  destruct (sorted_by_key_head all Hne) as (b & rest & pre & post & Hs & Hall & Hpre & Hpost).
  assert (Hmax : ∀ y, y ∈ all → (score y ≤ score b)%Z).
  { intros y. rewrite Hall. intros [Hy|[->|Hy]%elem_of_cons]%elem_of_app.
    - specialize (Hpre y Hy). unfold at_least_as_good in Hpre. lia.
    - lia.
    - specialize (Hpost y Hy). unfold at_least_as_good in Hpost. lia. }
  exists b, pre, post. split.
  { unfold generate_post_image. run. rewrite Hqueries.
    rewrite (evaluate_queries_rated _ _ _ [] all) by done. cbn -[sorted_by_key].
    destruct all as [|x0 all']; [done|]. rewrite Hs.
    specialize (Hmax x Hx).
    destruct (Z.ltb_spec (score b) 7); [lia|done]. }
  split; [done|]. split; [specialize (Hmax x Hx); lia|]. done.
Qed.

Lemma generate_post_image_picks_first_best_witness :
  ∃ best pre post,
    generate_post_image SampleImages.evaluator "Soup and fresh bread" Sample.store
    = (Ok best, Sample.store)
    ∧ [SampleImages.soup; SampleImages.loaf; SampleImages.bread] = pre ++ best :: post
    ∧ (7 ≤ score best)%Z
    ∧ (∀ y, y ∈ [SampleImages.soup; SampleImages.loaf; SampleImages.bread] →
         (score y ≤ score best)%Z)
    ∧ (∀ y, y ∈ pre → ¬ at_least_as_good y best)
    ∧ (∀ y, y ∈ post → at_least_as_good best y).
Proof.
  apply (generate_post_image_picks_first_best SampleImages.evaluator
           "Soup and fresh bread" Sample.store ["soup"; "bread"]
           [SampleImages.soup; SampleImages.loaf; SampleImages.bread] SampleImages.soup).
  - reflexivity.
  - vm_compute. reflexivity.
  - left.
  - vm_compute. discriminate.
Defined.

(** The explanations are measured in code points: of the two images with
    score 9 the second, whose explanation has as many bytes and fewer
    characters, is the one returned. *)
Example generate_post_image_counts_characters :
  (String.length (explanation SampleImages.loaf),
   String.length (explanation SampleImages.bread)) = (7, 7)%nat
  ∧ (len (explanation SampleImages.loaf), len (explanation SampleImages.bread)) = (7, 6)%nat
  ∧ generate_post_image SampleImages.evaluator "Soup and fresh bread" Sample.store
    = (Ok SampleImages.bread, Sample.store).
Proof. by vm_compute. Qed.

(** ** Searching for images *)

Lemma is_image_url_used_spec d url :
  is_image_url_used d url = true ↔ ∃ k p, posts d !! k = Some p ∧ image_url p = Some url.
Proof.
  unfold is_image_url_used. cbn zeta. rewrite bool_decide_eq_true.
  split.
  - intros Hlen.
    destruct (filter _ (map_to_list (posts d))) as [|[k p] rest] eqn:Hf; [cbn in Hlen; lia|].
    assert (Hin : (k, p) ∈ filter (λ kr : Z * Post,
                     selected (sql_eq (sql_of_text (image_url kr.2)) (SqlText url)) = true)
                     (map_to_list (posts d))) by (rewrite Hf; left).
    apply list_elem_of_filter in Hin as [Hsel Hin]. apply elem_of_map_to_list in Hin.
    exists k, p. split; [done|]. cbn in Hsel.
    destruct (image_url p) as [u|]; [|done]. cbn in Hsel.
    destruct (String.eqb u url) eqn:Heq; [|done]. apply String.eqb_eq in Heq. by subst.
  - intros (k & p & Hk & Hu).
    assert (Hin : (k, p) ∈ filter (λ kr : Z * Post,
                     selected (sql_eq (sql_of_text (image_url kr.2)) (SqlText url)) = true)
                     (map_to_list (posts d))).
    { apply list_elem_of_filter. split; [|by apply elem_of_map_to_list].
      cbn. rewrite Hu. cbn. by rewrite String.eqb_refl. }
    destruct (filter _ (map_to_list (posts d))); [by apply elem_of_nil in Hin|cbn; lia].
Qed.

Lemma collect_image_urls_take lower d images image_urls :
  (length image_urls < 4)%nat →
  collect_image_urls lower d images image_urls =
  take 4 (image_urls ++ filter (λ url, fresh_image lower d url = true) (omap id images)).
Proof.
  revert image_urls. induction images as [|[url|] rest IH]; intros acc Hacc.
  - cbn. rewrite app_nil_r. by rewrite take_ge by lia.
  - cbn [collect_image_urls].
    change (omap id (Some url :: rest)) with (url :: omap id rest).
    rewrite filter_cons. fold (fresh_image lower d url).
    destruct (fresh_image lower d url) eqn:Hfresh.
    + destruct (decide (true = true)); [|done].
      destruct (Nat.leb_spec 4 (length (acc ++ [url]))) as [Hl|Hl].
      * rewrite length_app in Hl. cbn in Hl.
        set (more := filter _ (omap id rest)).
        change (acc ++ url :: more) with (acc ++ ([url] ++ more)).
        rewrite (assoc_L (++)), take_app_le by (rewrite length_app; cbn; lia).
        rewrite take_ge; [done|]. rewrite length_app. cbn. lia.
      * rewrite IH by done. set (more := filter _ (omap id rest)).
        change (acc ++ url :: more) with (acc ++ ([url] ++ more)).
        by rewrite (assoc_L (++)).
    + destruct (decide (false = true)); [done|].
      destruct (Nat.leb_spec 4 (length acc)); [lia|]. by apply IH.
  - cbn [collect_image_urls].
    change (omap id (None :: rest)) with (omap id rest). by apply IH.
Qed.

(** X15. [get_top_4_image_urls] returns at most four URLs: the first four,
    in the order of the search results, of the ['original'] URLs that no
    stored post (draft, scheduled, canceled or published) has as its image
    and whose lower-cased text does not contain 'stockcake'. When the
    search raises or answers without results the list is empty. *)
Theorem get_top_4_image_urls_are_fresh
    (search : string → result (option (list (option string))))
    (lower : string → string) (d : database) (query : string) :
  let image_urls := get_top_4_image_urls search lower d query in
  (length image_urls ≤ 4)%nat
  ∧ (∀ images, search query = Ok (Some images) →
       image_urls = take 4 (filter (λ url, fresh_image lower d url = true)
                              (omap id images)))
  ∧ (∀ url, url ∈ image_urls →
       (∃ images, search query = Ok (Some images) ∧ Some url ∈ images)
       ∧ contains "stockcake" (lower url) = false
       ∧ ∀ k p, posts d !! k = Some p → image_url p ≠ Some url)
  ∧ ((∀ images, search query ≠ Ok (Some images)) → image_urls = []).
Proof.
  intros image_urls.
  assert (Htake : ∀ images, search query = Ok (Some images) →
            image_urls = take 4 (filter (λ url, fresh_image lower d url = true)
                                   (omap id images))).
  { intros images Hs. subst image_urls. unfold get_top_4_image_urls. rewrite Hs.
    rewrite collect_image_urls_take by (cbn; lia). done. }
  assert (Hnone : (∀ images, search query ≠ Ok (Some images)) → image_urls = []).
  { intros Hs. subst image_urls. unfold get_top_4_image_urls.
    destruct (search query) as [[images|]|e]; [|done..]. by destruct (Hs images). }
  split; [|split; [done|split; [|done]]].
  - destruct (search query) as [[images|]|e] eqn:Hs.
    + rewrite (Htake images eq_refl), length_take. lia.
    + rewrite Hnone by done. cbn. lia.
    + rewrite Hnone by done. cbn. lia.
  - intros url Hin.
    destruct (search query) as [[images|]|e] eqn:Hs.
    2,3: rewrite Hnone in Hin by done; by apply elem_of_nil in Hin.
    rewrite (Htake images eq_refl) in Hin.
    apply subseteq_take in Hin. apply list_elem_of_filter in Hin as [Hfresh Hin].
    apply list_elem_of_omap in Hin as (o & Hin & Ho). cbn in Ho. subst o.
    unfold fresh_image in Hfresh. apply andb_true_iff in Hfresh as [Hused Hstock].
    apply negb_true_iff in Hused, Hstock.
    split; [by exists images|]. split; [done|].
    intros k p Hk Hu.
    assert (is_image_url_used d url = true) by (apply is_image_url_used_spec; eauto).
    congruence.
Qed.



(** ** Reading one post *)


(** ** Updating a draft *)



(** ** The Instagram client *)

Ltac io_run :=
  repeat progress
    unfold mbind, mret, io_bind, io_ret, io_raise, io_lift, try_finally,
      raise_for_status in *.

Lemma reading_carries key answer value :
  InstagramClient.reading key answer = Ok value ↔
  ∃ response, answer = Ok response ∧ InstagramClient.carries response key value.
Proof.
  unfold InstagramClient.reading, InstagramClient.carries. split.
  - destruct answer as [response|e]; [|done].
    destruct (_ && _) eqn:Herr; [done|].
    destruct (Response.json response) as [body|e] eqn:Hjson; [|done].
    intros Hget. exists response. split; [done|]. split; [done|]. by exists body.
  - intros (response & -> & -> & body & -> & Hget). done.
Qed.

Lemma checks_cons ev l :
  InstagramClient.checks (ev :: l) =
  ((if InstagramClient.is_check ev then 1 else 0) + InstagramClient.checks l)%nat.
Proof.
  unfold InstagramClient.checks. rewrite filter_cons.
  destruct (InstagramClient.is_check ev); by case_decide.
Qed.

Lemma checks_app l1 l2 :
  InstagramClient.checks (l1 ++ l2) = (InstagramClient.checks l1 + InstagramClient.checks l2)%nat.
Proof. unfold InstagramClient.checks. by rewrite filter_app, length_app. Qed.

Lemma seconds_slept_app l1 l2 :
  InstagramClient.seconds_slept (l1 ++ l2) =
  (InstagramClient.seconds_slept l1 + InstagramClient.seconds_slept l2)%Z.
Proof. induction l1 as [|[|] l1 IH]; cbn; rewrite ?IH; lia. Qed.

Section InstagramPoster.
Context {St : Type} (api : InstagramClient.graph_api St).

Lemma check_container_status_run c e :
  InstagramClient.check_container_status api c e =
  let sent := InstagramClient.send api (InstagramClient.ContainerStatus c) (InstagramClient.remote e) in
  (InstagramClient.reading "status_code" sent.1,
   {| InstagramClient.remote := sent.2;
      InstagramClient.log := InstagramClient.log e
                         ++ [InstagramClient.Sent (InstagramClient.ContainerStatus c) sent.1] |}).
Proof.
  unfold InstagramClient.check_container_status, InstagramClient.requests, InstagramClient.reading. io_run.
  cbn zeta.
  destruct (InstagramClient.send api _ _) as [[response|x] s]; [|done]. cbn.
  destruct (_ && _); [done|].
  by destruct (Response.json response).
Qed.

Lemma create_container_log image_url caption e :
  ∃ q answer,
    InstagramClient.log (InstagramClient.create_container api image_url caption e).2 =
    InstagramClient.log e ++ [InstagramClient.Sent q answer] ∧ InstagramClient.is_publish (InstagramClient.Sent q answer) = false
    ∧ InstagramClient.is_check (InstagramClient.Sent q answer) = false.
Proof.
  unfold InstagramClient.create_container, InstagramClient.requests. io_run.
  destruct (InstagramClient.send api _ _) as [[response|x] s];
    [|eexists _, _; split; [reflexivity|done]].
  cbn. destruct (_ && _); [eexists _, _; split; [reflexivity|done]|].
  destruct (Response.json response) as [body|x];
    [|eexists _, _; split; [reflexivity|done]].
  destruct (py_get body "id") as [v|x]; [|eexists _, _; split; [reflexivity|done]].
  destruct (truthy v); eexists _, _; (split; [reflexivity|done]).
Qed.

Lemma publish_container_log c e :
  ∃ answer,
    InstagramClient.log (InstagramClient.publish_container api c e).2 =
    InstagramClient.log e ++ [InstagramClient.Sent (InstagramClient.MediaPublish c) answer]
    ∧ ∀ media_id, (InstagramClient.publish_container api c e).1 = Ok media_id →
        truthy media_id = true
        ∧ ∃ response, answer = Ok response ∧ InstagramClient.carries response "id" media_id.
Proof.
  unfold InstagramClient.publish_container, InstagramClient.requests, InstagramClient.carries. io_run.
  destruct (InstagramClient.send api _ _) as [[response|x] s];
    [|eexists; split; [reflexivity|done]].
  cbn. destruct (_ && _) eqn:Herr; [eexists; split; [reflexivity|done]|].
  destruct (Response.json response) as [body|x] eqn:Hjson;
    [|eexists; split; [reflexivity|done]].
  destruct (py_get body "id") as [v|x] eqn:Hget; [|eexists; split; [reflexivity|done]].
  destruct (truthy v) eqn:Hv; (eexists; split; [reflexivity|]); [|done].
  cbn. intros media_id [= <-]. split; [done|]. eauto 8.
Qed.

(** One turn of the loop. *)
Lemma wait_for_container_step n c status0 e :
  InstagramClient.wait_for_container api (S n) c status0 e =
  let sent := InstagramClient.send api (InstagramClient.ContainerStatus c) (InstagramClient.remote e) in
  let e1 := {| InstagramClient.remote := sent.2;
               InstagramClient.log := InstagramClient.log e
                 ++ [InstagramClient.Sent (InstagramClient.ContainerStatus c) sent.1] |} in
  match InstagramClient.reading "status_code" sent.1 with
  | Raise x => (Raise x, e1)
  | Ok status =>
      if is_str status "FINISHED" then (Ok status, e1)
      else if is_str status "ERROR" || is_str status "EXPIRED"
      then (Raise (InstagramClient.container_failed status), e1)
      else InstagramClient.wait_for_container api n c status
             {| InstagramClient.remote := InstagramClient.sleep api 5 sent.2;
                InstagramClient.log := InstagramClient.log e1 ++ [InstagramClient.Slept 5] |}
  end.
Proof.
  cbn [InstagramClient.wait_for_container]. unfold mbind at 1, io_bind at 1.
  rewrite check_container_status_run. cbn zeta.
  destruct (InstagramClient.reading _ _) as [status|x]; [|done].
  destruct (is_str status "FINISHED"); [done|].
  destruct (_ || _); done.
Qed.

(** The loop: what it adds to the log. *)
Lemma wait_for_container_log n c status0 e :
  ∃ more,
    InstagramClient.log (InstagramClient.wait_for_container api n c status0 e).2 = InstagramClient.log e ++ more
    ∧ (InstagramClient.checks more ≤ n)%nat
    ∧ (0 ≤ InstagramClient.seconds_slept more ≤ 5 * Z.of_nat n)%Z
    ∧ Forall (λ ev, InstagramClient.is_publish ev = false) more
    ∧ ∀ status,
        (InstagramClient.wait_for_container api n c status0 e).1 = Ok status →
        is_str status "FINISHED" = true →
        status = status0
        ∨ ∃ pre response,
            more = pre ++ [InstagramClient.Sent (InstagramClient.ContainerStatus c) (Ok response)]
            ∧ InstagramClient.carries response "status_code" status.
Proof.
  revert status0 e. induction n as [|n IH]; intros status0 e.
  { exists []. cbn. rewrite app_nil_r. split; [done|]. split; [done|]. split; [lia|].
    split; [done|]. intros status [= <-] _. by left. }
  rewrite wait_for_container_step. cbn zeta.
  set (sent := InstagramClient.send api (InstagramClient.ContainerStatus c) (InstagramClient.remote e)).
  set (e1 := {| InstagramClient.remote := sent.2; InstagramClient.log := _ |}).
  destruct (InstagramClient.reading "status_code" sent.1) as [status|x] eqn:Hread.
  2: { exists [InstagramClient.Sent (InstagramClient.ContainerStatus c) sent.1].
       split; [done|]. split; [rewrite checks_cons; cbn; lia|]. split; [cbn; lia|].
    split; [by repeat constructor|done]. }
  destruct (is_str status "FINISHED") eqn:Hfin.
  { exists [InstagramClient.Sent (InstagramClient.ContainerStatus c) sent.1].
    split; [done|]. split; [rewrite checks_cons; cbn; lia|]. split; [cbn; lia|].
    split; [by repeat constructor|].
    intros status' [= <-] _. right.
    apply reading_carries in Hread as (response & Hsent & Hcarries).
    exists [], response. rewrite Hsent. done. }
  destruct (is_str status "ERROR" || is_str status "EXPIRED").
  { exists [InstagramClient.Sent (InstagramClient.ContainerStatus c) sent.1].
    split; [done|]. split; [rewrite checks_cons; cbn; lia|]. split; [cbn; lia|].
    split; [by repeat constructor|done]. }
  set (e2 := {| InstagramClient.remote := _; InstagramClient.log := InstagramClient.log e1 ++ _ |}).
  destruct (IH status e2) as (more & Hlog & Hchecks & Hslept & Hnopub & Hfinished).
  exists (InstagramClient.Sent (InstagramClient.ContainerStatus c) sent.1 :: InstagramClient.Slept 5 :: more).
  split.
  { rewrite Hlog. subst e2 e1. cbn. by rewrite <- !app_assoc. }
  split.
  { rewrite !checks_cons. cbn. lia. }
  split; [cbn; lia|]. split; [by repeat constructor|].
  intros status' Hok Hfin'.
  destruct (Hfinished status' Hok Hfin') as [->|(pre & response & -> & Hcarries)];
    [congruence|].
  right. by exists (InstagramClient.Sent (InstagramClient.ContainerStatus c) sent.1
                      :: InstagramClient.Slept 5 :: pre), response.
Qed.

(** The loop against a platform that never finishes the container. *)
Lemma wait_for_container_pending n c status0 e :
  (∀ s, ∃ response status,
      (InstagramClient.send api (InstagramClient.ContainerStatus c) s).1 = Ok response
      ∧ InstagramClient.carries response "status_code" status ∧ InstagramClient.pending status) →
  ∃ status more,
    (InstagramClient.wait_for_container api n c status0 e).1 = Ok status
    ∧ (status = status0 ∨ InstagramClient.pending status)
    ∧ InstagramClient.log (InstagramClient.wait_for_container api n c status0 e).2
      = InstagramClient.log e ++ more
    ∧ InstagramClient.checks more = n
    ∧ InstagramClient.seconds_slept more = (5 * Z.of_nat n)%Z
    ∧ Forall (λ ev, InstagramClient.is_publish ev = false) more.
Proof.
  intros Hpending. revert status0 e. induction n as [|n IH]; intros status0 e.
  { exists status0, []. cbn. rewrite app_nil_r. repeat split; auto. }
  rewrite wait_for_container_step. cbn zeta.
  destruct (Hpending (InstagramClient.remote e)) as (response & status & Hsent & Hcarries & Hp).
  set (sent := InstagramClient.send api (InstagramClient.ContainerStatus c) (InstagramClient.remote e)) in *.
  set (e1 := {| InstagramClient.remote := sent.2; InstagramClient.log := _ |}).
  assert (Hread : InstagramClient.reading "status_code" sent.1 = Ok status).
  { apply reading_carries. eauto. }
  rewrite Hread. destruct Hp as (Hfin & Herr & Hexp). rewrite Hfin, Herr, Hexp. cbn [orb].
  set (e2 := {| InstagramClient.remote := _; InstagramClient.log := InstagramClient.log e1 ++ _ |}).
  destruct (IH status e2) as (status' & more & Hok & Hst & Hlog & Hchecks & Hslept & Hnopub).
  exists status', (InstagramClient.Sent (InstagramClient.ContainerStatus c) sent.1
                     :: InstagramClient.Slept 5 :: more).
  split; [done|]. split.
  { right. destruct Hst as [->|?]; done. }
  split.
  { rewrite Hlog. subst e2 e1. cbn. by rewrite <- !app_assoc. }
  split.
  { rewrite !checks_cons. cbn. lia. }
  split; [cbn; lia|]. by repeat constructor.
Qed.

Lemma post_image_from_url_run image_url caption e :
  InstagramClient.post_image_from_url api image_url caption e =
  match InstagramClient.create_container api image_url caption e with
  | (Raise x, e1) => (Raise x, e1)
  | (Ok c, e1) =>
      match InstagramClient.wait_for_container api InstagramClient.max_attempts c PyNone e1 with
      | (Raise x, e2) => (Raise x, e2)
      | (Ok status, e2) =>
          if is_str status "FINISHED" then InstagramClient.publish_container api c e2
          else (Raise (Failure "Container not ready after maximum attempts"), e2)
      end
  end.
Proof.
  unfold InstagramClient.post_image_from_url. unfold mbind at 1, io_bind at 1.
  destruct (InstagramClient.create_container api image_url caption e) as [[c|x] e1]; [|done].
  unfold mbind at 1, io_bind at 1.
  destruct (InstagramClient.wait_for_container _ _ _ _ _) as [[status|x] e2]; [|done].
  by destruct (is_str status "FINISHED").
Qed.

(** X19. Whatever the platform answers, one call of the Instagram client
    checks the container at most five times and sleeps at most 25
    seconds; it asks for publication at most once, as its last request,
    and only directly after a status check that was answered FINISHED for
    that container. When it returns a media id, that id is what the
    publication request was answered with, and it is not empty. *)
Theorem instagram_publishes_only_finished
    (image_url caption : option string) (e : InstagramClient.session St) :
  let run := InstagramClient.post_image_from_url api image_url caption e in
  ∃ more,
    InstagramClient.log run.2 = InstagramClient.log e ++ more
    ∧ (InstagramClient.checks more ≤ 5)%nat
    ∧ (InstagramClient.seconds_slept more ≤ 25)%Z
    ∧ (∀ c answer, InstagramClient.Sent (InstagramClient.MediaPublish c) answer ∈ more →
         ∃ pre response,
           more = pre ++ [InstagramClient.Sent (InstagramClient.ContainerStatus c) (Ok response);
                          InstagramClient.Sent (InstagramClient.MediaPublish c) answer]
           ∧ InstagramClient.carries response "status_code" (PyStr "FINISHED")
           ∧ Forall (λ ev, InstagramClient.is_publish ev = false) pre)
    ∧ (∀ media_id, run.1 = Ok media_id →
         truthy media_id = true
         ∧ ∃ c response,
             last more = Some (InstagramClient.Sent (InstagramClient.MediaPublish c) (Ok response))
             ∧ InstagramClient.carries response "id" media_id).
Proof.
  intros run. subst run. rewrite post_image_from_url_run.
  destruct (create_container_log image_url caption e)
    as (q & a0 & Hlog0 & Hq & Hq').
  assert (Hnone : ∀ l : list InstagramClient.step,
            Forall (λ ev, InstagramClient.is_publish ev = false) l →
            ∀ c answer, InstagramClient.Sent (InstagramClient.MediaPublish c) answer ∈ l → False).
  { intros l Hl c answer Hin. rewrite Forall_forall in Hl.
    by specialize (Hl _ Hin). }
  destruct (InstagramClient.create_container api image_url caption e) as [[c|x] e1].
  2: { exists [InstagramClient.Sent q a0]. cbn [fst snd] in *. split; [done|].
       split; [rewrite checks_cons, Hq'; cbn; lia|]. split; [cbn; lia|].
       split; [|done]. intros c answer Hin. exfalso.
       eapply (Hnone [InstagramClient.Sent q a0]); [by repeat constructor|done]. }
  cbn [fst snd] in Hlog0.
  destruct (wait_for_container_log InstagramClient.max_attempts c PyNone e1)
    as (more & Hlog & Hchecks & Hslept & Hnopub & Hfinished).
  destruct (InstagramClient.wait_for_container api _ c PyNone e1) as [[status|x] e2].
  2: { exists (InstagramClient.Sent q a0 :: more). cbn [fst snd] in *.
       split; [by rewrite Hlog, Hlog0, <- app_assoc|].
       split; [rewrite checks_cons, Hq'; unfold InstagramClient.max_attempts in *; cbn; lia|].
       split; [cbn [InstagramClient.seconds_slept]; unfold InstagramClient.max_attempts in *; lia|].
       split; [|done]. intros c' answer Hin. exfalso.
       eapply (Hnone (InstagramClient.Sent q a0 :: more)); [by constructor|done]. }
  cbn [fst snd] in Hlog, Hfinished.
  destruct (is_str status "FINISHED") eqn:Hfin.
  2: { exists (InstagramClient.Sent q a0 :: more). cbn [fst snd].
       split; [by rewrite Hlog, Hlog0, <- app_assoc|].
       split; [rewrite checks_cons, Hq'; unfold InstagramClient.max_attempts in *; cbn; lia|].
       split; [cbn [InstagramClient.seconds_slept]; unfold InstagramClient.max_attempts in *; lia|].
       split; [|done]. intros c' answer Hin. exfalso.
       eapply (Hnone (InstagramClient.Sent q a0 :: more)); [by constructor|done]. }
  destruct (Hfinished status eq_refl Hfin) as [->|(pre & response & -> & Hcarries)];
    [done|].
  assert (status = PyStr "FINISHED") as ->.
  { destruct status as [| | |t|]; try done. cbn in Hfin.
    apply String.eqb_eq in Hfin. by subst. }
  destruct (publish_container_log c e2) as (answer & Hlog2 & Hid).
  exists (InstagramClient.Sent q a0 :: pre
            ++ [InstagramClient.Sent (InstagramClient.ContainerStatus c) (Ok response);
                InstagramClient.Sent (InstagramClient.MediaPublish c) answer]).
  apply Forall_app in Hnopub as [Hpre _].
  split.
  { rewrite Hlog2, Hlog, Hlog0. rewrite <- !app_assoc. done. }
  split.
  { rewrite checks_app, checks_cons in Hchecks.
    rewrite checks_cons, checks_app, !checks_cons, Hq'.
    unfold InstagramClient.max_attempts in *. cbn in *. lia. }
  split.
  { unfold InstagramClient.max_attempts in Hslept.
    cbn [InstagramClient.seconds_slept]. rewrite seconds_slept_app in *. cbn in *. lia. }
  split.
  { intros c' answer' Hin.
    apply elem_of_cons in Hin as [Heq|Hin]; [by rewrite <- Heq in Hq|].
    apply elem_of_app in Hin as [Hin|Hin]; [by destruct (Hnone pre Hpre c' answer')|].
    apply elem_of_cons in Hin as [Heq|Hin]; [done|].
    apply list_elem_of_singleton in Hin. injection Hin as -> ->.
    exists (InstagramClient.Sent q a0 :: pre), response.
    split; [done|]. split; [done|]. by constructor. }
  intros media_id Hok. destruct (Hid media_id Hok) as (Htruthy & resp & -> & Hc).
  split; [done|]. exists c, resp. split; [|done].
  change (InstagramClient.Sent q a0 :: pre ++ ?l) with ((InstagramClient.Sent q a0 :: pre) ++ l).
  by rewrite last_app.
Qed.

(** X20. When the container is created and every status check is answered
    with a status other than FINISHED, ERROR and EXPIRED, the Instagram
    client gives up with 'Container not ready after maximum attempts': it
    has checked five times, slept five seconds after each check (the last
    one too), and has not asked for publication. *)
Theorem instagram_gives_up_after_five_checks
    (image_url caption : option string) (e e1 : InstagramClient.session St) (c : pyval)
    (Hcreate : InstagramClient.create_container api image_url caption e = (Ok c, e1))
    (Hpending : ∀ s, ∃ response status,
        (InstagramClient.send api (InstagramClient.ContainerStatus c) s).1 = Ok response
        ∧ InstagramClient.carries response "status_code" status
        ∧ InstagramClient.pending status) :
  let run := InstagramClient.post_image_from_url api image_url caption e in
  run.1 = Raise (Failure "Container not ready after maximum attempts")
  ∧ ∃ more,
      InstagramClient.log run.2 = InstagramClient.log e1 ++ more
      ∧ InstagramClient.checks more = 5%nat
      ∧ InstagramClient.seconds_slept more = 25%Z
      ∧ Forall (λ ev, InstagramClient.is_publish ev = false) more.
Proof.
  intros run. subst run. rewrite post_image_from_url_run, Hcreate.
  destruct (wait_for_container_pending InstagramClient.max_attempts c PyNone e1 Hpending)
    as (status & more & Hok & Hst & Hlog & Hchecks & Hslept & Hnopub).
  destruct (InstagramClient.wait_for_container api _ c PyNone e1) as [[status'|x] e2];
    [|done].
  cbn in Hok, Hlog. injection Hok as ->.
  assert (is_str status "FINISHED" = false) as ->.
  { destruct Hst as [->|(? & _)]; done. }
  split; [done|]. exists more. done.
Qed.

End InstagramPoster.

Lemma instagram_gives_up_after_five_checks_witness :
  let e := {| InstagramClient.remote := tt; InstagramClient.log := [] |} in
  let run := InstagramClient.post_image_from_url InstagramClient.stuck
               (Some "https://img.example/soup.jpg") (Some "Soup") e in
  run.1 = Raise (Failure "Container not ready after maximum attempts")
  ∧ ∃ more,
      InstagramClient.log run.2 =
        [InstagramClient.Sent (InstagramClient.CreateMedia (Some "https://img.example/soup.jpg")
                           (Some "Soup"))
           (Ok (InstagramClient.answer [("id", PyStr "17900")]))] ++ more
      ∧ InstagramClient.checks more = 5%nat
      ∧ InstagramClient.seconds_slept more = 25%Z
      ∧ Forall (λ ev, InstagramClient.is_publish ev = false) more.
Proof.
  intros e.
  apply (instagram_gives_up_after_five_checks InstagramClient.stuck
           (Some "https://img.example/soup.jpg") (Some "Soup") e
           {| InstagramClient.remote := tt;
              InstagramClient.log :=
                [InstagramClient.Sent (InstagramClient.CreateMedia (Some "https://img.example/soup.jpg")
                                   (Some "Soup"))
                   (Ok (InstagramClient.answer [("id", PyStr "17900")]))] |}
           (PyStr "17900")).
  - reflexivity.
  - intros s. exists (InstagramClient.answer [("status_code", PyStr "IN_PROGRESS")]),
      (PyStr "IN_PROGRESS").
    split; [reflexivity|]. split; [|by vm_compute].
    split; [reflexivity|]. by eexists.
Defined.

(** ** The Twitter client *)

Ltac log_entries H :=
  cbn in H;
  repeat match type of H with
         | _ ∈ _ :: _ => apply elem_of_cons in H as [H|H]; [try discriminate H|]
         | _ ∈ [] => by apply elem_of_nil in H
         end.

(** X21. Whatever the platform answers and whether or not the call
    succeeds, the Twitter client leaves no [temp_image.png] behind (a file
    of that name from before the call is gone too) and sends at most three
    requests. A tweet is only ever requested after the image was
    downloaded without an HTTP error and the upload of exactly the
    downloaded bytes was answered 200 with a media id, and it carries the
    caller's text and that media id. The call returns only what a tweet
    request answered with status 201 carries. *)
Theorem twitter_client_cleans_up_and_orders_requests
    {St : Type} (api : TwitterClient.twitter_api St)
    (tweet_text image_url : option string) (e : TwitterClient.session St) :
  let run := TwitterClient.post_image_from_url api tweet_text image_url e in
  TwitterClient.temp_image run.2 = None
  ∧ ∃ more,
      TwitterClient.log run.2 = TwitterClient.log e ++ more
      ∧ (length more ≤ 3)%nat
      ∧ (∀ text media_id answer,
           TwitterClient.Sent (TwitterClient.CreateTweet text media_id) answer ∈ more →
           ∃ image upload body,
             more = [TwitterClient.Sent (TwitterClient.GetImage image_url) (Ok image);
                     TwitterClient.Sent
                       (TwitterClient.MediaUpload (Response.content image)) (Ok upload);
                     TwitterClient.Sent
                       (TwitterClient.CreateTweet tweet_text media_id) answer]
             ∧ text = tweet_text
             ∧ (400 <=? Response.status_code image)%Z
               && (Response.status_code image <? 600)%Z = false
             ∧ Response.status_code upload = 200%Z
             ∧ Response.json upload = Ok body
             ∧ py_item body "media_id_string" = Ok media_id)
      ∧ (∀ tweet, run.1 = Ok tweet →
           ∃ media_id response,
             last more = Some (TwitterClient.Sent
                                 (TwitterClient.CreateTweet tweet_text media_id)
                                 (Ok response))
             ∧ Response.status_code response = 201%Z
             ∧ Response.json response = Ok tweet).
Proof.
  intros run. subst run.
  unfold TwitterClient.post_image_from_url, TwitterClient.download_image,
    TwitterClient.tweet_with_image, TwitterClient.requests, TwitterClient.write_file,
    TwitterClient.read_file, TwitterClient.remove_file.
  io_run.
  destruct (TwitterClient.send api (TwitterClient.GetImage image_url) _)
    as [[image|x] s1]; cbn.
  2: { split; [done|]. eexists. split; [reflexivity|]. split; [cbn; lia|].
       split; [|done]. intros text media_id answer Hin. log_entries Hin. }
  destruct (_ && _) eqn:Herr; cbn.
  { split; [done|]. eexists. split; [reflexivity|]. split; [cbn; lia|].
    split; [|done]. intros text media_id answer Hin. log_entries Hin. }
  destruct (TwitterClient.send api (TwitterClient.MediaUpload _) _)
    as [[upload|x] s2]; cbn.
  2: { split; [done|]. eexists. split; [by rewrite <- app_assoc|]. split; [cbn; lia|].
       split; [|done]. intros text media_id answer Hin. log_entries Hin. }
  destruct (Z.eqb_spec (Response.status_code upload) 200) as [H200|H200]; cbn.
  2: { split; [done|]. eexists. split; [by rewrite <- app_assoc|]. split; [cbn; lia|].
       split; [|done]. intros text media_id answer Hin. log_entries Hin. }
  destruct (Response.json upload) as [body|x] eqn:Hbody; cbn.
  2: { split; [done|]. eexists. split; [by rewrite <- app_assoc|]. split; [cbn; lia|].
       split; [|done]. intros text media_id answer Hin. log_entries Hin. }
  destruct (py_item body "media_id_string") as [media_id|x] eqn:Hid; cbn.
  2: { split; [done|]. eexists. split; [by rewrite <- app_assoc|]. split; [cbn; lia|].
       split; [|done]. intros text media_id answer Hin. log_entries Hin. }
  destruct (TwitterClient.send api (TwitterClient.CreateTweet _ _) _)
    as [a3 s3] eqn:Hsend; cbn.
  assert (Hentries : ∀ text media_id' answer,
            TwitterClient.Sent (TwitterClient.CreateTweet text media_id') answer
            ∈ [TwitterClient.Sent (TwitterClient.GetImage image_url) (Ok image);
               TwitterClient.Sent (TwitterClient.MediaUpload (Response.content image))
                 (Ok upload);
               TwitterClient.Sent (TwitterClient.CreateTweet tweet_text media_id) a3] →
            ∃ image0 upload0 body0,
              [TwitterClient.Sent (TwitterClient.GetImage image_url) (Ok image);
               TwitterClient.Sent (TwitterClient.MediaUpload (Response.content image))
                 (Ok upload);
               TwitterClient.Sent (TwitterClient.CreateTweet tweet_text media_id) a3]
              = [TwitterClient.Sent (TwitterClient.GetImage image_url) (Ok image0);
                 TwitterClient.Sent
                   (TwitterClient.MediaUpload (Response.content image0)) (Ok upload0);
                 TwitterClient.Sent
                   (TwitterClient.CreateTweet tweet_text media_id') answer]
              ∧ text = tweet_text
              ∧ (400 <=? Response.status_code image0)%Z
                && (Response.status_code image0 <? 600)%Z = false
              ∧ Response.status_code upload0 = 200%Z
              ∧ Response.json upload0 = Ok body0
              ∧ py_item body0 "media_id_string" = Ok media_id').
  { intros text media_id' answer Hin.
    apply elem_of_cons in Hin as [Hin|Hin]; [discriminate Hin|].
    apply elem_of_cons in Hin as [Hin|Hin]; [discriminate Hin|].
    apply list_elem_of_singleton in Hin. injection Hin as -> -> ->.
    by exists image, upload, body. }
  destruct a3 as [response|x]; cbn.
  2: { split; [done|]. eexists. split; [by rewrite <- !app_assoc|]. split; [cbn; lia|].
       split; [exact Hentries|done]. }
  destruct (Z.eqb_spec (Response.status_code response) 201) as [H201|H201]; cbn.
  2: { split; [done|]. eexists. split; [by rewrite <- !app_assoc|]. split; [cbn; lia|].
       split; [exact Hentries|done]. }
  split; [done|]. eexists. split; [by rewrite <- !app_assoc|]. split; [cbn; lia|].
  split; [exact Hentries|].
  intros tweet Htweet. exists media_id, response. done.
Qed.

(** ** The Pinterest client *)

(** X22. Whatever the platform answers, the Pinterest client leaves no
    [temp_pinterest_image.jpg] behind and sends at most three requests. A
    pin is only ever requested after the image was downloaded without an
    HTTP error and the upload of the downloaded bytes was answered 201
    with an [id]; it carries that id as its media, the caller's title, and
    as description the caller's description, or the title when the
    description is empty or missing. The call returns only the JSON body
    of a pin request answered 201, and only when that body has an [id]. *)
Theorem pinterest_client_cleans_up_and_orders_requests
    {St : Type} (api : PinterestClient.pinterest_api St)
    (image_url title description : option string) (e : PinterestClient.session St) :
  let run := PinterestClient.post_image_from_url api image_url title description e in
  PinterestClient.temp_image run.2 = None
  ∧ ∃ more,
      PinterestClient.log run.2 = PinterestClient.log e ++ more
      ∧ (length more ≤ 3)%nat
      ∧ (∀ title' description' media_id answer,
           PinterestClient.Sent (PinterestClient.CreatePin title' description' media_id)
             answer ∈ more →
           ∃ image upload body,
             more = [PinterestClient.Sent (PinterestClient.GetImage image_url) (Ok image);
                     PinterestClient.Sent
                       (PinterestClient.UploadMedia (Response.content image)) (Ok upload);
                     PinterestClient.Sent
                       (PinterestClient.CreatePin title' description' media_id) answer]
             ∧ title' = title
             ∧ description' = (if nonempty description then description else title)
             ∧ (400 <=? Response.status_code image)%Z
               && (Response.status_code image <? 600)%Z = false
             ∧ Response.status_code upload = 201%Z
             ∧ Response.json upload = Ok body
             ∧ py_item body "id" = Ok media_id)
      ∧ (∀ pin, run.1 = Ok pin →
           ∃ title' description' media_id response pin_id,
             last more = Some (PinterestClient.Sent
                                 (PinterestClient.CreatePin title' description' media_id)
                                 (Ok response))
             ∧ Response.status_code response = 201%Z
             ∧ Response.json response = Ok pin
             ∧ py_item pin "id" = Ok pin_id).
Proof.
  intros run. subst run.
  unfold PinterestClient.post_image_from_url, PinterestClient.download_image,
    PinterestClient.upload_media, PinterestClient.create_pin, PinterestClient.requests,
    PinterestClient.write_file, PinterestClient.read_file, PinterestClient.remove_file.
  io_run.
  set (description0 := if nonempty description then description else title).
  destruct (PinterestClient.send api (PinterestClient.GetImage image_url) _)
    as [[image|x] s1]; cbn.
  2: { split; [done|]. eexists. split; [reflexivity|]. split; [cbn; lia|].
       split; [|done]. intros t d m answer Hin. log_entries Hin. }
  destruct (_ && _) eqn:Herr; cbn.
  { split; [done|]. eexists. split; [reflexivity|]. split; [cbn; lia|].
    split; [|done]. intros t d m answer Hin. log_entries Hin. }
  destruct (PinterestClient.send api (PinterestClient.UploadMedia _) _)
    as [[upload|x] s2]; cbn.
  2: { split; [done|]. eexists. split; [by rewrite <- app_assoc|]. split; [cbn; lia|].
       split; [|done]. intros t d m answer Hin. log_entries Hin. }
  destruct (Z.eqb_spec (Response.status_code upload) 201) as [H201|H201]; cbn.
  2: { split; [done|]. eexists. split; [by rewrite <- app_assoc|]. split; [cbn; lia|].
       split; [|done]. intros t d m answer Hin. log_entries Hin. }
  destruct (Response.json upload) as [body|x] eqn:Hbody; cbn.
  2: { split; [done|]. eexists. split; [by rewrite <- app_assoc|]. split; [cbn; lia|].
       split; [|done]. intros t d m answer Hin. log_entries Hin. }
  destruct (py_item body "id") as [media_id|x] eqn:Hid; cbn.
  2: { split; [done|]. eexists. split; [by rewrite <- app_assoc|]. split; [cbn; lia|].
       split; [|done]. intros t d m answer Hin. log_entries Hin. }
  destruct (PinterestClient.send api (PinterestClient.CreatePin _ _ _) _)
    as [a3 s3] eqn:Hsend; cbn.
  assert (Hentries : ∀ t d m answer,
            PinterestClient.Sent (PinterestClient.CreatePin t d m) answer
            ∈ [PinterestClient.Sent (PinterestClient.GetImage image_url) (Ok image);
               PinterestClient.Sent (PinterestClient.UploadMedia (Response.content image))
                 (Ok upload);
               PinterestClient.Sent
                 (PinterestClient.CreatePin title description0 media_id) a3] →
            ∃ image0 upload0 body0,
              [PinterestClient.Sent (PinterestClient.GetImage image_url) (Ok image);
               PinterestClient.Sent (PinterestClient.UploadMedia (Response.content image))
                 (Ok upload);
               PinterestClient.Sent
                 (PinterestClient.CreatePin title description0 media_id) a3]
              = [PinterestClient.Sent (PinterestClient.GetImage image_url) (Ok image0);
                 PinterestClient.Sent
                   (PinterestClient.UploadMedia (Response.content image0)) (Ok upload0);
                 PinterestClient.Sent (PinterestClient.CreatePin t d m) answer]
              ∧ t = title ∧ d = description0
              ∧ (400 <=? Response.status_code image0)%Z
                && (Response.status_code image0 <? 600)%Z = false
              ∧ Response.status_code upload0 = 201%Z
              ∧ Response.json upload0 = Ok body0
              ∧ py_item body0 "id" = Ok m).
  { intros t d m answer Hin.
    apply elem_of_cons in Hin as [Hin|Hin]; [discriminate Hin|].
    apply elem_of_cons in Hin as [Hin|Hin]; [discriminate Hin|].
    apply list_elem_of_singleton in Hin. injection Hin as -> -> -> ->.
    by exists image, upload, body. }
  destruct a3 as [response|x]; cbn.
  2: { split; [done|]. eexists. split; [by rewrite <- !app_assoc|]. split; [cbn; lia|].
       split; [exact Hentries|done]. }
  destruct (Z.eqb_spec (Response.status_code response) 201) as [H201'|H201']; cbn.
  2: { split; [done|]. eexists. split; [by rewrite <- !app_assoc|]. split; [cbn; lia|].
       split; [exact Hentries|done]. }
  destruct (Response.json response) as [pin|x] eqn:Hpin; cbn.
  2: { split; [done|]. eexists. split; [by rewrite <- !app_assoc|]. split; [cbn; lia|].
       split; [exact Hentries|done]. }
  destruct (py_item pin "id") as [pin_id|x] eqn:Hpinid; cbn.
  2: { split; [done|]. eexists. split; [by rewrite <- !app_assoc|]. split; [cbn; lia|].
       split; [exact Hentries|done]. }
  split; [done|]. eexists. split; [by rewrite <- !app_assoc|]. split; [cbn; lia|].
  split; [exact Hentries|].
  intros pin' [= <-]. by exists title, description0, media_id, response, pin_id.
Qed.

(** ** The Facebook client *)

(** [get_page_info] never raises: it sends one request and keeps or
    replaces the token. *)
Lemma get_page_info_run {St} (api : FacebookClient.graph_api St) e :
  let sent := FacebookClient.send api (FacebookClient.PageInfo (FacebookClient.access_token e))
                (FacebookClient.remote e) in
  ∃ page_data,
    FacebookClient.get_page_info api e =
    (Ok page_data,
     {| FacebookClient.remote := sent.2;
        FacebookClient.access_token :=
          FacebookClient.token_after (FacebookClient.access_token e) sent.1;
        FacebookClient.temp_image := FacebookClient.temp_image e;
        FacebookClient.log :=
          FacebookClient.log e
          ++ [FacebookClient.Sent (FacebookClient.PageInfo (FacebookClient.access_token e))
                sent.1] |}).
Proof.
  intros sent. subst sent.
  unfold FacebookClient.get_page_info, io_try_except, FacebookClient.get_access_token,
    FacebookClient.requests, FacebookClient.set_access_token, FacebookClient.token_after.
  io_run.
  destruct (FacebookClient.send api _ _) as [[response|x] s]; cbn; [|eauto].
  destruct (Response.status_code response =? 200)%Z; cbn; [|eauto].
  destruct (Response.json response) as [[| | | |items]|x]; cbn; eauto.
  destruct (assoc "access_token" items); cbn; eauto.
Qed.

(** X23. Whatever the platform answers, the Facebook client first asks
    for the page's info with the token it holds, and whatever comes of
    that request it goes on to download the image. From then on it holds the page's own token
    when the answer had status 200 and a JSON object with an
    [access_token], and its old token otherwise. It leaves no
    [temp_facebook_image.jpg] behind. A photo is only uploaded after the
    image was downloaded without an HTTP error, with the caller's caption,
    the token held and the downloaded bytes. The call returns only a
    non-empty [id], or else [post_id], of the upload's answer. *)
Theorem facebook_client_uses_page_token
    {St : Type} (api : FacebookClient.graph_api St)
    (image_url caption : option string) (e : FacebookClient.session St) :
  let run := FacebookClient.post_image_from_url api image_url caption e in
  FacebookClient.temp_image run.2 = None
  ∧ ∃ page more,
      FacebookClient.log run.2 =
        FacebookClient.log e
        ++ FacebookClient.Sent (FacebookClient.PageInfo (FacebookClient.access_token e)) page
           :: more
      ∧ FacebookClient.access_token run.2 =
          FacebookClient.token_after (FacebookClient.access_token e) page
      ∧ (length more ≤ 2)%nat
      ∧ (∃ answer rest,
           more = FacebookClient.Sent (FacebookClient.GetImage image_url) answer :: rest)
      ∧ (∀ message token source answer,
           FacebookClient.Sent (FacebookClient.UploadPhoto message token source) answer
           ∈ more →
           ∃ image,
             more = [FacebookClient.Sent (FacebookClient.GetImage image_url) (Ok image);
                     FacebookClient.Sent
                       (FacebookClient.UploadPhoto message token source) answer]
             ∧ message = caption
             ∧ token = FacebookClient.token_after (FacebookClient.access_token e) page
             ∧ source = Response.content image
             ∧ (400 <=? Response.status_code image)%Z
               && (Response.status_code image <? 600)%Z = false)
      ∧ (∀ photo_id, run.1 = Ok photo_id →
           truthy photo_id = true
           ∧ ∃ message token source response body,
               last more = Some (FacebookClient.Sent
                                   (FacebookClient.UploadPhoto message token source)
                                   (Ok response))
               ∧ Response.json response = Ok body
               ∧ (py_get body "id" = Ok photo_id
                  ∨ ∃ id, py_get body "id" = Ok id ∧ truthy id = false
                          ∧ py_get body "post_id" = Ok photo_id)).
Proof.
  intros run. subst run.
  unfold FacebookClient.post_image_from_url, FacebookClient.post_image_to_page.
  unfold FacebookClient.requests, FacebookClient.write_file, FacebookClient.read_file,
    FacebookClient.remove_file, FacebookClient.get_access_token.
  io_run.
  destruct (get_page_info_run api e) as [page_data ->]. cbn zeta.
  destruct (FacebookClient.send api (FacebookClient.PageInfo _) _) as [page s0]. cbn [fst snd].
  set (token := FacebookClient.token_after (FacebookClient.access_token e) page).
  cbn.
  destruct (FacebookClient.send api (FacebookClient.GetImage image_url) s0)
    as [[image|x] s1]; cbn.
  2: { split; [done|]. eexists _, _. split; [by rewrite <- app_assoc|].
       split; [done|]. split; [cbn; lia|]. split; [by eexists _, _|]. split; [|done].
       intros message tk source answer Hin. log_entries Hin. }
  destruct (_ && _) eqn:Herr; cbn.
  { split; [done|]. eexists _, _. split; [by rewrite <- app_assoc|].
    split; [done|]. split; [cbn; lia|]. split; [by eexists _, _|]. split; [|done].
    intros message tk source answer Hin. log_entries Hin. }
  destruct (FacebookClient.send api (FacebookClient.UploadPhoto _ _ _) s1)
    as [a2 s2]; cbn.
  assert (Hentries : ∀ message tk source answer,
            FacebookClient.Sent (FacebookClient.UploadPhoto message tk source) answer
            ∈ [FacebookClient.Sent (FacebookClient.GetImage image_url) (Ok image);
               FacebookClient.Sent
                 (FacebookClient.UploadPhoto caption token (Response.content image)) a2] →
            ∃ image0,
              [FacebookClient.Sent (FacebookClient.GetImage image_url) (Ok image);
               FacebookClient.Sent
                 (FacebookClient.UploadPhoto caption token (Response.content image)) a2]
              = [FacebookClient.Sent (FacebookClient.GetImage image_url) (Ok image0);
                 FacebookClient.Sent
                   (FacebookClient.UploadPhoto message tk source) answer]
              ∧ message = caption ∧ tk = token ∧ source = Response.content image0
              ∧ (400 <=? Response.status_code image0)%Z
                && (Response.status_code image0 <? 600)%Z = false).
  { intros message tk source answer Hin.
    apply elem_of_cons in Hin as [Hin|Hin]; [discriminate Hin|].
    apply list_elem_of_singleton in Hin. injection Hin as -> -> -> ->.
    by exists image. }
  destruct a2 as [response|x]; cbn.
  2: { split; [done|]. eexists _, _. split; [by rewrite <- !app_assoc|].
       split; [done|]. split; [cbn; lia|]. split; [by eexists _, _|]. split; [exact Hentries|done]. }
  destruct ((400 <=? Response.status_code response)%Z && _) eqn:Herr2; cbn.
  { split; [done|]. eexists _, _. split; [by rewrite <- !app_assoc|].
    split; [done|]. split; [cbn; lia|]. split; [by eexists _, _|]. split; [exact Hentries|done]. }
  destruct (Response.json response) as [body|x] eqn:Hbody; cbn.
  2: { split; [done|]. eexists _, _. split; [by rewrite <- !app_assoc|].
       split; [done|]. split; [cbn; lia|]. split; [by eexists _, _|]. split; [exact Hentries|done]. }
  destruct (py_get body "id") as [id|x] eqn:Hid; cbn.
  2: { split; [done|]. eexists _, _. split; [by rewrite <- !app_assoc|].
       split; [done|]. split; [cbn; lia|]. split; [by eexists _, _|]. split; [exact Hentries|done]. }
  destruct (truthy id) eqn:Htruthy; cbn.
  { rewrite Htruthy. cbn.
    split; [done|]. eexists _, _. split; [by rewrite <- !app_assoc|].
    split; [done|]. split; [cbn; lia|]. split; [by eexists _, _|]. split; [exact Hentries|].
    intros photo_id [= <-]. split; [done|]. eexists _, _, _, response, body.
    split; [done|]. split; [done|]. by left. }
  destruct (py_get body "post_id") as [post_id|x] eqn:Hpost; cbn.
  2: { split; [done|]. eexists _, _. split; [by rewrite <- !app_assoc|].
       split; [done|]. split; [cbn; lia|]. split; [by eexists _, _|]. split; [exact Hentries|done]. }
  destruct (truthy post_id) eqn:Htruthy'; cbn.
  2: { split; [done|]. eexists _, _. split; [by rewrite <- !app_assoc|].
       split; [done|]. split; [cbn; lia|]. split; [by eexists _, _|]. split; [exact Hentries|done]. }
  split; [done|]. eexists _, _. split; [by rewrite <- !app_assoc|].
  split; [done|]. split; [cbn; lia|]. split; [by eexists _, _|]. split; [exact Hentries|].
  intros photo_id [= <-]. split; [done|]. eexists _, _, _, response, body.
  split; [done|]. split; [done|]. right. by exists id.
Qed.
